(** * NEXUS deep research agent: the research orchestration of [src/app/page.tsx]

    A shallow embedding of the client component's research engine:
    the confidence scorer [computeConfidence], the memory block builder
    [buildMemorySection], the depth-tier table, the prompt construction of
    the pass loop, and [startResearch] itself with its cancellation and
    failure paths.

    Conventions of the embedding.
    - A JavaScript string is the list of its UTF-16 code units ([list N]);
      [substring(0, k)] is [firstn k], [+] and template literals are [++].
    - JavaScript numbers that the engine computes with are integers and
      halves, plus one quotient by 120; they are modelled exactly, as [Z]
      and [Q].  (The only inexact double operation of [computeConfidence] is
      the quotient [length / 120]; its exact value is either a multiple of
      1/2, and then the double computation is exact, or at least 1/120 away
      from every rounding boundary, far more than the accumulated error.)
    - Everything the engine does not control (the generation service, the
      clock, the locale, the user pressing Stop, the persistence service) is
      a field of an explicit [world]. *)

From Stdlib Require Import ZArith NArith QArith Qround Qminmax.
From Stdlib Require Import List String Ascii Lia Lqa DecimalString.
From stdpp Require Import base list gmap.

Import ListNotations.

(** ** JavaScript strings *)

Module Js.

(** A string is the sequence of its UTF-16 code units. *)
Abbreviation jsstring := (list N).

(** An ASCII literal of the source, as code units. *)
Definition lit (s : string) : jsstring :=
  map N_of_ascii (list_ascii_of_string s).

(** Code units that the source's literals use outside ASCII. *)
Definition nl : jsstring := [10%N].                 (* "\n" *)
Definition space : N := 32%N.                       (* " " *)
Definition middot : jsstring := [183%N].            (* U+00B7 *)
Definition emdash : jsstring := [8212%N].           (* U+2014 *)
Definition arrow : jsstring := [8594%N].            (* U+2192 *)
Definition bar : jsstring := [9473%N].              (* U+2501 *)

(** [`${n}`] for a non-negative integer. *)
Definition show_nat (n : nat) : jsstring :=
  lit (NilEmpty.string_of_uint (Nat.to_uint n)).

Definition show_N (n : N) : jsstring :=
  lit (NilEmpty.string_of_uint (N.to_uint n)).

(** [String.prototype.substring(0, k)]: the first [k] code units, the whole
    string when it is shorter. *)
Definition substring0 (k : nat) (s : jsstring) : jsstring := firstn k s.

(** [Array.prototype.join]. *)
Fixpoint join (sep : jsstring) (parts : list jsstring) : jsstring :=
  match parts with
  | [] => []
  | [p] => p
  | p :: rest => p ++ sep ++ join sep rest
  end.

(** [Array.prototype.map] with the index argument, counting from [i]. *)
Fixpoint mapi_from {A B} (i : nat) (f : A -> nat -> B) (l : list A) : list B :=
  match l with
  | [] => []
  | x :: l' => f x i :: mapi_from (S i) f l'
  end.

Definition mapi {A B} (f : A -> nat -> B) (l : list A) : list B :=
  mapi_from 0 f l.

(** [needle] is a prefix of [s]. *)
Fixpoint starts_with (needle s : jsstring) : bool :=
  match needle, s with
  | [], _ => true
  | _ :: _, [] => false
  | a :: needle', b :: s' => N.eqb a b && starts_with needle' s'
  end.

(** [String.prototype.includes]. *)
Fixpoint includes (needle s : jsstring) : bool :=
  starts_with needle s ||
  match s with
  | [] => false
  | _ :: s' => includes needle s'
  end.

(** [String.prototype.split] with a one-unit separator: the pieces between
    separators; a string without separator (the empty one too) is one
    piece. *)
Fixpoint split (sep : N) (s : jsstring) : list jsstring :=
  match s with
  | [] => [[]]
  | c :: s' =>
      if N.eqb c sep then [] :: split sep s'
      else match split sep s' with
           | p :: ps => (c :: p) :: ps
           | [] => [[c]]
           end
  end.

(** White space and line terminators, as [String.prototype.trim] strips
    them. *)
Definition is_white (c : N) : bool :=
  existsb (N.eqb c)
    [9; 10; 11; 12; 13; 32; 160; 5760; 8232; 8233; 8239; 8287; 12288; 65279]%N
  || (N.leb 8192 c && N.leb c 8202).

Fixpoint trim_start (s : jsstring) : jsstring :=
  match s with
  | c :: s' => if is_white c then trim_start s' else s
  | [] => []
  end.

(** [String.prototype.trim]. *)
Definition trim (s : jsstring) : jsstring :=
  rev (trim_start (rev (trim_start s))).

(** Truthiness of a string: non-empty. *)
Definition truthy (s : jsstring) : bool :=
  match s with [] => false | _ :: _ => true end.

(** *** Case-insensitive global matching

    [Canonicalize] of a regular expression with the [i] flag and without
    the [u] flag maps a code unit to its upper case, and never maps a unit
    above 127 to an ASCII one.  The patterns of this program hold ASCII
    letters and spaces only, so comparing with ASCII folding decides the
    same matches. *)
Definition canonicalize (c : N) : N :=
  if N.leb 97 c && N.leb c 122 then (c - 32)%N else c.

(** The pattern [p] matches, ignoring case, at the start of [s]. *)
Fixpoint ci_prefix (p s : jsstring) : bool :=
  match p, s with
  | [], _ => true
  | _ :: _, [] => false
  | a :: p', b :: s' =>
      N.eqb (canonicalize a) (canonicalize b) && ci_prefix p' s'
  end.

(** One attempt of the alternation [p1|p2|...] at the start of [s]: the
    first alternative that matches wins; the match is the text it covers. *)
Definition match_here (alts : list jsstring) (s : jsstring) : option jsstring :=
  match List.find (fun p => ci_prefix p s) alts with
  | Some p => Some (firstn (length p) s)
  | None => None
  end.

(** [s.match(/p1|p2|.../gi)]: scan from the left; after a match the search
    resumes behind it ([skip] counts the units of the last match still to
    pass). The alternatives are non-empty, so nothing matches at the end of
    the input. A result of [null] (no match) is the empty list. *)
Fixpoint match_all (alts : list jsstring) (skip : nat) (s : jsstring)
  : list jsstring :=
  match s with
  | [] => []
  | _ :: s' =>
      match skip with
      | S k => match_all alts k s'
      | O =>
          match match_here alts s with
          | Some m => m :: match_all alts (length m - 1) s'
          | None => match_all alts 0 s'
          end
      end
  end.

End Js.

Import Js.

(** ** The confidence scorer *)

Module Confidence.

Local Open Scope Q_scope.

(** The alternatives of
    [/according to|research shows|evidence suggests|data shows/gi]. *)
Definition evidence_phrases : list jsstring :=
  [ lit "according to"; lit "research shows";
    lit "evidence suggests"; lit "data shows" ].

(** [Math.round]: the nearest integer, a half rounding up. *)
Definition js_round (x : Q) : Z := Qfloor (x + (1 # 2)).

(** [computeConfidence(answer, numPasses, docChunks, hasMem)], statement by
    statement. *)
Definition computeConfidence
    (answer : jsstring) (numPasses docChunks : Z) (hasMem : bool) : Z :=
  let s := 45 in
  let s := s + Qmin 15 (inject_Z (Z.of_nat (length (split space answer))) / 120) in
  let s := s + Qmin 18 (inject_Z numPasses * 3.5) in
  let s := s + Qmin 12 (inject_Z docChunks * 2) in
  let s := if hasMem then s + 5 else s in
  let ev := length (match_all evidence_phrases 0 answer) in
  let s := s + Qmin 10 (inject_Z (Z.of_nat ev) * 1.5) in
  let s := if includes (lit "##") answer || includes (lit "|") answer
           then s + 4 else s in
  Z.min 97 (Z.max 22 (js_round s)).

End Confidence.

Import Confidence.

(** ** Data of the component *)

(** [interface ResearchResult]. *)
Record ResearchResult := {
  rr_id : jsstring;
  rr_query : jsstring;
  rr_answer : jsstring;
  rr_confidence : Z;
  rr_provider : jsstring;
  rr_model : jsstring;
  rr_depth : jsstring;
  rr_timestamp : N
}.

(** [interface MemoryContext]. *)
Record MemoryContext := {
  mc_id : jsstring;
  mc_query : jsstring;
  mc_answer : jsstring;
  mc_provider : jsstring;
  mc_model : jsstring;
  mc_created_at : option jsstring;
  mc_timestamp : option nat
}.

(** One entry of the [thoughts] log. Its [time] field is a rendering of the
    clock and is left out. *)
Record thought := {
  th_type : jsstring;
  th_detail : jsstring
}.

(** The keys of [PROVIDERS]; the provider selector offers exactly these. *)
Inductive provider_key := anthropic | openai | gemini | nvidia.

Definition provider_key_text (p : provider_key) : jsstring :=
  match p with
  | anthropic => lit "anthropic"
  | openai => lit "openai"
  | gemini => lit "gemini"
  | nvidia => lit "nvidia"
  end.

(** [PROVIDERS[provider].name]. *)
Definition provider_name (p : provider_key) : jsstring :=
  match p with
  | anthropic => lit "Anthropic"
  | openai => lit "OpenAI"
  | gemini => lit "Google Gemini"
  | nvidia => lit "NVIDIA NIM"
  end.

Definition PASS_LABELS : list jsstring :=
  [ lit "INITIAL ANALYSIS"; lit "DEEP INVESTIGATION";
    lit "CRITICAL EVALUATION"; lit "CROSS-VALIDATION";
    lit "EXPERT SYNTHESIS"; lit "ADVERSARIAL REVIEW";
    lit "DOMAIN EXPANSION"; lit "FINAL REFINEMENT" ].

(** [PASS_LABELS[Math.min(i, PASS_LABELS.length - 1)]]. *)
Definition passLabel (i : nat) : jsstring :=
  nth (Nat.min i (length PASS_LABELS - 1)) PASS_LABELS [].

(** ** The depth table

    [{ quick: 1, standard: 3, deep: 5, exhaustive: 8 }[depth] || 3] reads a
    property of an object literal by an arbitrary string.  The literal has
    four own properties; every other key is looked up on [Object.prototype],
    whose members are functions (and the [__proto__] accessor, which yields
    the prototype object): all of them truthy, none of them a number. *)

Inductive inherited :=
  | InhFunction (fname : jsstring)
  | InhPrototype.

Inductive jsvalue :=
  | VNum (n : nat)
  | VInherited (what : inherited).

(** The own properties of the literal. *)
Definition depth_table : gmap jsstring nat :=
  list_to_map
    [ (lit "quick", 1); (lit "standard", 3);
      (lit "deep", 5); (lit "exhaustive", 8) ].

(** The properties of [Object.prototype]. *)
Definition object_prototype : list (jsstring * inherited) :=
  [ (lit "constructor", InhFunction (lit "Object"));
    (lit "__defineGetter__", InhFunction (lit "__defineGetter__"));
    (lit "__defineSetter__", InhFunction (lit "__defineSetter__"));
    (lit "hasOwnProperty", InhFunction (lit "hasOwnProperty"));
    (lit "__lookupGetter__", InhFunction (lit "__lookupGetter__"));
    (lit "__lookupSetter__", InhFunction (lit "__lookupSetter__"));
    (lit "isPrototypeOf", InhFunction (lit "isPrototypeOf"));
    (lit "propertyIsEnumerable", InhFunction (lit "propertyIsEnumerable"));
    (lit "toString", InhFunction (lit "toString"));
    (lit "valueOf", InhFunction (lit "valueOf"));
    (lit "__proto__", InhPrototype);
    (lit "toLocaleString", InhFunction (lit "toLocaleString")) ].

Fixpoint assoc {A} (key : jsstring) (l : list (jsstring * A)) : option A :=
  match l with
  | [] => None
  | (k, v) :: l' => if bool_decide (k = key) then Some v else assoc key l'
  end.

(** [obj[key]]: an own property first, then the prototype; [None] is
    [undefined]. *)
Definition get_property (own : gmap jsstring nat) (key : jsstring)
  : option jsvalue :=
  match own !! key with
  | Some n => Some (VNum n)
  | None =>
      match assoc key object_prototype with
      | Some h => Some (VInherited h)
      | None => None
      end
  end.

Definition value_truthy (v : jsvalue) : bool :=
  match v with
  | VNum n => negb (Nat.eqb n 0)
  | VInherited _ => true
  end.

(** [const numPasses = {...}[depth] || 3]. *)
Definition resolveNumPasses (depth : jsstring) : jsvalue :=
  match get_property depth_table depth with
  | Some v => if value_truthy v then v else VNum 3
  | None => VNum 3
  end.

(** [`${numPasses}`]. *)
Definition show_value (v : jsvalue) : jsstring :=
  match v with
  | VNum n => show_nat n
  | VInherited (InhFunction f) =>
      lit "function " ++ f ++ lit "() { [native code] }"
  | VInherited InhPrototype => lit "[object Object]"
  end.

(** How often the guard [i < numPasses] of the pass loop lets the body run:
    compared with a function or an object, [i] is compared with NaN. *)
Definition iterations (v : jsvalue) : nat :=
  match v with
  | VNum n => n
  | VInherited _ => 0
  end.

(** [numPasses > 1]. *)
Definition more_than_one (v : jsvalue) : bool :=
  match v with
  | VNum n => Nat.ltb 1 n
  | VInherited _ => false
  end.

(** [numPasses] as an operand of the progress quotient (only evaluated
    inside the loop, where it is a number). *)
Definition value_Q (v : jsvalue) : Q :=
  match v with
  | VNum n => inject_Z (Z.of_nat n)
  | VInherited _ => 0
  end.

(** ** State of the component *)

(** What a run only reads. *)
Record settings := {
  provider : provider_key;
  model : jsstring;
  depth : jsstring;
  maxTokens : Z;
  temperature : Q;
  memoryEnabled : bool;
  activeContextIds : gset jsstring
}.

(** The [useState] cells and the [abortRef] that a run writes.
    [abortRef = None] is [abortRef.current === null]; [Some b] is a
    controller whose [signal.aborted] is [b]. *)
Record component := {
  cfg : settings;
  query : jsstring;
  isResearching : bool;
  currentPhase : jsstring;
  progress : Q;
  results : list ResearchResult;
  history : list ResearchResult;
  memoryContexts : list MemoryContext;
  thoughts : list thought;
  activeResultTab : gmap jsstring jsstring;
  abortRef : option bool
}.

Definition setQuery (v : jsstring) (c : component) : component :=
  {| cfg := cfg c; query := v; isResearching := isResearching c;
     currentPhase := currentPhase c; progress := progress c;
     results := results c; history := history c;
     memoryContexts := memoryContexts c; thoughts := thoughts c;
     activeResultTab := activeResultTab c; abortRef := abortRef c |}.

Definition setIsResearching (v : bool) (c : component) : component :=
  {| cfg := cfg c; query := query c; isResearching := v;
     currentPhase := currentPhase c; progress := progress c;
     results := results c; history := history c;
     memoryContexts := memoryContexts c; thoughts := thoughts c;
     activeResultTab := activeResultTab c; abortRef := abortRef c |}.

Definition setCurrentPhase (v : jsstring) (c : component) : component :=
  {| cfg := cfg c; query := query c; isResearching := isResearching c;
     currentPhase := v; progress := progress c;
     results := results c; history := history c;
     memoryContexts := memoryContexts c; thoughts := thoughts c;
     activeResultTab := activeResultTab c; abortRef := abortRef c |}.

Definition setProgress (v : Q) (c : component) : component :=
  {| cfg := cfg c; query := query c; isResearching := isResearching c;
     currentPhase := currentPhase c; progress := v;
     results := results c; history := history c;
     memoryContexts := memoryContexts c; thoughts := thoughts c;
     activeResultTab := activeResultTab c; abortRef := abortRef c |}.

Definition setResults (f : list ResearchResult -> list ResearchResult)
    (c : component) : component :=
  {| cfg := cfg c; query := query c; isResearching := isResearching c;
     currentPhase := currentPhase c; progress := progress c;
     results := f (results c); history := history c;
     memoryContexts := memoryContexts c; thoughts := thoughts c;
     activeResultTab := activeResultTab c; abortRef := abortRef c |}.

Definition setHistory (v : list ResearchResult) (c : component) : component :=
  {| cfg := cfg c; query := query c; isResearching := isResearching c;
     currentPhase := currentPhase c; progress := progress c;
     results := results c; history := v;
     memoryContexts := memoryContexts c; thoughts := thoughts c;
     activeResultTab := activeResultTab c; abortRef := abortRef c |}.

Definition setMemoryContexts (v : list MemoryContext) (c : component)
  : component :=
  {| cfg := cfg c; query := query c; isResearching := isResearching c;
     currentPhase := currentPhase c; progress := progress c;
     results := results c; history := history c;
     memoryContexts := v; thoughts := thoughts c;
     activeResultTab := activeResultTab c; abortRef := abortRef c |}.

Definition setThoughts (f : list thought -> list thought) (c : component)
  : component :=
  {| cfg := cfg c; query := query c; isResearching := isResearching c;
     currentPhase := currentPhase c; progress := progress c;
     results := results c; history := history c;
     memoryContexts := memoryContexts c; thoughts := f (thoughts c);
     activeResultTab := activeResultTab c; abortRef := abortRef c |}.

Definition setActiveResultTab
    (f : gmap jsstring jsstring -> gmap jsstring jsstring) (c : component)
  : component :=
  {| cfg := cfg c; query := query c; isResearching := isResearching c;
     currentPhase := currentPhase c; progress := progress c;
     results := results c; history := history c;
     memoryContexts := memoryContexts c; thoughts := thoughts c;
     activeResultTab := f (activeResultTab c); abortRef := abortRef c |}.

Definition setAbortRef (v : option bool) (c : component) : component :=
  {| cfg := cfg c; query := query c; isResearching := isResearching c;
     currentPhase := currentPhase c; progress := progress c;
     results := results c; history := history c;
     memoryContexts := memoryContexts c; thoughts := thoughts c;
     activeResultTab := activeResultTab c; abortRef := v |}.

(** [abortRef.current.signal.aborted]. *)
Definition signal_aborted (c : component) : bool :=
  match abortRef c with
  | Some b => b
  | None => false
  end.

(** [addThought(type, detail, t0)]. *)
Definition addThought (type detail : jsstring) (c : component) : component :=
  setThoughts (fun prev => prev ++ [ {| th_type := type; th_detail := detail |} ]) c.

(** [stopResearch()]: [abortRef.current?.abort()], then the three setters. *)
Definition stopResearch (c : component) : component :=
  let c := match abortRef c with
           | Some _ => setAbortRef (Some true) c
           | None => c
           end in
  setProgress 0 (setCurrentPhase [] (setIsResearching false c)).

(** ** The memory block *)

Definition bar3 : jsstring := bar ++ bar ++ bar.

(** One entry of the block:
    [`[Context ${i + 1}]\nPrevious Query: ${c.query}\nPrevious Answer: ${c.answer.substring(0, 600)}...`]. *)
Definition memory_entry (c : MemoryContext) (i : nat) : jsstring :=
  lit "[Context " ++ show_nat (i + 1) ++ lit "]" ++ nl ++
  lit "Previous Query: " ++ mc_query c ++ nl ++
  lit "Previous Answer: " ++ substring0 600 (mc_answer c) ++ lit "...".

Definition memory_header : jsstring :=
  nl ++ nl ++ bar3 ++ lit " PRIOR RESEARCH CONTEXTS " ++ bar3 ++ nl.

Definition memory_footer : jsstring :=
  nl ++ bar3 ++ lit " END CONTEXTS " ++ bar3 ++ nl ++ nl ++
  lit "Use the above prior research to inform your current analysis.".

(** The contexts that [buildMemorySection] selects:
    [memoryContexts.filter(c => activeContextIds.has(c.id))]. *)
Definition selected (ids : gset jsstring) (ctxs : list MemoryContext)
  : list MemoryContext :=
  List.filter (fun c => bool_decide (mc_id c ∈ ids)) ctxs.

(** [buildMemorySection()], over the two state cells it reads. *)
Definition buildMemorySection (ids : gset jsstring) (ctxs : list MemoryContext)
  : jsstring :=
  if Nat.eqb (size ids) 0 then []
  else
    let sel := selected ids ctxs in
    if Nat.eqb (length sel) 0 then []
    else memory_header ++ join (nl ++ nl) (mapi memory_entry sel) ++ memory_footer.

(** ** Prompts *)

(** The system prompt of pass [i] (0-based). *)
Definition pass_system (i : nat) (numPasses : jsvalue) : jsstring :=
  lit "You are NEXUS, a world-class deep research AI. Pass " ++
  show_nat (i + 1) ++ lit "/" ++ show_value numPasses ++ lit " " ++ emdash ++
  lit " " ++ passLabel i ++
  lit ". Produce rigorous, structured analysis using markdown. Use headers, tables, and code blocks where appropriate.".

(** [`[Pass ${j + 1}]: ${r.substring(0, 500)}...`]. *)
Definition pass_excerpt (r : jsstring) (j : nat) : jsstring :=
  lit "[Pass " ++ show_nat (j + 1) ++ lit "]: " ++ substring0 500 r ++ lit "...".

(** [prevCtx]: empty when no pass has completed yet. *)
Definition prevCtx (passResults : list jsstring) : jsstring :=
  if Nat.eqb (length passResults) 0 then []
  else nl ++ nl ++ lit "PREVIOUS PASSES:" ++ nl ++
       join (nl ++ nl) (mapi pass_excerpt passResults).

(** The user prompt of pass [i]. *)
Definition pass_user (i : nat) (query memSection : jsstring)
    (passResults : list jsstring) : jsstring :=
  lit "RESEARCH QUERY: " ++ query ++ memSection ++ prevCtx passResults ++
  nl ++ nl ++ lit "Execute " ++ passLabel i ++ lit ". Be thorough and precise.".

Definition synthesis_system (passResults : list jsstring) : jsstring :=
  lit "You are NEXUS SYNTHESIS ENGINE. Produce a definitive research report from " ++
  show_nat (length passResults) ++
  lit " analysis passes. Structure: Executive Summary " ++ arrow ++
  lit " Detailed Analysis " ++ arrow ++ lit " Key Findings " ++ arrow ++
  lit " Limitations " ++ arrow ++ lit " Conclusions. Use rich markdown.".

Definition synthesis_user (query memSection : jsstring)
    (passResults : list jsstring) : jsstring :=
  lit "QUERY: " ++ query ++ memSection ++ nl ++ nl ++
  join (nl ++ nl)
    (mapi (fun r i => bar ++ bar ++ lit " PASS " ++ show_nat (i + 1) ++
                      lit " " ++ bar ++ bar ++ nl ++ r) passResults) ++
  nl ++ nl ++ lit "Synthesize into the definitive final answer.".

(** ** The world of a run *)

(** A thrown value: [err.name] and [err.message]. *)
Record js_error := {
  err_name : jsstring;
  err_message : jsstring
}.

Definition AbortError : jsstring := lit "AbortError".

Inductive settlement :=
  | Returned (text : jsstring)
  | Threw (e : js_error).

(** How one awaited generation call ends: how its promise settles (with
    the text, a string as the signature of [callResearchAPI] says, or with
    a thrown error), and whether the user pressed Stop while it was
    pending.  The two are independent here.  The engine itself provides
    for a call that returns although Stop was pressed: it polls the signal
    after every call (lines 254, 274 and 289).  That [fetch] rejects an
    interrupted call with an [AbortError] is a property of [fetch]; it is
    a hypothesis of the statements that need it. *)
Record outcome := {
  settled : settlement;
  stop_pressed : bool
}.

Record world := {
  (** the [k]-th generation call of the run, counted from 0 *)
  generate : nat -> outcome;
  (** [Number.prototype.toLocaleString] *)
  localeString : nat -> jsstring;
  (** [((Date.now() - t0) / 1000).toFixed(1)] when the run completes *)
  elapsed : jsstring;
  (** [Date.now()] for the result's [id] and for its [timestamp] *)
  clock_id : N;
  clock_timestamp : N;
  (** Stop pressed while the result is being persisted *)
  stop_while_saving : bool;
  (** what [apiLoadMemory] and [apiLoadHistory] deliver afterwards *)
  loadedMemory : list MemoryContext;
  loadedHistory : list ResearchResult
}.

(** The call site of a generation call, and its arguments. *)
Inductive call_site :=
  | PassCall (i : nat)
  | SynthesisCall.

Record gen_call := {
  site : call_site;
  gc_provider : jsstring;
  gc_model : jsstring;
  systemPrompt : jsstring;
  userPrompt : jsstring;
  gc_maxTokens : Z;
  gc_temperature : Q
}.

(** ** The run as a state-and-exception computation *)

Record machine := {
  ui : component;
  issued : list gen_call
}.

Inductive completion (A : Type) :=
  | Normal (a : A)
  | Thrown (e : js_error).
Arguments Normal {A} a.
Arguments Thrown {A} e.

Definition M (A : Type) : Type := machine -> completion A * machine.

#[global] Instance M_ret : MRet M := fun A a m => (Normal a, m).

#[global] Instance M_bind : MBind M := fun A B k c m =>
  match c m with
  | (Normal a, m') => k a m'
  | (Thrown e, m') => (Thrown e, m')
  end.

(** A state update of the component. *)
Definition update (f : component -> component) : M unit :=
  fun m => (Normal tt, {| ui := f (ui m); issued := issued m |}).

(** Reading the component. *)
Definition read {A} (f : component -> A) : M A :=
  fun m => (Normal (f (ui m)), m).

(** [await callResearchAPI(provider, model, sys, usr, maxTokens, temperature,
    abortRef.current.signal)], with the settings [s] of the closure: the
    call is issued; while it is pending the user may press Stop
    ([stopResearch] runs); then the promise settles. *)
Definition callResearchAPI (w : world) (s : settings) (at_ : call_site)
    (sys usr : jsstring) : M jsstring :=
  fun m =>
    let o := generate w (length (issued m)) in
    let call := {| site := at_;
                   gc_provider := provider_key_text (provider s);
                   gc_model := model s;
                   systemPrompt := sys; userPrompt := usr;
                   gc_maxTokens := maxTokens s;
                   gc_temperature := temperature s |} in
    let c' := if stop_pressed o then stopResearch (ui m) else ui m in
    let m' := {| ui := c'; issued := issued m ++ [call] |} in
    match settled o with
    | Returned text => (Normal text, m')
    | Threw e => (Thrown e, m')
    end.

Section Run.

(** The world, and the values that one invocation of [startResearch]
    holds in its closure: the component as rendered ([c0]), and the three
    constants computed before [try]. *)
Variable w : world.
Variable c0 : component.
Variable numPasses : jsvalue.
Variable memSection : jsstring.
Variable hasMem : bool.

(** The [for] loop from index [i] on, with [todo] iterations left before
    its guard [i < numPasses] fails; [passResults] is the array so far. *)
Fixpoint pass_loop (todo i : nat) (passResults : list jsstring)
  : M (list jsstring) :=
  match todo with
  | O => mret passResults
  | S todo' =>
      aborted ← read signal_aborted;
      if (aborted : bool) then mret passResults
      else
        update (setCurrentPhase
                  (lit "Pass " ++ show_nat (i + 1) ++ lit "/" ++
                   show_value numPasses ++ lit ": " ++ passLabel i));;
        update (addThought (passLabel i)
                  (lit "Executing research pass " ++ show_nat (i + 1) ++
                   lit " of " ++ show_value numPasses ++ lit "..."));;
        update (setProgress
                  (16 + (inject_Z (Z.of_nat i) / value_Q numPasses) * 60)%Q);;
        response ← callResearchAPI w (cfg c0) (PassCall i)
                     (pass_system i numPasses)
                     (pass_user i (query c0) memSection passResults);
        update (addThought
                  (lit "PASS " ++ show_nat (i + 1) ++ lit " COMPLETE")
                  (localeString w (length (split space response)) ++
                   lit " words generated"));;
        pass_loop todo' (S i) (passResults ++ [response])
  end.

(** Lines 274-287: synthesis, or the last pass output. *)
Definition final_answer (passResults : list jsstring) : M jsstring :=
  aborted ← read signal_aborted;
  if negb aborted && more_than_one numPasses
     && Nat.ltb 1 (length passResults)
  then
    update (setCurrentPhase (lit "Synthesizing..."));;
    update (setProgress 85%Q);;
    update (addThought (lit "SYNTHESIS")
              (lit "Synthesizing " ++ show_nat (length passResults) ++
               lit " passes into final response..."));;
    callResearchAPI w (cfg c0) SynthesisCall
      (synthesis_system passResults)
      (synthesis_user (query c0) memSection passResults)
  else mret (List.last passResults []).

(** The result item built at lines 295-304. *)
Definition result_item (finalAnswer : jsstring) (confidence : Z)
  : ResearchResult :=
  {| rr_id := show_N (clock_id w);
     rr_query := query c0;
     rr_answer := finalAnswer;
     rr_confidence := confidence;
     rr_provider := provider_key_text (provider (cfg c0));
     rr_model := model (cfg c0);
     rr_depth := depth (cfg c0);
     rr_timestamp := clock_timestamp w |}.

(** Lines 289-323: scoring, the result, and its persistence. The
    persistence calls swallow their own failures ([.catch]); while they
    are awaited the user may still press Stop. *)
Definition deliver (passResults : list jsstring) (finalAnswer : jsstring)
  : M unit :=
  aborted ← read signal_aborted;
  if negb aborted && truthy finalAnswer then
    update (setProgress 95%Q);;
    let confidence :=
      computeConfidence finalAnswer (Z.of_nat (length passResults)) 0 hasMem in
    update (addThought (lit "COMPLETE")
              (lit "Done in " ++ elapsed w ++ lit "s " ++ middot ++
               lit " Confidence: " ++ show_nat (Z.to_nat confidence) ++
               lit "%"));;
    let resultItem := result_item finalAnswer confidence in
    update (setResults (fun prev => resultItem :: prev));;
    update (setActiveResultTab
              (fun prev => <[ rr_id resultItem := lit "answer" ]> prev));;
    (if stop_while_saving w then update stopResearch else mret tt);;
    (if memoryEnabled (cfg c0)
     then update (setMemoryContexts (loadedMemory w)) else mret tt);;
    update (setHistory (loadedHistory w));;
    update (setProgress 100%Q);;
    update (setCurrentPhase []);;
    update (setQuery [])
  else mret tt.

(** The [try] block. *)
Definition research_try : M unit :=
  update (addThought (lit "INITIALIZE")
            (lit "Provider: " ++ provider_name (provider (cfg c0)) ++
             lit " " ++ middot ++ lit " Model: " ++ model (cfg c0) ++
             lit " " ++ middot ++ lit " Passes: " ++ show_value numPasses));;
  update (setProgress 8%Q);;
  (if hasMem
   then update (addThought (lit "MEMORY RETRIEVAL")
                  (lit "Injecting " ++
                   show_nat (size (activeContextIds (cfg c0))) ++
                   lit " prior context(s) for cross-session continuity"))
   else mret tt);;
  passResults ← pass_loop (iterations numPasses) 0 [];
  finalAnswer ← final_answer passResults;
  deliver passResults finalAnswer.

End Run.

(** The state changes of one pass, by name: what the loop does to the
    component before the call of pass [i] is awaited, what a press on Stop
    during call [k] does, and what the loop does after the call returned
    [response]. *)
Definition announce (numPasses : jsvalue) (i : nat) (c : component)
  : component :=
  setProgress (16 + (inject_Z (Z.of_nat i) / value_Q numPasses) * 60)%Q
    (addThought (passLabel i)
       (lit "Executing research pass " ++ show_nat (i + 1) ++
        lit " of " ++ show_value numPasses ++ lit "...")
       (setCurrentPhase
          (lit "Pass " ++ show_nat (i + 1) ++ lit "/" ++
           show_value numPasses ++ lit ": " ++ passLabel i) c)).

Definition pressed (w : world) (k : nat) (c : component) : component :=
  if stop_pressed (generate w k) then stopResearch c else c.

Definition conclude (w : world) (i : nat) (response : jsstring)
    (c : component) : component :=
  addThought (lit "PASS " ++ show_nat (i + 1) ++ lit " COMPLETE")
    (localeString w (length (split space response)) ++ lit " words generated")
    c.

(** Likewise the state changes before the loop (lines 246-251), before the
    synthesis call is awaited (lines 275-277), and at the entry of
    [startResearch] (lines 233-236). *)
Definition prelude (c0 : component) (numPasses : jsvalue) (hasMem : bool)
    (c : component) : component :=
  let c :=
    setProgress 8%Q
      (addThought (lit "INITIALIZE")
         (lit "Provider: " ++ provider_name (provider (cfg c0)) ++
          lit " " ++ middot ++ lit " Model: " ++ model (cfg c0) ++
          lit " " ++ middot ++ lit " Passes: " ++ show_value numPasses) c) in
  if hasMem
  then addThought (lit "MEMORY RETRIEVAL")
         (lit "Injecting " ++ show_nat (size (activeContextIds (cfg c0))) ++
          lit " prior context(s) for cross-session continuity") c
  else c.

Definition announce_synthesis (passResults : list jsstring) (c : component)
  : component :=
  addThought (lit "SYNTHESIS")
    (lit "Synthesizing " ++ show_nat (length passResults) ++
     lit " passes into final response...")
    (setProgress 85%Q (setCurrentPhase (lit "Synthesizing...") c)).

Definition entered (c : component) : component :=
  setAbortRef (Some false)
    (setProgress 0%Q (setThoughts (fun _ => []) (setIsResearching true c))).

(** The [catch] block: every error but an [AbortError] is logged. *)
Definition research_catch (err : js_error) (c : component) : component :=
  if bool_decide (err_name err = AbortError) then c
  else addThought (lit "ERROR") (err_message err) c.

(** The [finally] block. *)
Definition research_finally (c : component) : component :=
  setCurrentPhase [] (setIsResearching false c).

(** [startResearch()], run to its end in world [w] from the rendered
    component [c]: the component it leaves, and the generation calls it
    issued, in order. *)
Definition startResearch (w : world) (c : component)
  : component * list gen_call :=
  if negb (truthy (trim (query c))) || isResearching c then (c, [])
  else
    let c1 := setIsResearching true c in
    let c1 := setThoughts (fun _ => []) c1 in
    let c1 := setProgress 0%Q c1 in
    let c1 := setAbortRef (Some false) c1 in
    let numPasses := resolveNumPasses (depth (cfg c)) in
    let memSection :=
      buildMemorySection (activeContextIds (cfg c)) (memoryContexts c) in
    let hasMem := Nat.ltb 0 (size (activeContextIds (cfg c))) in
    let '(r, m) :=
      research_try w c numPasses memSection hasMem
        {| ui := c1; issued := [] |} in
    let c2 := match r with
              | Normal _ => ui m
              | Thrown err => research_catch err (ui m)
              end in
    (research_finally c2, issued m).

(** ** What a run leaves behind, for the statements below *)

(** The texts that the first [i] generation calls of a world return (the
    empty text stands for a call that throws). *)
Definition returned_text (w : world) (k : nat) : jsstring :=
  match settled (generate w k) with
  | Returned text => text
  | Threw _ => []
  end.

Definition returned_texts (w : world) (i : nat) : list jsstring :=
  map (returned_text w) (seq 0 i).

(** The generation call that pass [j] issues in world [w], when the passes
    before it have returned. *)
Definition pass_call (w : world) (c0 : component) (numPasses : jsvalue)
    (memSection : jsstring) (j : nat) : gen_call :=
  {| site := PassCall j;
     gc_provider := provider_key_text (provider (cfg c0));
     gc_model := model (cfg c0);
     systemPrompt := pass_system j numPasses;
     userPrompt := pass_user j (query c0) memSection (returned_texts w j);
     gc_maxTokens := maxTokens (cfg c0);
     gc_temperature := temperature (cfg c0) |}.

(** The synthesis call over the pass outputs [passResults]. *)
Definition synthesis_call (c0 : component) (memSection : jsstring)
    (passResults : list jsstring) : gen_call :=
  {| site := SynthesisCall;
     gc_provider := provider_key_text (provider (cfg c0));
     gc_model := model (cfg c0);
     systemPrompt := synthesis_system passResults;
     userPrompt := synthesis_user (query c0) memSection passResults;
     gc_maxTokens := maxTokens (cfg c0);
     gc_temperature := temperature (cfg c0) |}.

Definition ERROR : jsstring := lit "ERROR".

(** The details of the ERROR events of a log, in order. *)
Definition error_events (log : list thought) : list jsstring :=
  map th_detail (List.filter (fun t => bool_decide (th_type t = ERROR)) log).

(** The generation call [k] of the world returns, and Stop is not pressed
    while it is pending. *)
Definition completes (w : world) (k : nat) : Prop :=
  stop_pressed (generate w k) = false /\
  exists text, settled (generate w k) = Returned text.

(** The guard of [startResearch] lets the run begin. *)
Definition begins (c : component) : Prop :=
  trim (query c) <> [] /\ isResearching c = false.

(** [s] contains the texts [parts], one after the other and without
    overlap, in this order. *)
Fixpoint in_order (parts : list jsstring) (s : jsstring) : Prop :=
  match parts with
  | [] => True
  | p :: ps => exists pre post, s = pre ++ p ++ post /\ in_order ps post
  end.

(** ** The scorer as the specification words it

    Nothing below is taken from the code: the words of the specification
    are spelled out on their own, with their own case folding, their own
    containment test and their own rounding, to be compared with
    [computeConfidence]. *)

Module Spec.

Local Open Scope Q_scope.

(** White space between words: tab, line feed, vertical tab, form feed,
    carriage return and space. *)
Definition blank (c : N) : bool :=
  existsb (N.eqb c) [9; 10; 11; 12; 13; 32]%N.

(** The words of a text are its maximal runs of units that are not white
    space; [inside] tells whether the unit before was part of a word. *)
Fixpoint words_from (inside : bool) (a : jsstring) : nat :=
  match a with
  | [] => 0%nat
  | c :: a' =>
      if blank c then words_from false a'
      else ((if inside then 0 else 1) + words_from true a')%nat
  end.

(** [wordCount(a)], as the word is commonly read. *)
Definition wordCount (a : jsstring) : nat := words_from false a.

(** The pieces that the single space characters of a text delimit: one
    more than it has space characters. *)
Definition pieces (a : jsstring) : nat :=
  S (length (List.filter (N.eqb 32) a)).

(** Case is ignored by reading a capital letter [A]..[Z] as its small
    letter. *)
Definition fold_case (c : N) : N :=
  if N.leb 65 c && N.leb c 90 then (c + 32)%N else c.

(** [p] stands at the start of [s], ignoring case: the first units of
    [s], as many as [p] has, are those of [p] up to the case of the
    letters. *)
Definition stands (p s : jsstring) : bool :=
  bool_decide (map fold_case (firstn (length p) s) = map fold_case p).

(** The number of places of [s] at which [p] stands, ignoring case. *)
Fixpoint occurrences (p s : jsstring) : nat :=
  ((if stands p s then 1 else 0) +
   match s with
   | [] => 0
   | _ :: s' => occurrences p s'
   end)%nat.

(** The four evidentiary phrases. *)
Definition phrases : list jsstring :=
  [ lit "according to"; lit "research shows";
    lit "evidence suggests"; lit "data shows" ].

(** The case-insensitive occurrences of the four evidentiary phrases. *)
Definition evidence_count (a : jsstring) : nat :=
  list_sum (map (fun p => occurrences p a) phrases).

(** [s] contains [needle] as a contiguous part. *)
Fixpoint contains (needle s : jsstring) : bool :=
  bool_decide (firstn (length needle) s = needle) ||
  match s with
  | [] => false
  | _ :: s' => contains needle s'
  end.

(** Rounding to the nearest integer (a half goes up). *)
Definition round_nearest (x : Q) : Z :=
  let f := Qfloor x in
  if Qle_bool (1 # 2) (x - inject_Z f) then (f + 1)%Z else f.

Definition clamp (lo hi x : Z) : Z := Z.max lo (Z.min hi x).

(** The formula of section 4.4, for a text of [words] words that is
    [marked] or not by a heading or a table. *)
Definition formula (words : nat) (marked : bool)
    (a : jsstring) (n d : Z) (m : bool) : Z :=
  clamp 22 97
    (round_nearest
       (45
        + Qmin 15 (inject_Z (Z.of_nat words) / 120)
        + Qmin 18 (inject_Z n * 3.5)
        + Qmin 12 (inject_Z d * 2)
        + (if m then 5 else 0)
        + Qmin 10 (1.5 * inject_Z (Z.of_nat (evidence_count a)))
        + (if marked then 4 else 0))).

(** The score as C4 words it: the words of the answer are counted, and a
    heading marker is the number sign that opens a markdown heading. *)
Definition score (a : jsstring) (n d : Z) (m : bool) : Z :=
  formula (wordCount a) (contains (lit "#") a || contains (lit "|") a)
    a n d m.

(** The same formula read more precisely: the pieces between single
    spaces are counted, and the mark of a heading is two number signs in
    a row. *)
Definition score_precise (a : jsstring) (n d : Z) (m : bool) : Z :=
  formula (pieces a) (contains (lit "##") a || contains (lit "|") a)
    a n d m.

End Spec.

(** ** The component between its awaits

    [startResearch] above runs one invocation to its end.  Between two of
    its awaits the browser may run other handlers of the component: edits
    of the query, another click on Research, a click on Stop.  The session
    below keeps what decides whether an invocation begins: the query, the
    [isResearching] cell, and the invocations that are suspended at an
    await.  A handler is a closure of the render that created it: the
    [query] and the [isResearching] that the guard of line 231 reads are
    the values of that render, not those of the cells at the time of the
    call.  The session therefore keeps, beside the cells, what the last
    render has seen of them, and a render is an event of its own.  The
    session does not follow the data of an invocation (its outcomes
    arrive as events), nor the abort signal: every interleaving of the
    component is a trace of the session, and what holds of all traces
    holds of the component. *)

Module Session.

(** Where a suspended invocation waits: in [callResearchAPI] (lines 267 and
    282), or in the persistence calls (lines 310-316). *)
Inductive await_point :=
  | AtGeneration
  | AtPersistence.

Record session := {
  (** the state cells *)
  s_query : jsstring;
  s_isResearching : bool;
  (** their values in the last render, which the handlers have captured *)
  s_seen_query : jsstring;
  s_seen_isResearching : bool;
  s_suspended : list await_point
}.

Inductive event :=
  (** the user edits the query *)
  | Edit (q : jsstring)
  (** the component renders again: its handlers now see the cells as they
      are *)
  | Render
  (** [startResearch()] of the last render is invoked; if its guard lets it
      pass, it runs to its first generation call ([suspends = true]) or,
      with no pass to run, to its end *)
  | Start (suspends : bool)
  (** [stopResearch()] is invoked *)
  | Stop
  (** the [k]-th suspended invocation is resumed and runs to its next await
      ([Some]) or through [finally] to its end ([None]) *)
  | Resume (k : nat) (next : option await_point).

(** An invocation waiting for persistence never issues a generation call
    again. *)
Definition may_follow (at_ : await_point) (next : option await_point) : bool :=
  match at_, next with
  | AtPersistence, Some AtGeneration => false
  | _, _ => true
  end.

(** The cells changed, what the last render saw kept. *)
Definition with_cells (s : session) (q : jsstring) (r : bool)
    (l : list await_point) : session :=
  {| s_query := q; s_isResearching := r;
     s_seen_query := s_seen_query s;
     s_seen_isResearching := s_seen_isResearching s;
     s_suspended := l |}.

Definition step (s : session) (e : event) : session :=
  match e with
  | Edit q => with_cells s q (s_isResearching s) (s_suspended s)
  | Render =>
      {| s_query := s_query s; s_isResearching := s_isResearching s;
         s_seen_query := s_query s;
         s_seen_isResearching := s_isResearching s;
         s_suspended := s_suspended s |}
  | Start suspends =>
      if negb (truthy (trim (s_seen_query s))) || s_seen_isResearching s
      then s
      else if suspends
      then with_cells s (s_query s) true (s_suspended s ++ [AtGeneration])
      else with_cells s (s_query s) false (s_suspended s)
  | Stop => with_cells s (s_query s) false (s_suspended s)
  | Resume k next =>
      match s_suspended s !! k with
      | None => s
      | Some at_ =>
          if may_follow at_ next then
            match next with
            | Some at' =>
                with_cells s (s_query s) (s_isResearching s)
                  (<[ k := at' ]> (s_suspended s))
            | None =>
                with_cells s
                  match at_ with
                  | AtPersistence => []
                  | AtGeneration => s_query s
                  end
                  false
                  (delete k (s_suspended s))
            end
          else s
      end
  end.

Definition steps (s : session) (es : list event) : session :=
  fold_left step es s.

(** A freshly mounted component: nothing typed, nothing running, and
    rendered. *)
Definition mounted : session :=
  {| s_query := []; s_isResearching := false;
     s_seen_query := []; s_seen_isResearching := false;
     s_suspended := [] |}.

Definition is_stop (e : event) : bool :=
  match e with
  | Stop => true
  | _ => false
  end.

(** The last render shows the cells as they are. *)
Definition up_to_date (s : session) : bool :=
  bool_decide (s_seen_query s = s_query s)
  && Bool.eqb (s_seen_isResearching s) (s_isResearching s).

(** Every [Start] of the series is invoked from a render that is up to
    date. *)
Fixpoint starts_up_to_date (s : session) (es : list event) : bool :=
  match es with
  | [] => true
  | e :: es' =>
      match e with
      | Start _ => up_to_date s
      | _ => true
      end
      && starts_up_to_date (step s e) es'
  end.

(** The invocations in flight. *)
Definition in_flight (s : session) : nat := length (s_suspended s).

End Session.

(** ** Separation of the alternatives of a pattern

    What makes the left-to-right scan of [match_all] count every occurrence:
    no alternative can begin inside a match of another (or of itself), and
    no two alternatives can match at the same place.  Both are decided on
    the alternatives alone. *)

Module Separation.

(** [p] and [q] agree, ignoring case, as far as both reach. *)
Fixpoint agree (p q : jsstring) : bool :=
  match p, q with
  | a :: p', b :: q' =>
      N.eqb (canonicalize a) (canonicalize b) && agree p' q'
  | _, _ => true
  end.

(** [q] cannot begin at any place after the first inside a match of [p]. *)
Definition apart (p q : jsstring) : bool :=
  forallb (fun k => negb (agree (skipn k p) q)) (seq 1 (length p - 1)).

(** No two alternatives of the list match at the same place. *)
Fixpoint exclusive (alts : list jsstring) : bool :=
  match alts with
  | [] => true
  | p :: rest => forallb (fun q => negb (agree p q)) rest && exclusive rest
  end.

Definition separated (alts : list jsstring) : bool :=
  forallb truthy alts
  && forallb (fun p => forallb (apart p) alts) alts
  && exclusive alts.

(** How many alternatives match at the start of [s]. *)
Definition hits (alts : list jsstring) (s : jsstring) : nat :=
  list_sum (map (fun p => if ci_prefix p s then 1 else 0) alts).

(** The matches of all alternatives at all places of [s]. *)
Fixpoint total (alts : list jsstring) (s : jsstring) : nat :=
  hits alts s +
  match s with
  | [] => 0
  | _ :: s' => total alts s'
  end.

End Separation.

(** ** Scenarios *)

Module Scenario.

Definition no_stop (s : settlement) : outcome :=
  {| settled := s; stop_pressed := false |}.

Definition boom : js_error :=
  {| err_name := lit "Error"; err_message := lit "API error 500" |}.

(** A world whose generation calls are scripted; everything else is
    fixed. *)
Definition scripted (script : nat -> outcome) (stop_saving : bool) : world :=
  {| generate := script;
     localeString := show_nat;
     elapsed := lit "1.0";
     clock_id := 1700000000000%N;
     clock_timestamp := 1700000000001%N;
     stop_while_saving := stop_saving;
     loadedMemory := [];
     loadedHistory := [] |}.

(** Every call answers. *)
Definition answering : world :=
  scripted (fun _ => no_stop (Returned (lit "## Findings"))) false.

(** Every call answers; Stop is pressed while the result is saved. *)
Definition stopped_while_saving : world :=
  scripted (fun _ => no_stop (Returned (lit "## Findings"))) true.

(** Stop is pressed during the very first call, which the abort rejects. *)
Definition stopped_at_once : world :=
  scripted (fun _ => {| settled := Threw {| err_name := AbortError;
                                            err_message := lit "The user aborted a request." |};
                        stop_pressed := true |}) false.

(** Stop is pressed during the first call, and the call fails with an
    error of the service all the same. *)
Definition stopped_and_failing : world :=
  scripted (fun _ => {| settled := Threw boom; stop_pressed := true |}) false.

(** The second call (pass 1) fails. *)
Definition failing_at_1 : world :=
  scripted (fun k => if Nat.eqb k 1 then no_stop (Threw boom)
                     else no_stop (Returned (lit "## Findings"))) false.

Definition settings_of (d : jsstring) : settings :=
  {| provider := anthropic;
     model := lit "claude-sonnet-4-5";
     depth := d;
     maxTokens := 4096;
     temperature := 0.3%Q;
     memoryEnabled := false;
     activeContextIds := ∅ |}.

(** The component with a query typed, a model and a depth chosen, and
    nothing running. *)
Definition ready (d : jsstring) : component :=
  {| cfg := settings_of d;
     query := lit "X";
     isResearching := false;
     currentPhase := [];
     progress := 0%Q;
     results := [];
     history := [];
     memoryContexts := [];
     thoughts := [];
     activeResultTab := ∅;
     abortRef := None |}.

Definition ctx (id q a : string) : MemoryContext :=
  {| mc_id := lit id; mc_query := lit q; mc_answer := lit a;
     mc_provider := lit "anthropic"; mc_model := lit "claude-sonnet-4-5";
     mc_created_at := None; mc_timestamp := None |}.

Definition two_contexts : list MemoryContext :=
  [ ctx "a" "first question" "first answer";
    ctx "b" "second question" "second answer" ].

End Scenario.





(** The four depth tiers of the table. *)
Definition known_tier (d : jsstring) : Prop :=
  d = lit "quick" \/ d = lit "standard" \/ d = lit "deep" \/ d = lit "exhaustive".

Import Session.

(** Without Stop, the [isResearching] cell tells whether an invocation is
    suspended, and there is at most one. *)
Definition exclusive_run (s : session) : Prop :=
  (s_isResearching s = true /\ length (s_suspended s) = 1)
  \/ (s_isResearching s = false /\ s_suspended s = []).

(** ** The rest of the component *)

(** The updater that [toggleContext(id)] hands to [setActiveContextIds]:
    a copy of the set without [id] when it has it, with [id] when it has
    room for it (fewer than 5 members), and unchanged otherwise.  This is
    the set by its members, which is all that [buildMemorySection] and
    [startResearch] ask of it ([has] and [size]); the order of insertion,
    which the chips show, is kept by [toggleContext_ordered] below. *)
Definition toggleContext (id : jsstring) (prev : gset jsstring)
  : gset jsstring :=
  if bool_decide (id ∈ prev) then prev ∖ {[ id ]}
  else if Nat.ltb (size prev) 5 then {[ id ]} ∪ prev
  else prev.

(** The same updater on the [Set] as JavaScript keeps it: the members in
    the order of their insertion, which is the order in which
    [Array.from(activeContextIds)] shows the chips (line 520).  [delete]
    leaves the others in their order, [add] appends. *)
Definition toggleContext_ordered (id : jsstring) (prev : list jsstring)
  : list jsstring :=
  if bool_decide (id ∈ prev)
  then List.filter (fun x => negb (bool_decide (x = id))) prev
  else if Nat.ltb (length prev) 5 then prev ++ [id]
  else prev.

(** What the user can do to the selection: click a context of the memory
    panel or the cross of a chip ([toggleContext], lines 480 and 524), or
    empty it ([setActiveContextIds(new Set())], the buttons of lines 466
    and 527). *)
Inductive selection_event :=
  | Toggle (id : jsstring)
  | ClearAll.

Definition select_step (s : gset jsstring) (e : selection_event)
  : gset jsstring :=
  match e with
  | Toggle id => toggleContext id s
  | ClearAll => ∅
  end.

(** The selection after a series of such events, from the empty set that
    the component is mounted with (line 198). *)
Definition selections (es : list selection_event) : gset jsstring :=
  fold_left select_step es ∅.

(** [`${z}`] for an integer. *)
Definition show_Z (z : Z) : jsstring :=
  if Z.ltb z 0 then lit "-" ++ show_N (Z.to_N (- z)) else show_N (Z.to_N z).

(** [timeAgo(ts)], with the value [now] of [Date.now()]; both are
    integer milliseconds. [Math.floor] of a quotient is [Z.div]: for
    timestamps below 2^53 the difference is exact, and the rounding of a
    quotient (relative error 2^-53) cannot reach the next integer, from
    which an inexact quotient is at least 1/86400 away. *)
Definition timeAgo (now ts : Z) : jsstring :=
  let s := ((now - ts) / 1000)%Z in
  if Z.ltb s 60 then lit "just now"
  else if Z.ltb s 3600 then show_Z (s / 60) ++ lit "m ago"
  else if Z.ltb s 86400 then show_Z (s / 3600) ++ lit "h ago"
  else show_Z (s / 86400) ++ lit "d ago".

(** [s.replace(/c/g, rep)] for a pattern of one literal unit [c] and a
    replacement text without [$]. *)
Fixpoint replace_unit (c : N) (rep : jsstring) (s : jsstring) : jsstring :=
  match s with
  | [] => []
  | x :: s' => (if N.eqb x c then rep else [x]) ++ replace_unit c rep s'
  end.

Definition ampersand : N := 38%N.
Definition less_than : N := 60%N.
Definition greater_than : N := 62%N.

(** The first stage of [mdToHtml] (line 150): the three replacements that
    escape the markup characters of the answer, in the order of the
    source. *)
Definition md_escape (md : jsstring) : jsstring :=
  replace_unit greater_than (lit "&gt;")
    (replace_unit less_than (lit "&lt;")
       (replace_unit ampersand (lit "&amp;") md)).

Definition slash : N := 47%N.
Definition dash : N := 45%N.

(** The model badge of the header and of a result card (lines 413 and
    600): [model.split('/').pop()?.split('-').slice(0, 3).join('-')].
    [split] never yields an empty array, so [pop()] is defined; the
    [|| ''] of line 600 replaces an empty badge by the empty text. *)
Definition model_badge (model : jsstring) : jsstring :=
  join [dash] (firstn 3 (split dash (List.last (split slash model) []))).

(** The error that [callResearchAPI] throws on a response that is not ok
    (lines 43-46): [new Error(e.error || `API error ${r.status}`)], for a
    body whose [error] field is a string or is missing. *)
Definition api_error (error_field : option jsstring) (status : nat)
  : js_error :=
  let fallback := lit "API error " ++ show_nat status in
  {| err_name := lit "Error";
     err_message :=
       match error_field with
       | Some text => if truthy text then text else fallback
       | None => fallback
       end |}.

(** A text of [k] letters, and a world whose calls answer with 700 of
    them. *)
Definition long_text (k : nat) : jsstring := List.repeat 120%N k.

Definition verbose : world :=
  Scenario.scripted (fun _ => Scenario.no_stop (Returned (long_text 700)))
    false.

(** Three stored contexts; the answer of the second has 700 letters. *)
Definition three_contexts : list MemoryContext :=
  [ Scenario.ctx "a" "first question" "first answer";
    {| mc_id := lit "b"; mc_query := lit "second question";
       mc_answer := long_text 700;
       mc_provider := lit "anthropic"; mc_model := lit "claude-sonnet-4-5";
       mc_created_at := None; mc_timestamp := None |};
    Scenario.ctx "c" "third question" "third answer" ].

(** [k] one-letter words, each on a line of its own. *)
Definition word_per_line (k : nat) : jsstring :=
  List.concat (List.repeat (lit "w" ++ nl) k).

(** A world whose generation call [k] fails with [e], Stop not pressed;
    every other call answers. *)
Definition failing_at (k : nat) (e : js_error) : world :=
  Scenario.scripted
    (fun j => if Nat.eqb j k then Scenario.no_stop (Threw e)
              else Scenario.no_stop (Returned (lit "## Findings")))
    false.

(** What a run that began leaves of the component [c] in [c']: either the
    results and the query as they were, or one more result, in front,
    with a non-empty answer and the score of at least one completed pass,
    the query cleared and no ERROR event in the log. *)
Definition kept_or_delivered (w : world) (c c' : component) : Prop :=
  let hasMem := Nat.ltb 0 (size (activeContextIds (cfg c))) in
  (results c' = results c /\ query c' = query c)
  \/ (exists answer n,
        1 <= n /\ answer <> []
        /\ results c'
           = result_item w c answer
               (computeConfidence answer (Z.of_nat n) 0 hasMem) :: results c
        /\ (49 <= computeConfidence answer (Z.of_nat n) 0 hasMem <= 97)%Z
        /\ query c' = []
        /\ error_events (thoughts c') = []).

(** * Verification *)

(** ** Strings *)

Lemma starts_with_app (needle post : jsstring) :
  starts_with needle (needle ++ post) = true.
Proof.
  induction needle as [|a needle IH]; simpl; [reflexivity|].
  now rewrite N.eqb_refl, IH.
Qed.

Lemma starts_with_inv (needle s : jsstring) :
  starts_with needle s = true -> exists post, s = needle ++ post.
Proof.
  revert s; induction needle as [|a needle IH]; intros s H.
  - now exists s.
  - destruct s as [|b s]; simpl in H; [discriminate|].
    apply andb_prop in H as [Hab Hrest].
    apply N.eqb_eq in Hab; subst b.
    destruct (IH _ Hrest) as [post ->].
    now exists post.
Qed.

Lemma includes_head (needle s : jsstring) :
  starts_with needle s = true -> includes needle s = true.
Proof.
  intros H. destruct s; simpl; rewrite H; reflexivity.
Qed.

(** [includes] decides containment as a contiguous part. *)
Lemma includes_spec (needle s : jsstring) :
  includes needle s = true <-> exists pre post, s = pre ++ needle ++ post.
Proof.
  split.
  - induction s as [|c s IH]; simpl; intros H.
    + rewrite orb_false_r in H.
      destruct (starts_with_inv _ _ H) as [post ->].
      now exists [], post.
    + apply orb_prop in H as [H|H].
      * destruct (starts_with_inv _ _ H) as [post ->].
        now exists [], post.
      * destruct (IH H) as (pre & post & ->).
        now exists (c :: pre), post.
  - intros (pre & post & ->).
    induction pre as [|c pre IH].
    + change ([] ++ needle ++ post) with (needle ++ post).
      apply includes_head, starts_with_app.
    + simpl. rewrite IH. apply orb_true_r.
Qed.

(** [split] yields one piece more than there are separators. *)
Lemma split_length (sep : N) (s : jsstring) :
  length (split sep s) = S (length (List.filter (N.eqb sep) s)).
Proof.
  induction s as [|c s IH]; simpl; [reflexivity|].
  rewrite (N.eqb_sym sep c).
  destruct (N.eqb c sep); simpl.
  - now rewrite IH.
  - destruct (split sep s) as [|p ps] eqn:E; simpl in *; [discriminate|].
    exact IH.
Qed.

(** ** The global match counts occurrences *)

Import Separation.

Lemma ci_prefix_length (p s : jsstring) :
  ci_prefix p s = true -> length p <= length s.
Proof.
  revert s; induction p as [|a p IH]; intros [|b s] H; simpl in *;
    try discriminate; try lia.
  apply andb_prop in H as [_ H]. apply IH in H. lia.
Qed.

Lemma ci_prefix_skipn (p s : jsstring) (k : nat) :
  ci_prefix p s = true -> ci_prefix (skipn k p) (skipn k s) = true.
Proof.
  revert p s; induction k as [|k IH]; intros p s H; [exact H|].
  destruct p as [|a p]; [reflexivity|].
  destruct s as [|b s]; simpl in H; [discriminate|].
  apply andb_prop in H as [_ H]. simpl. now apply IH.
Qed.

Lemma ci_prefix_agree (p q s : jsstring) :
  ci_prefix p s = true -> ci_prefix q s = true -> agree p q = true.
Proof.
  revert q s; induction p as [|a p IH]; intros q s Hp Hq; [reflexivity|].
  destruct q as [|b q]; [reflexivity|].
  destruct s as [|c s]; simpl in Hp, Hq; [discriminate|].
  apply andb_prop in Hp as [Ha Hp]. apply andb_prop in Hq as [Hb Hq].
  apply N.eqb_eq in Ha, Hb. simpl.
  rewrite Ha, Hb, N.eqb_refl. simpl. eapply IH; eassumption.
Qed.

Lemma hits_zero (alts : list jsstring) (s : jsstring) :
  hits alts s = 0 <-> forall q, In q alts -> ci_prefix q s = false.
Proof.
  unfold hits. induction alts as [|p l IH]; simpl.
  - split; [intros _ q []|reflexivity].
  - destruct (ci_prefix p s) eqn:E; simpl.
    + split; [discriminate|]. intros H. specialize (H p (or_introl eq_refl)). congruence.
    + rewrite IH. split.
      * intros H q [<-|Hq]; auto.
      * intros H q Hq. apply H. now right.
Qed.

(** Where the first matching alternative is found, it is the only one. *)
Lemma hits_one (alts : list jsstring) (s p : jsstring) :
  exclusive alts = true ->
  List.find (fun p => ci_prefix p s) alts = Some p ->
  hits alts s = 1.
Proof.
  unfold hits. induction alts as [|a l IH]; simpl; [discriminate|].
  intros Hex Hfind. apply andb_prop in Hex as [Ha Hl].
  destruct (ci_prefix a s) eqn:E.
  - f_equal. change (hits l s = 0). apply hits_zero. intros q Hq.
    rewrite forallb_forall in Ha. specialize (Ha q Hq).
    destruct (ci_prefix q s) eqn:Eq; [|reflexivity].
    rewrite (ci_prefix_agree a q s E Eq) in Ha. discriminate.
  - simpl. now apply IH.
Qed.

Lemma find_none_hits (alts : list jsstring) (s : jsstring) :
  List.find (fun p => ci_prefix p s) alts = None -> hits alts s = 0.
Proof.
  intros H. apply hits_zero. intros q Hq.
  exact (find_none _ _ H q Hq).
Qed.

(** Inside a match of [p] no alternative begins. *)
Lemma no_hit_inside (alts : list jsstring) (p s : jsstring) (k : nat) :
  forallb (fun p => forallb (apart p) alts) alts = true ->
  In p alts -> ci_prefix p s = true ->
  1 <= k < length p ->
  hits alts (skipn k s) = 0.
Proof.
  intros Hsep Hp Hm Hk. apply hits_zero. intros q Hq.
  rewrite forallb_forall in Hsep. specialize (Hsep p Hp).
  rewrite forallb_forall in Hsep. specialize (Hsep q Hq).
  unfold apart in Hsep. rewrite forallb_forall in Hsep.
  assert (Hin : In k (seq 1 (length p - 1))) by (apply in_seq; lia).
  specialize (Hsep k Hin).
  destruct (ci_prefix q (skipn k s)) eqn:Eq; [|reflexivity].
  rewrite (ci_prefix_agree _ _ _ (ci_prefix_skipn p s k Hm) Eq) in Hsep.
  discriminate.
Qed.

Lemma hits_nil (alts : list jsstring) :
  forallb truthy alts = true -> hits alts [] = 0.
Proof.
  intros H. apply hits_zero. intros q Hq.
  rewrite forallb_forall in H. specialize (H q Hq).
  destruct q; [discriminate|reflexivity].
Qed.

(** The scan finds as many matches as there are occurrences, provided no
    alternative matches at the places still to be skipped. *)
Lemma match_all_total (alts : list jsstring) :
  separated alts = true ->
  forall (s : jsstring) (skip : nat),
    (forall j, j < skip -> hits alts (skipn j s) = 0) ->
    length (match_all alts skip s) = total alts s.
Proof.
  intros Hsep. unfold separated in Hsep.
  apply andb_prop in Hsep as [Hsep Hex]. apply andb_prop in Hsep as [Hne Hap].
  induction s as [|c s IH]; intros skip Hskip.
  - cbn [match_all total length]. now rewrite hits_nil.
  - cbn [match_all total]. destruct skip as [|k].
    + unfold match_here.
      destruct (List.find (fun p => ci_prefix p (c :: s)) alts) as [p|] eqn:Ef.
      * rewrite (hits_one _ _ _ Hex Ef). cbn [length Nat.add]. f_equal.
        destruct (find_some _ _ Ef) as [Hp Hm].
        pose proof (ci_prefix_length _ _ Hm) as Hlen.
        apply IH. intros j Hj.
        rewrite length_firstn in Hj.
        apply (no_hit_inside alts p (c :: s) (S j) Hap Hp Hm). lia.
      * rewrite (find_none_hits _ _ Ef). cbn [Nat.add]. apply IH.
        intros j Hj; lia.
    + pose proof (Hskip 0 ltac:(lia)) as H0. cbn [skipn] in H0.
      rewrite H0. cbn [Nat.add]. apply IH.
      intros j Hj. apply (Hskip (S j)). lia.
Qed.

Lemma list_sum_map_add {A} (f g : A -> nat) (l : list A) :
  list_sum (map (fun x => f x + g x) l)
  = list_sum (map f l) + list_sum (map g l).
Proof.
  induction l as [|x l IH]; simpl; [reflexivity|]. rewrite IH. lia.
Qed.

(** Folding capitals to small letters, as the specification compares,
    and mapping small letters to capitals, as the regular expression
    does, identify the same units. *)
Lemma canonicalize_fold_case (a b : N) :
  canonicalize a = canonicalize b <-> Spec.fold_case a = Spec.fold_case b.
Proof.
  unfold canonicalize, Spec.fold_case.
  destruct (N.leb_spec 97 a), (N.leb_spec a 122), (N.leb_spec 65 a),
    (N.leb_spec a 90), (N.leb_spec 97 b), (N.leb_spec b 122),
    (N.leb_spec 65 b), (N.leb_spec b 90); cbn [andb]; lia.
Qed.

(** The prefix test of the scan decides what the specification calls
    standing at a place, ignoring case. *)
Lemma ci_prefix_stands (p s : jsstring) : ci_prefix p s = Spec.stands p s.
Proof.
  unfold Spec.stands. revert s; induction p as [|a p IH]; intros s.
  - cbn. now rewrite bool_decide_eq_true_2.
  - destruct s as [|b s]; cbn [ci_prefix length firstn map].
    + now rewrite bool_decide_eq_false_2.
    + rewrite IH. destruct (N.eqb_spec (canonicalize a) (canonicalize b)) as [E|E].
      * apply canonicalize_fold_case in E. cbn [andb].
        destruct (bool_decide (map Spec.fold_case (firstn (length p) s)
                               = map Spec.fold_case p)) eqn:El.
        -- apply bool_decide_eq_true in El. symmetry.
           apply bool_decide_eq_true. congruence.
        -- apply bool_decide_eq_false in El. symmetry.
           apply bool_decide_eq_false. intros H. inversion H. contradiction.
      * cbn [andb]. symmetry. apply bool_decide_eq_false.
        intros H. inversion H as [[H1 H2]]. apply E.
        apply canonicalize_fold_case. congruence.
Qed.

(** Summing the occurrences of each alternative, or the hits at each
    place, counts the same. *)
Lemma occurrences_total (alts : list jsstring) (s : jsstring) :
  list_sum (map (fun p => Spec.occurrences p s) alts) = total alts s.
Proof.
  induction s as [|c s IH]; cbn [total Spec.occurrences].
  - unfold hits. induction alts as [|p l IHl]; simpl in *;
      rewrite <- ?ci_prefix_stands; lia.
  - rewrite list_sum_map_add, IH. unfold hits. f_equal. f_equal.
    apply map_ext. intros p. now rewrite ci_prefix_stands.
Qed.

Lemma evidence_phrases_separated : separated evidence_phrases = true.
Proof. vm_compute. reflexivity. Qed.

(** The global match of the evidence pattern finds every occurrence of
    every phrase, in either case of its letters. *)
Lemma evidence_matches (a : jsstring) :
  length (match_all evidence_phrases 0 a) = Spec.evidence_count a.
Proof.
  unfold Spec.evidence_count.
  change Spec.phrases with evidence_phrases. rewrite occurrences_total.
  apply match_all_total; [exact evidence_phrases_separated|].
  intros j Hj; lia.
Qed.

(** [includes] decides what the specification calls containing. *)
Lemma includes_contains (needle s : jsstring) :
  includes needle s = Spec.contains needle s.
Proof.
  assert (Hs : forall n t, starts_with n t
                           = bool_decide (firstn (length n) t = n)).
  { induction n as [|a n IH]; intros t.
    - cbn. now rewrite bool_decide_eq_true_2.
    - destruct t as [|b t]; cbn [starts_with length firstn].
      + now rewrite bool_decide_eq_false_2.
      + rewrite IH. destruct (N.eqb_spec a b) as [->|E]; cbn [andb].
        * destruct (bool_decide (firstn (length n) t = n)) eqn:El.
          -- apply bool_decide_eq_true in El. symmetry.
             apply bool_decide_eq_true. congruence.
          -- apply bool_decide_eq_false in El. symmetry.
             apply bool_decide_eq_false. intros H. inversion H. contradiction.
        * symmetry. apply bool_decide_eq_false. intros H. inversion H.
          congruence. }
  induction s as [|c s IH]; cbn [includes Spec.contains];
    rewrite Hs; [reflexivity|now rewrite IH].
Qed.

(** ** The confidence scorer *)

Lemma Qfloor_between (x : Q) (z : Z) :
  (inject_Z z <= x)%Q -> (x < inject_Z (z + 1))%Q -> Qfloor x = z.
Proof.
  intros Hlo Hhi.
  assert (z <= Qfloor x)%Z.
  { rewrite <- (Qfloor_Z z). now apply Qfloor_resp_le. }
  assert (Qfloor x < z + 1)%Z.
  { rewrite Zlt_Qlt. eapply Qle_lt_trans; [apply Qfloor_le|exact Hhi]. }
  lia.
Qed.

(** [Math.round] rounds to the nearest integer, a half going up. *)
Lemma js_round_nearest (x : Q) : js_round x = Spec.round_nearest x.
Proof.
  unfold js_round, Spec.round_nearest.
  pose proof (Qfloor_le x) as Hlo. pose proof (Qlt_floor x) as Hhi.
  set (f := Qfloor x) in *.
  rewrite inject_Z_plus in Hhi. change (inject_Z 1) with 1%Q in Hhi.
  destruct (Qle_bool (1 # 2) (x - inject_Z f)) eqn:E.
  - apply Qle_bool_iff in E. apply Qfloor_between;
      rewrite !inject_Z_plus; change (inject_Z 1) with 1%Q; lra.
  - assert (~ (1 # 2 <= x - inject_Z f)%Q) as E'.
    { intros H. apply Qle_bool_iff in H. congruence. }
    apply Qfloor_between;
      rewrite ?inject_Z_plus; change (inject_Z 1) with 1%Q; lra.
Qed.

Lemma Qmin_comp (a x y : Q) : (x == y)%Q -> (Qmin a x == Qmin a y)%Q.
Proof. intros H. now rewrite H. Qed.

(** C4, as the code has it. For every answer [a], completed-pass count
    [n], auxiliary-document count [d] and memory flag [m],
    [computeConfidence] equals the formula of the specification read
    precisely: the rounding of 45 + min(15, pieces(a)/120)
    + min(18, 3.5 n) + min(12, 2 d) + (5 if m) + min(10, 1.5 times the
    number of occurrences, in either case of their letters, of the four
    evidentiary phrases) + (4 if a contains "##" or "|"), clamped to
    [22, 97]; pieces(a) is one more than the number of space characters
    of [a]. *)
Theorem score_formula (a : jsstring) (n d : Z) (m : bool) :
  computeConfidence a n d m = Spec.score_precise a n d m.
Proof.
  unfold computeConfidence, Spec.score_precise, Spec.formula, Spec.clamp.
  rewrite <- js_round_nearest, evidence_matches, split_length.
  rewrite !includes_contains.
  change (length (List.filter (N.eqb space) a)) with
    (length (List.filter (N.eqb 32) a)).
  fold (Spec.pieces a).
  set (r1 := js_round _). set (r2 := js_round _).
  assert (r1 = r2) as ->; [|lia].
  subst r1 r2. unfold js_round. apply Qfloor_comp.
  pose proof (Qmin_comp 10 _ _
    (Qmult_comm (inject_Z (Z.of_nat (Spec.evidence_count a))) 1.5)) as Hev.
  destruct m, (Spec.contains (lit "##") a || Spec.contains (lit "|") a);
    cbv zeta; rewrite Hev; ring.
Qed.

(** C4, as stated, fails, where the words of the claim and the code part.
    A heading of the first level has its marker, one number sign, and no
    "##": the claim adds 4, the code does not.  Sixty words on sixty
    lines are sixty words and, without a space, one piece: the claim adds
    60/120 and rounds to 46, the code adds 1/120 and rounds to 45. *)
Lemma score_as_worded_differs :
  Spec.score (lit "# Title") 0 0 false = 49%Z
  /\ computeConfidence (lit "# Title") 0 0 false = 45%Z
  /\ Spec.score (word_per_line 60) 0 0 false = 46%Z
  /\ computeConfidence (word_per_line 60) 0 0 false = 45%Z.
Proof. vm_compute. auto. Qed.

(** C5. For every input, the empty answer, zero passes, zero document
    chunks and either memory flag included, [computeConfidence] returns an
    integer between 22 and 97. *)
Theorem score_bounds (a : jsstring) (n d : Z) (m : bool) :
  (22 <= computeConfidence a n d m <= 97)%Z.
Proof. unfold computeConfidence. lia. Qed.

(** C6, as the code has it. On the empty answer with zero passes, zero
    document chunks and no memory the score is the base 45 (the one piece
    that [split] makes of the empty text adds 1/120, which the rounding
    drops); it lies in [22, 97] without the clamp acting. *)
Theorem score_empty : computeConfidence [] 0 0 false = 45%Z.
Proof. vm_compute. reflexivity. Qed.

(** C6, as stated, fails: the score of the empty input is not the lower
    bound 22 of the clamp. *)
Lemma score_empty_is_not_the_minimum : computeConfidence [] 0 0 false <> 22%Z.
Proof. vm_compute. discriminate. Qed.

(** With counts that are not negative the score never falls below its
    base, so the lower bound of the clamp is not reached. *)
Lemma score_at_least_base (a : jsstring) (n d : Z) (m : bool) :
  (0 <= n)%Z -> (0 <= d)%Z -> (45 <= computeConfidence a n d m)%Z.
Proof.
  intros Hn Hd. unfold computeConfidence.
  apply Z.min_glb; [lia|]. apply Z.max_le_iff. right.
  unfold js_round.
  apply (Z.le_trans _ (Qfloor 45)); [vm_compute; discriminate|].
  apply Qfloor_resp_le.
  assert (H1 : (0 <= Qmin 15 (inject_Z (Z.of_nat (length (split space a))) / 120))%Q).
  { apply Q.min_glb; [lra|]. apply Qle_shift_div_l; [lra|].
    rewrite Qmult_0_l. change 0%Q with (inject_Z 0). rewrite <- Zle_Qle. lia. }
  assert (H2 : (0 <= Qmin 18 (inject_Z n * 3.5))%Q).
  { apply Q.min_glb; [lra|]. apply Qmult_le_0_compat; [|lra].
    change 0%Q with (inject_Z 0). now rewrite <- Zle_Qle. }
  assert (H3 : (0 <= Qmin 12 (inject_Z d * 2))%Q).
  { apply Q.min_glb; [lra|]. apply Qmult_le_0_compat; [|lra].
    change 0%Q with (inject_Z 0). now rewrite <- Zle_Qle. }
  assert (H4 : (0 <= Qmin 10 (inject_Z (Z.of_nat
                 (length (match_all evidence_phrases 0 a))) * 1.5))%Q).
  { apply Q.min_glb; [lra|]. apply Qmult_le_0_compat; [|lra].
    change 0%Q with (inject_Z 0). rewrite <- Zle_Qle. lia. }
  destruct m, (includes (lit "##") a || includes (lit "|") a); cbv zeta; lra.
Qed.

(** ** Texts in order *)

Lemma in_order_app_l (parts : list jsstring) (x s : jsstring) :
  in_order parts s -> in_order parts (x ++ s).
Proof.
  destruct parts as [|p ps]; [trivial|].
  intros (pre & post & -> & H).
  exists (x ++ pre), post. split; [|exact H].
  now rewrite <- app_assoc.
Qed.

Lemma in_order_app (ps1 ps2 : list jsstring) (s1 s2 : jsstring) :
  in_order ps1 s1 -> in_order ps2 s2 -> in_order (ps1 ++ ps2) (s1 ++ s2).
Proof.
  revert s1; induction ps1 as [|p ps IH]; intros s1 H1 H2.
  - now apply in_order_app_l.
  - destruct H1 as (pre & post & -> & H1).
    exists pre, (post ++ s2). split.
    + now rewrite <- !app_assoc.
    + now apply IH.
Qed.

Lemma in_order_app_r (parts : list jsstring) (s x : jsstring) :
  in_order parts s -> in_order parts (s ++ x).
Proof.
  intros H. rewrite <- (app_nil_r parts).
  now apply in_order_app.
Qed.

(** The entries of a joined list keep their parts, in the order of the
    list. *)
Lemma in_order_join {A} (parts : A -> list jsstring)
    (entry : A -> nat -> jsstring) (sep : jsstring) :
  (forall x i, in_order (parts x) (entry x i)) ->
  forall (l : list A) (i : nat),
    in_order (flat_map parts l) (join sep (mapi_from i entry l)).
Proof.
  intros Hentry. induction l as [|x l IH]; intros i; [exact I|].
  destruct l as [|y l].
  - simpl. rewrite app_nil_r. apply Hentry.
  - change (in_order (parts x ++ flat_map parts (y :: l))
              (entry x i ++ sep ++ join sep (mapi_from (S i) entry (y :: l)))).
    apply in_order_app; [apply Hentry|].
    apply in_order_app_l, IH.
Qed.

(** ** The memory block *)

Lemma memory_entry_parts (c : MemoryContext) (i : nat) :
  in_order [mc_query c; firstn 600 (mc_answer c) ++ lit "..."]
    (memory_entry c i).
Proof.
  unfold memory_entry, substring0.
  exists (lit "[Context " ++ show_nat (i + 1) ++ lit "]" ++ nl ++
          lit "Previous Query: "),
    (nl ++ lit "Previous Answer: " ++ firstn 600 (mc_answer c) ++ lit "...").
  split; [now rewrite <- !app_assoc|].
  exists (nl ++ lit "Previous Answer: "), [].
  split; [now rewrite <- !app_assoc, app_nil_r|exact I].
Qed.

Lemma selected_none (ids : gset jsstring) (ctxs : list MemoryContext) :
  size ids = 0 -> selected ids ctxs = [].
Proof.
  intros H. apply size_empty_inv in H. unfold selected.
  induction ctxs as [|c l IH]; simpl; [reflexivity|].
  rewrite bool_decide_eq_false_2; [exact IH|].
  intros Hin. apply H in Hin. exact (not_elem_of_empty (C := gset jsstring) _ Hin).
Qed.

(** C8. The selected contexts are the stored contexts whose id is in the
    selection, in the order in which they are stored.  When there is none,
    [buildMemorySection] returns the empty text; otherwise its output is
    a body between the opening banner PRIOR RESEARCH CONTEXTS and the
    closing banner END CONTEXTS, and the body holds, for each selected
    context in order, the query of the context in full and the first 600
    characters of its stored answer followed by the marker "...". *)
Theorem memory_block (ids : gset jsstring) (ctxs : list MemoryContext) :
  let sel := List.filter (fun c => bool_decide (mc_id c ∈ ids)) ctxs in
  (sel = [] -> buildMemorySection ids ctxs = []) /\
  (sel <> [] ->
   exists body,
     buildMemorySection ids ctxs
     = (nl ++ nl ++ bar ++ bar ++ bar ++ lit " PRIOR RESEARCH CONTEXTS " ++
        bar ++ bar ++ bar ++ nl)
       ++ body
       ++ (nl ++ bar ++ bar ++ bar ++ lit " END CONTEXTS " ++
           bar ++ bar ++ bar ++ nl ++ nl ++
           lit "Use the above prior research to inform your current analysis.")
     /\ in_order
          (flat_map (fun c => [mc_query c;
                               firstn 600 (mc_answer c) ++ lit "..."]) sel)
          body).
Proof.
  intros sel. unfold buildMemorySection.
  change (selected ids ctxs) with sel.
  destruct (Nat.eqb (size ids) 0) eqn:Eids.
  - apply Nat.eqb_eq in Eids. pose proof (selected_none ids ctxs Eids) as Hs.
    change (selected ids ctxs) with sel in Hs.
    split; [reflexivity|]. intros Hne. contradiction.
  - destruct sel as [|c l] eqn:Esel.
    + split; [reflexivity|]. intros Hne. contradiction.
    + split; [discriminate|]. intros _.
      change (Nat.eqb (length (c :: l)) 0) with false. cbv iota.
      exists (join (nl ++ nl) (mapi memory_entry (c :: l))).
      split.
      * unfold memory_header, memory_footer, bar3.
        now rewrite <- !app_assoc.
      * apply in_order_join. intros x i. apply memory_entry_parts.
Qed.

(** The block for one selected context out of two. *)
Example memory_block_of_one :
  buildMemorySection {[ lit "b" ]} Scenario.two_contexts
  = memory_header
    ++ lit "[Context 1]" ++ nl
    ++ lit "Previous Query: second question" ++ nl
    ++ lit "Previous Answer: second answer..."
    ++ memory_footer.
Proof. vm_compute. reflexivity. Qed.

(** No context is selected when the selection names none of the stored
    ones. *)
Example memory_block_of_none :
  buildMemorySection {[ lit "z" ]} Scenario.two_contexts = [].
Proof. vm_compute. reflexivity. Qed.

(** ** The event log *)

Lemma error_events_app (l1 l2 : list thought) :
  error_events (l1 ++ l2) = error_events l1 ++ error_events l2.
Proof. unfold error_events. now rewrite List.filter_app, map_app. Qed.

Lemma error_events_addThought (type detail : jsstring) (c : component) :
  error_events (thoughts (addThought type detail c))
  = error_events (thoughts c)
    ++ (if bool_decide (type = ERROR) then [detail] else []).
Proof.
  unfold addThought. cbn [thoughts setThoughts].
  rewrite error_events_app. f_equal.
  unfold error_events. cbn [List.filter th_type].
  destruct (bool_decide (type = ERROR)); reflexivity.
Qed.

Lemma error_events_other (type detail : jsstring) (c : component) :
  type <> ERROR ->
  error_events (thoughts (addThought type detail c)) = error_events (thoughts c).
Proof.
  intros H. rewrite error_events_addThought, bool_decide_eq_false_2 by exact H.
  apply app_nil_r.
Qed.

Lemma passLabel_in (i : nat) : In (passLabel i) PASS_LABELS.
Proof.
  unfold passLabel. apply nth_In.
  change (length PASS_LABELS) with 8. lia.
Qed.

Lemma passLabel_not_error (i : nat) : passLabel i <> ERROR.
Proof.
  pose proof (passLabel_in i) as H. intros E. rewrite E in H.
  vm_compute in H. intuition discriminate.
Qed.

Lemma stopResearch_thoughts (c : component) :
  thoughts (stopResearch c) = thoughts c.
Proof. unfold stopResearch. destruct (abortRef c); reflexivity. Qed.

Lemma stopResearch_results (c : component) :
  results (stopResearch c) = results c.
Proof. unfold stopResearch. destruct (abortRef c); reflexivity. Qed.

Lemma stopResearch_aborted (c : component) (b : bool) :
  abortRef c = Some b -> abortRef (stopResearch c) = Some true.
Proof. intros H. unfold stopResearch. rewrite H. reflexivity. Qed.

Section Loop.

Variable w : world.
Variable c0 : component.
Variable numPasses : jsvalue.
Variable memSection : jsstring.

(** One iteration of the loop, unfolded. *)
Lemma pass_loop_step (todo i : nat) (P : list jsstring) (m : machine) :
  pass_loop w c0 numPasses memSection (S todo) i P m =
  if signal_aborted (ui m) then (Normal P, m)
  else
    let k := length (issued m) in
    let call := {| site := PassCall i;
                   gc_provider := provider_key_text (provider (cfg c0));
                   gc_model := model (cfg c0);
                   systemPrompt := pass_system i numPasses;
                   userPrompt := pass_user i (query c0) memSection P;
                   gc_maxTokens := maxTokens (cfg c0);
                   gc_temperature := temperature (cfg c0) |} in
    match settled (generate w k) with
    | Returned text =>
        pass_loop w c0 numPasses memSection todo (S i) (P ++ [text])
          {| ui := conclude w i text (pressed w k (announce numPasses i (ui m)));
             issued := issued m ++ [call] |}
    | Threw e =>
        (Thrown e, {| ui := pressed w k (announce numPasses i (ui m));
                      issued := issued m ++ [call] |})
    end.
Proof.
  cbn [pass_loop]. unfold mbind, M_bind, read, update, callResearchAPI.
  cbn [ui issued]. destruct (signal_aborted (ui m)); [reflexivity|].
  cbn [ui issued]. destruct (settled (generate w (length (issued m)))); reflexivity.
Qed.


Lemma pass_loop_aborted (todo i : nat) (P : list jsstring) (m : machine) :
  signal_aborted (ui m) = true ->
  pass_loop w c0 numPasses memSection todo i P m = (Normal P, m).
Proof.
  intros H. destruct todo; [reflexivity|].
  rewrite pass_loop_step, H. reflexivity.
Qed.

Lemma returned_texts_S (i : nat) :
  returned_texts w (S i) = returned_texts w i ++ [returned_text w i].
Proof. unfold returned_texts. now rewrite seq_S, map_app. Qed.

Lemma pass_complete_not_error (i : nat) :
  lit "PASS " ++ show_nat (i + 1) ++ lit " COMPLETE" <> ERROR.
Proof. discriminate. Qed.

Lemma loop_step_results (i k : nat) (text : jsstring) (c : component) :
  results (conclude w i text (pressed w k (announce numPasses i c))) = results c
  /\ results (pressed w k (announce numPasses i c)) = results c.
Proof.
  unfold conclude, pressed.
  destruct (stop_pressed (generate w k));
    cbn [results addThought setThoughts]; rewrite ?stopResearch_results;
    split; reflexivity.
Qed.

Lemma loop_step_errors (i k : nat) (text : jsstring) (c : component) :
  error_events (thoughts (conclude w i text (pressed w k (announce numPasses i c))))
  = error_events (thoughts c)
  /\ error_events (thoughts (pressed w k (announce numPasses i c)))
     = error_events (thoughts c).
Proof.
  assert (H : error_events (thoughts (pressed w k (announce numPasses i c)))
              = error_events (thoughts c)).
  { unfold pressed.
    assert (Ha : error_events (thoughts (announce numPasses i c))
                 = error_events (thoughts c)).
    { unfold announce. cbn [thoughts setProgress].
      now rewrite error_events_other by apply passLabel_not_error. }
    destruct (stop_pressed (generate w k));
      [rewrite stopResearch_thoughts|]; exact Ha. }
  split; [|exact H].
  unfold conclude. rewrite error_events_other by apply pass_complete_not_error.
  exact H.
Qed.

Lemma loop_step_abortRef (i k : nat) (text : jsstring) (c : component) (b : bool) :
  abortRef c = Some b ->
  abortRef (conclude w i text (pressed w k (announce numPasses i c)))
  = Some (b || stop_pressed (generate w k))
  /\ abortRef (pressed w k (announce numPasses i c))
     = Some (b || stop_pressed (generate w k)).
Proof.
  intros H. unfold conclude, pressed, announce.
  destruct (stop_pressed (generate w k)); cbn.
  - rewrite orb_true_r. unfold stopResearch. cbn. rewrite H. cbn. auto.
  - rewrite orb_false_r. auto.
Qed.

(** How the pass loop ends, entered with the signal not aborted, [i] calls
    issued and their texts in [P]: it issues the calls of [n] passes; all
    but the last of them complete; and either all [todo] passes complete,
    or Stop was pressed during the last call, which returned, or the last
    call threw. The loop leaves results and ERROR events as they were. *)
Lemma pass_loop_spec (todo : nat) :
  forall (i : nat) (P : list jsstring) (m : machine),
    abortRef (ui m) = Some false ->
    length (issued m) = i ->
    P = returned_texts w i ->
    exists n,
      let out := pass_loop w c0 numPasses memSection todo i P m in
      issued out.2
      = issued m ++ map (pass_call w c0 numPasses memSection) (seq i n)
      /\ results (ui out.2) = results (ui m)
      /\ error_events (thoughts (ui out.2)) = error_events (thoughts (ui m))
      /\ (forall j, i <= j -> S j < i + n -> completes w j)
      /\ ((n = todo
           /\ out.1 = Normal (returned_texts w (i + n))
           /\ abortRef (ui out.2) = Some false
           /\ (forall j, i <= j < i + n -> completes w j))
          \/ (1 <= n <= todo
              /\ out.1 = Normal (returned_texts w (i + n))
              /\ abortRef (ui out.2) = Some true
              /\ stop_pressed (generate w (i + n - 1)) = true
              /\ exists text,
                  settled (generate w (i + n - 1)) = Returned text)
          \/ (1 <= n <= todo
              /\ exists e,
                  out.1 = Thrown e
                  /\ settled (generate w (i + n - 1)) = Threw e
                  /\ abortRef (ui out.2)
                     = Some (stop_pressed (generate w (i + n - 1))))).
Proof.
  induction todo as [|todo IH]; intros i P m Hab Hlen HP.
  - exists 0. cbn. rewrite app_nil_r, Nat.add_0_r. subst P.
    split; [reflexivity|]. split; [reflexivity|]. split; [reflexivity|].
    split; [intros; lia|]. left.
    split; [reflexivity|]. split; [reflexivity|]. split; [exact Hab|].
    intros; lia.
  - assert (Hsig : signal_aborted (ui m) = false)
      by (unfold signal_aborted; now rewrite Hab).
    cbv zeta. rewrite pass_loop_step, Hsig. cbv zeta. rewrite Hlen.
    destruct (settled (generate w i)) as [text|e] eqn:Eo.
    + (* the call returns *)
      set (call := {| site := PassCall i |}).
      assert (Hcall : call = pass_call w c0 numPasses memSection i)
        by (unfold call, pass_call; now rewrite HP).
      set (m1 := {| ui := conclude w i text
                            (pressed w i (announce numPasses i (ui m)));
                    issued := issued m ++ [call] |}).
      assert (HP1 : P ++ [text] = returned_texts w (S i)).
      { rewrite returned_texts_S, <- HP. unfold returned_text. now rewrite Eo. }
      destruct (loop_step_results i i text (ui m)) as [Hr _].
      destruct (loop_step_errors i i text (ui m)) as [He _].
      destruct (loop_step_abortRef i i text (ui m) false Hab) as [Ha _].
      cbn [orb] in Ha.
      destruct (stop_pressed (generate w i)) eqn:Es.
      * (* Stop was pressed meanwhile: the next guard breaks the loop *)
        exists 1.
        rewrite pass_loop_aborted
          by (unfold signal_aborted; cbn [ui m1]; now rewrite Ha).
        cbn [fst snd ui issued m1 seq map].
        rewrite Hcall.
        split; [reflexivity|]. split; [exact Hr|]. split; [exact He|].
        split; [intros; lia|].
        right; left. replace (i + 1) with (S i) by lia.
        replace (S i - 1) with i by lia.
        split; [lia|]. split; [now rewrite HP1|]. split; [exact Ha|].
        split; [exact Es|now exists text].
      * destruct (IH (S i) (P ++ [text]) m1) as (n & Hi & Hres & Herr & Hall & Hend).
        { exact Ha. }
        { cbn [issued m1]. rewrite length_app, Hlen. cbn. lia. }
        { exact HP1. }
        exists (S n). cbv zeta in *.
        set (out := pass_loop w c0 numPasses memSection todo (S i) (P ++ [text]) m1) in *.
        assert (Hcomp : completes w i).
        { split; [exact Es|]. now exists text. }
        split.
        { rewrite Hi. cbn [issued m1 seq map]. rewrite Hcall, <- app_assoc.
          reflexivity. }
        split; [rewrite Hres; exact Hr|].
        split; [rewrite Herr; exact He|].
        split.
        { intros j Hj1 Hj2. destruct (Nat.eq_dec j i) as [->|Hne]; [exact Hcomp|].
          apply Hall; lia. }
        replace (i + S n) with (S i + n) by lia.
        destruct Hend as [(Hn & Ho & Hab' & Hc)|[(Hn & Ho & Hab' & Hs & Ht)|(Hn & e & Ho & Hs & Hab')]].
        -- left. split; [lia|]. split; [exact Ho|]. split; [exact Hab'|].
           intros j Hj. destruct (Nat.eq_dec j i) as [->|Hne]; [exact Hcomp|].
           apply Hc; lia.
        -- right; left. split; [lia|]. split; [exact Ho|]. split; [exact Hab'|].
           split; [exact Hs|exact Ht].
        -- right; right. split; [lia|]. exists e.
           split; [exact Ho|]. split; [exact Hs|exact Hab'].
    + (* the call throws *)
      exists 1.
      set (call := {| site := PassCall i |}).
      assert (Hcall : call = pass_call w c0 numPasses memSection i)
        by (unfold call, pass_call; now rewrite HP).
      destruct (loop_step_results i i [] (ui m)) as [_ Hr].
      destruct (loop_step_errors i i [] (ui m)) as [_ He].
      destruct (loop_step_abortRef i i [] (ui m) false Hab) as [_ Ha].
      cbn [orb] in Ha.
      cbn [fst snd ui issued seq map]. rewrite Hcall.
      split; [reflexivity|]. split; [exact Hr|]. split; [exact He|].
      split; [intros; lia|].
      right; right. split; [lia|]. exists e.
      replace (i + 1 - 1) with i by lia.
      split; [reflexivity|]. split; [exact Eo|exact Ha].
Qed.

End Loop.

(** ** After the loop *)

Section Try.

Variable w : world.
Variable c0 : component.
Variable numPasses : jsvalue.
Variable memSection : jsstring.
Variable hasMem : bool.

(** Lines 274-287, unfolded. *)
Lemma final_answer_eq (P : list jsstring) (m : machine) :
  final_answer w c0 numPasses memSection P m =
  if negb (signal_aborted (ui m)) && more_than_one numPasses
     && Nat.ltb 1 (length P)
  then
    let k := length (issued m) in
    let m' := {| ui := pressed w k (announce_synthesis P (ui m));
                 issued := issued m ++ [synthesis_call c0 memSection P] |} in
    match settled (generate w k) with
    | Returned text => (Normal text, m')
    | Threw e => (Thrown e, m')
    end
  else (Normal (List.last P []), m).
Proof.
  unfold final_answer, mbind, M_bind, read, update, callResearchAPI.
  cbn [ui issued].
  destruct (negb (signal_aborted (ui m)) && more_than_one numPasses
            && Nat.ltb 1 (length P)); [|reflexivity].
  cbn [ui issued].
  destruct (settled (generate w (length (issued m)))); reflexivity.
Qed.

(** Lines 289-323: no result is delivered once the signal is aborted or
    when the final answer is empty; [deliver] issues no generation call,
    never throws, and logs no ERROR event. *)
Lemma deliver_spec (P : list jsstring) (fa : jsstring) (m : machine) :
  let out := deliver w c0 hasMem P fa m in
  out.1 = Normal tt
  /\ issued out.2 = issued m
  /\ error_events (thoughts (ui out.2)) = error_events (thoughts (ui m))
  /\ (if negb (signal_aborted (ui m)) && truthy fa
      then results (ui out.2)
           = result_item w c0 fa
               (computeConfidence fa (Z.of_nat (length P)) 0 hasMem)
             :: results (ui m)
      else out.2 = m).
Proof.
  unfold deliver, mbind, M_bind, read, update, mret, M_ret. cbn [ui issued].
  destruct (negb (signal_aborted (ui m)) && truthy fa); [|cbn; auto].
  cbn [ui issued].
  destruct (stop_while_saving w), (memoryEnabled (cfg c0));
    cbn [fst snd ui issued thoughts results setQuery setCurrentPhase
         setProgress setHistory setMemoryContexts];
    rewrite ?stopResearch_thoughts, ?stopResearch_results;
    cbn [thoughts results setActiveResultTab setResults];
    (rewrite error_events_other by discriminate);
    cbn [thoughts setProgress]; auto.
Qed.

(** The [try] block, unfolded into its three stages. *)
Lemma research_try_eq (m : machine) :
  research_try w c0 numPasses memSection hasMem m =
  match pass_loop w c0 numPasses memSection (iterations numPasses) 0 []
          {| ui := prelude c0 numPasses hasMem (ui m); issued := issued m |}
  with
  | (Normal P, m1) =>
      match final_answer w c0 numPasses memSection P m1 with
      | (Normal fa, m2) => deliver w c0 hasMem P fa m2
      | (Thrown e, m2) => (Thrown e, m2)
      end
  | (Thrown e, m1) => (Thrown e, m1)
  end.
Proof.
  unfold research_try, prelude, mbind, M_bind, update, mret, M_ret.
  cbn [ui issued]. destruct hasMem; reflexivity.
Qed.

End Try.

(** ** Whole runs *)

Lemma truthy_nonempty (s : jsstring) : truthy s = true <-> s <> [].
Proof. destruct s; cbn; split; intros; try discriminate; congruence. Qed.

(** The run of [startResearch] once its guard has let it pass. *)
Lemma startResearch_begins (w : world) (c : component) :
  begins c ->
  startResearch w c =
  let numPasses := resolveNumPasses (depth (cfg c)) in
  let memSection :=
    buildMemorySection (activeContextIds (cfg c)) (memoryContexts c) in
  let hasMem := Nat.ltb 0 (size (activeContextIds (cfg c))) in
  let out := research_try w c numPasses memSection hasMem
               {| ui := entered c; issued := [] |} in
  (research_finally
     match out.1 with
     | Normal _ => ui out.2
     | Thrown err => research_catch err (ui out.2)
     end,
   issued out.2).
Proof.
  intros [Hq Hr]. unfold startResearch.
  apply truthy_nonempty in Hq. rewrite Hq, Hr. cbn [negb orb].
  fold (entered c). cbv zeta.
  destruct (research_try _ _ _ _ _ _) as [r m]. reflexivity.
Qed.

Lemma prelude_facts (c0 : component) (numPasses : jsvalue) (hasMem : bool)
    (c : component) :
  abortRef (prelude c0 numPasses hasMem (entered c)) = Some false
  /\ results (prelude c0 numPasses hasMem (entered c)) = results c
  /\ error_events (thoughts (prelude c0 numPasses hasMem (entered c))) = [].
Proof.
  unfold prelude, entered. destruct hasMem; cbn [abortRef results addThought
    setThoughts setProgress setAbortRef setIsResearching thoughts];
    repeat split; reflexivity.
Qed.

Lemma research_finally_facts (c : component) :
  results (research_finally c) = results c
  /\ thoughts (research_finally c) = thoughts c
  /\ isResearching (research_finally c) = false.
Proof. repeat split; reflexivity. Qed.

Lemma research_catch_facts (e : js_error) (c : component) :
  results (research_catch e c) = results c
  /\ error_events (thoughts (research_catch e c))
     = error_events (thoughts c)
       ++ (if bool_decide (err_name e = AbortError) then []
           else [err_message e]).
Proof.
  unfold research_catch. destruct (bool_decide (err_name e = AbortError)).
  - now rewrite app_nil_r.
  - split; [reflexivity|]. rewrite error_events_addThought.
    now rewrite bool_decide_eq_true_2.
Qed.

(** A failing pass, for every pass of the run (the last one too): no
    result, one ERROR event with the message, each pass up to the failing
    one called once and none after it. *)
Lemma pass_failure_general (w : world) (c : component) (N k : nat) (e : js_error) :
  begins c ->
  resolveNumPasses (depth (cfg c)) = VNum N ->
  k < N ->
  (forall j, j < k -> completes w j) ->
  settled (generate w k) = Threw e ->
  err_name e <> AbortError ->
  results (startResearch w c).1 = results c
  /\ error_events (thoughts (startResearch w c).1) = [err_message e]
  /\ map site (startResearch w c).2 = map PassCall (seq 0 (S k))
  /\ isResearching (startResearch w c).1 = false.
Proof.
  intros Hb HN Hk Hprev Hfail Hname.
  rewrite (startResearch_begins w c Hb). cbv zeta.
  rewrite research_try_eq, HN. cbn [iterations ui issued].
  set (mem := buildMemorySection _ _). set (hasMem := Nat.ltb 0 _).
  destruct (prelude_facts c (VNum N) hasMem c) as (Hab0 & Hres0 & Herr0).
  destruct (pass_loop_spec w c (VNum N) mem N 0 []
              {| ui := prelude c (VNum N) hasMem (entered c); issued := [] |}
              Hab0 eq_refl eq_refl)
    as (n & Hi & Hres & Herr & Hall & Hend).
  cbv zeta in *. cbn [ui issued] in *.
  destruct (pass_loop w c (VNum N) mem N 0 [] _) as [r m1].
  cbn [fst snd] in *. rewrite Hres0 in Hres. rewrite Herr0 in Herr.
  assert (Hnot : forall j, completes w j -> j <> k).
  { intros j [_ [t Ht]] ->. congruence. }
  destruct Hend as [(Hn & Ho & Hab' & Hc)|[(Hn & Ho & Hab' & Hs & t & Ht)|(Hn & e' & Ho & Hs & Hab')]].
  - exfalso. apply (Hnot k); [apply Hc; lia|reflexivity].
  - exfalso. cbn [Nat.add] in Hs, Ht.
    destruct (Nat.lt_trichotomy (n - 1) k) as [Hlt|[Heq|Hgt]].
    + destruct (Hprev (n - 1) Hlt) as [Hns _]. congruence.
    + rewrite Heq in Ht. congruence.
    + apply (Hnot k); [apply Hall; lia|reflexivity].
  - cbn [Nat.add] in Hs, Hab'.
    destruct (Nat.lt_trichotomy (n - 1) k) as [Hlt|[Heq|Hgt]].
    + destruct (Hprev (n - 1) Hlt) as [_ [t Ht]]. congruence.
    + rewrite Heq in Hs. assert (e' = e) by congruence. subst e' r.
      destruct (research_catch_facts e (ui m1)) as [Hcr Hce].
      destruct (research_finally_facts (research_catch e (ui m1)))
        as (Hfr & Hft & Hfi).
      cbn [fst snd]. rewrite Hfr, Hft, Hfi, Hcr, Hce, Hres, Herr, Hi.
      rewrite bool_decide_eq_false_2 by exact Hname.
      split; [reflexivity|]. split; [reflexivity|]. split; [|reflexivity].
      cbn [app]. rewrite map_map. cbn [site pass_call].
      replace n with (S k) by lia. reflexivity.
    + exfalso. apply (Hnot k); [apply Hall; lia|reflexivity].
Qed.

(** C3. When the generation call of pass [k] fails, with [k < N - 1] and
    the passes before it completed, the run ends without a ResearchResult;
    its log holds exactly one ERROR event, carrying the message of the
    error; every pass up to [k] was called once, in order, and no call
    follows (no retry, no later pass, no synthesis). *)
Theorem pass_failure (w : world) (c : component) (N k : nat) (e : js_error) :
  begins c ->
  resolveNumPasses (depth (cfg c)) = VNum N ->
  k < N - 1 ->
  (forall j, j < k -> completes w j) ->
  settled (generate w k) = Threw e ->
  err_name e <> AbortError ->
  results (startResearch w c).1 = results c
  /\ error_events (thoughts (startResearch w c).1) = [err_message e]
  /\ map site (startResearch w c).2 = map PassCall (seq 0 (S k))
  /\ isResearching (startResearch w c).1 = false.
Proof.
  intros Hb HN Hk Hprev Hfail Hname.
  apply (pass_failure_general w c N k e); auto. lia.
Qed.

Lemma synthesis_step_facts (w : world) (k : nat) (P : list jsstring)
    (c : component) (b : bool) :
  abortRef c = Some b ->
  results (pressed w k (announce_synthesis P c)) = results c
  /\ error_events (thoughts (pressed w k (announce_synthesis P c)))
     = error_events (thoughts c)
  /\ abortRef (pressed w k (announce_synthesis P c))
     = Some (b || stop_pressed (generate w k)).
Proof.
  intros H. unfold pressed.
  assert (He : error_events (thoughts (announce_synthesis P c))
               = error_events (thoughts c)).
  { unfold announce_synthesis. now rewrite error_events_other by discriminate. }
  destruct (stop_pressed (generate w k)).
  - rewrite stopResearch_results, stopResearch_thoughts, orb_true_r.
    split; [reflexivity|]. split; [exact He|].
    apply (stopResearch_aborted _ b). exact H.
  - rewrite orb_false_r. split; [reflexivity|]. split; [exact He|exact H].
Qed.

Lemma signal_aborted_Some (c : component) (b : bool) :
  abortRef c = Some b -> signal_aborted c = b.
Proof. intros H. unfold signal_aborted. now rewrite H. Qed.

(** C2. A run is suspended, up to the point where its result is produced,
    at its generation calls only, so that is where a cancellation can
    arrive.  When Stop is pressed while a generation call of the run is
    pending (the call of a pass, the first one in particular, or the
    synthesis call), the run ends without a ResearchResult and without
    an ERROR event.  The hypothesis on the calls is the contract of
    [fetch] with an abort signal: a call that is pending when Stop is
    pressed fails with an AbortError (the engine also copes with one that
    returns all the same). *)
Theorem cancellation_during_generation (w : world) (c : component) :
  begins c ->
  (forall k e,
      stop_pressed (generate w k) = true ->
      settled (generate w k) = Threw e ->
      err_name e = AbortError) ->
  (exists k,
      k < length (startResearch w c).2 /\ stop_pressed (generate w k) = true) ->
  results (startResearch w c).1 = results c
  /\ error_events (thoughts (startResearch w c).1) = []
  /\ isResearching (startResearch w c).1 = false.
Proof.
  intros Hb Hwins.
  rewrite (startResearch_begins w c Hb). cbv zeta.
  rewrite research_try_eq. cbn [ui issued].
  set (N := resolveNumPasses _).
  set (mem := buildMemorySection _ _). set (hasMem := Nat.ltb 0 _).
  destruct (prelude_facts c N hasMem c) as (Hab0 & Hres0 & Herr0).
  destruct (pass_loop_spec w c N mem (iterations N) 0 []
              {| ui := prelude c N hasMem (entered c); issued := [] |}
              Hab0 eq_refl eq_refl)
    as (n & Hi & Hres & Herr & Hall & Hend).
  cbv zeta in *. cbn [ui issued] in *.
  destruct (pass_loop w c N mem (iterations N) 0 [] _) as [r m1].
  cbn [fst snd app Nat.add] in *. rewrite Hres0 in Hres. rewrite Herr0 in Herr.
  assert (Hlen : length (issued m1) = n)
    by (rewrite Hi, length_map, length_seq; reflexivity).
  assert (Hquiet : forall j, completes w j -> stop_pressed (generate w j) = false)
    by (intros j [H _]; exact H).
  destruct Hend as [(Hn & Ho & Hab' & Hc)|[(Hn & Ho & Hab' & Hs & t & Ht)|(Hn & e & Ho & Hs & Hab')]];
    subst r.
  - (* every pass completed *)
    rewrite final_answer_eq, (signal_aborted_Some _ _ Hab'). cbn [negb andb].
    destruct (more_than_one N && Nat.ltb 1 (length (returned_texts w n))) eqn:Ec.
    + cbv zeta. rewrite Hlen.
      destruct (synthesis_step_facts w n (returned_texts w n) (ui m1) false Hab')
        as (Hsr & Hse & Hsa). cbn [orb] in Hsa.
      destruct (settled (generate w n)) as [text|e] eqn:Eo.
      * set (m2 := {| ui := pressed w n _ |}).
        destruct (deliver_spec w c hasMem (returned_texts w n) text m2)
          as (Hd1 & Hd2 & Hd3 & Hd4).
        cbv zeta in *.
        destruct (deliver w c hasMem (returned_texts w n) text m2) as [r3 m3].
        cbn [fst snd] in *. subst r3.
        intros (k & Hk & Hstop).
        rewrite Hd2 in Hk. cbn [issued m2] in Hk.
        rewrite length_app, Hlen in Hk. cbn [length] in Hk.
        assert (k = n) as ->.
        { destruct (Nat.eq_dec k n); [assumption|].
          rewrite (Hquiet k) in Hstop by (apply Hc; lia). discriminate. }
        rewrite Hstop in Hsa.
        cbn [ui m2] in Hd4. rewrite (signal_aborted_Some _ _ Hsa) in Hd4.
        cbn [negb andb] in Hd4. rewrite Hd4. cbn [ui m2].
        destruct (research_finally_facts
                    (pressed w n (announce_synthesis (returned_texts w n) (ui m1))))
          as (Hfr & Hft & Hfi).
        rewrite Hfr, Hft, Hfi, Hsr, Hse, Hres, Herr. auto.
      * cbn [fst snd issued ui].
        intros (k & Hk & Hstop).
        rewrite length_app, Hlen in Hk. cbn [length] in Hk.
        assert (k = n) as ->.
        { destruct (Nat.eq_dec k n); [assumption|].
          rewrite (Hquiet k) in Hstop by (apply Hc; lia). discriminate. }
        pose proof (Hwins n e Hstop Eo) as Hname.
        set (c2 := pressed w n _) in *.
        destruct (research_catch_facts e c2) as [Hcr Hce].
        destruct (research_finally_facts (research_catch e c2))
          as (Hfr & Hft & Hfi).
        rewrite Hfr, Hft, Hfi, Hcr, Hce, Hsr, Hse, Hres, Herr.
        rewrite bool_decide_eq_true_2 by exact Hname. auto.
    + destruct (deliver_spec w c hasMem (returned_texts w n)
                  (List.last (returned_texts w n) []) m1)
        as (Hd1 & Hd2 & Hd3 & Hd4).
      cbv zeta in *.
      destruct (deliver w c hasMem _ _ m1) as [r3 m3].
      cbn [fst snd] in *. subst r3.
      intros (k & Hk & Hstop). rewrite Hd2, Hlen in Hk.
      rewrite (Hquiet k) in Hstop by (apply Hc; lia). discriminate.
  - (* Stop was pressed during a pass that returned *)
    intros _.
    rewrite final_answer_eq, (signal_aborted_Some _ _ Hab'). cbn [negb andb].
    destruct (deliver_spec w c hasMem (returned_texts w n)
                (List.last (returned_texts w n) []) m1)
      as (Hd1 & Hd2 & Hd3 & Hd4).
    cbv zeta in *. rewrite (signal_aborted_Some _ _ Hab') in Hd4.
    cbn [negb andb] in Hd4.
    destruct (deliver w c hasMem _ _ m1) as [r3 m3].
    cbn [fst snd] in *. subst r3 m3.
    destruct (research_finally_facts (ui m1)) as (Hfr & Hft & Hfi).
    rewrite Hfr, Hft, Hfi, Hres, Herr. auto.
  - (* a pass threw *)
    cbn [fst snd]. intros (k & Hk & Hstop). rewrite Hlen in Hk.
    assert (k = n - 1) as ->.
    { destruct (Nat.eq_dec k (n - 1)); [assumption|].
      rewrite (Hquiet k) in Hstop by (apply Hall; lia). discriminate. }
    pose proof (Hwins (n - 1) e Hstop Hs) as Hname.
    destruct (research_catch_facts e (ui m1)) as [Hcr Hce].
    destruct (research_finally_facts (research_catch e (ui m1)))
      as (Hfr & Hft & Hfi).
    rewrite Hfr, Hft, Hfi, Hcr, Hce, Hres, Herr.
    rewrite bool_decide_eq_true_2 by exact Hname. auto.
Qed.

(** Once the result is produced (line 306) the run of C2 is over; what
    follows is persistence.  Stop pressed then (the Stop button is shown
    as long as [isResearching] is true) aborts the signal, and the
    ResearchResult stays. *)
Example stop_while_saving_keeps_result :
  let run := startResearch Scenario.stopped_while_saving
               (Scenario.ready (lit "quick")) in
  signal_aborted run.1 = true
  /\ map rr_answer (results run.1) = [lit "## Findings"]
  /\ error_events (thoughts run.1) = [].
Proof. vm_compute. auto. Qed.

(** The hypothesis on interrupted calls is used: the [catch] block looks
    at the name of the error only, so a call that failed with another
    error while Stop was pressed, which [fetch] excludes, would be
    logged. *)
Example interrupted_call_failing_otherwise :
  let run := startResearch Scenario.stopped_and_failing
               (Scenario.ready (lit "quick")) in
  signal_aborted run.1 = true
  /\ results run.1 = []
  /\ error_events (thoughts run.1) = [err_message Scenario.boom].
Proof. vm_compute. auto. Qed.

(** C1. After the pass loop has ended with the outputs [P] of the
    completed passes, the run issues the synthesis call if and only if
    N > 1, [P] has more than one element and the signal is not aborted;
    in every other case it issues no further call and goes on with the
    last element of [P] (the empty text when [P] is empty) as its final
    answer. *)
Theorem synthesis_decision (w : world) (c0 : component) (N : nat)
    (memSection : jsstring) (hasMem : bool) (m0 : machine)
    (P : list jsstring) (m1 : machine) :
  pass_loop w c0 (VNum N) memSection (iterations (VNum N)) 0 []
    {| ui := prelude c0 (VNum N) hasMem (ui m0); issued := issued m0 |}
  = (Normal P, m1) ->
  let out := research_try w c0 (VNum N) memSection hasMem m0 in
  let synthesis := 1 < N /\ 1 < length P /\ signal_aborted (ui m1) = false in
  (issued out.2 = issued m1 ++ [synthesis_call c0 memSection P] <-> synthesis)
  /\ (~ synthesis ->
      issued out.2 = issued m1
      /\ out = deliver w c0 hasMem P (List.last P []) m1).
Proof.
  intros Hloop out synthesis. subst out.
  rewrite research_try_eq, Hloop, final_answer_eq.
  assert (Hcond : negb (signal_aborted (ui m1)) && more_than_one (VNum N)
                  && Nat.ltb 1 (length P) = true <-> synthesis).
  { unfold synthesis. cbn [more_than_one].
    rewrite !andb_true_iff, negb_true_iff, !Nat.ltb_lt. tauto. }
  destruct (negb (signal_aborted (ui m1)) && more_than_one (VNum N)
            && Nat.ltb 1 (length P)) eqn:Ec.
  - assert (Hs : synthesis) by now apply Hcond.
    split; [|tauto]. split; [intros _; exact Hs|intros _].
    cbv zeta. destruct (settled (generate w (length (issued m1)))) as [text|e].
    + match goal with |- issued (deliver ?w ?c ?h ?P ?fa ?m).2 = _ =>
        destruct (deliver_spec w c h P fa m) as (_ & Hd & _) end.
      cbv zeta in Hd. rewrite Hd. reflexivity.
    + reflexivity.
  - assert (Hs : ~ synthesis) by (rewrite <- Hcond; discriminate).
    destruct (deliver_spec w c0 hasMem P (List.last P []) m1) as (_ & Hd & _).
    cbv zeta in Hd.
    split; [|intros _; split; [exact Hd|reflexivity]].
    split; [|tauto]. rewrite Hd. intros H. exfalso.
    apply (f_equal (@length _)) in H. rewrite length_app in H. cbn in H. lia.
Qed.

(** The generation calls of a run are the calls of its first [n] passes,
    followed by at most the synthesis call. *)
Lemma run_calls (w : world) (c : component) :
  let numPasses := resolveNumPasses (depth (cfg c)) in
  let memSection :=
    buildMemorySection (activeContextIds (cfg c)) (memoryContexts c) in
  exists n,
    (startResearch w c).2 = map (pass_call w c numPasses memSection) (seq 0 n)
    \/ (startResearch w c).2
       = map (pass_call w c numPasses memSection) (seq 0 n)
         ++ [synthesis_call c memSection (returned_texts w n)].
Proof.
  intros N mem.
  destruct (negb (truthy (trim (query c))) || isResearching c) eqn:Eg.
  { exists 0. left. unfold startResearch. now rewrite Eg. }
  assert (Hb : begins c).
  { apply orb_false_elim in Eg as [Hq Hr]. split; [|exact Hr].
    apply truthy_nonempty. now apply negb_false_iff. }
  rewrite (startResearch_begins w c Hb). cbv zeta.
  rewrite research_try_eq. cbn [ui issued snd]. fold N mem.
  set (hasMem := Nat.ltb 0 _).
  destruct (prelude_facts c N hasMem c) as (Hab0 & _ & _).
  destruct (pass_loop_spec w c N mem (iterations N) 0 []
              {| ui := prelude c N hasMem (entered c); issued := [] |}
              Hab0 eq_refl eq_refl)
    as (n & Hi & _ & _ & _ & Hend).
  cbv zeta in *. cbn [ui issued app Nat.add] in *.
  destruct (pass_loop w c N mem (iterations N) 0 [] _) as [r m1].
  cbn [fst snd] in *. exists n.
  assert (Hnormal :
    r = Normal (returned_texts w n) ->
    issued
      (match final_answer w c N mem (returned_texts w n) m1 with
       | (Normal fa, m2) => deliver w c hasMem (returned_texts w n) fa m2
       | (Thrown e, m2) => (Thrown e, m2)
       end).2 = issued m1
    \/ issued
      (match final_answer w c N mem (returned_texts w n) m1 with
       | (Normal fa, m2) => deliver w c hasMem (returned_texts w n) fa m2
       | (Thrown e, m2) => (Thrown e, m2)
       end).2 = issued m1 ++ [synthesis_call c mem (returned_texts w n)]).
  { intros _. rewrite final_answer_eq.
    destruct (negb (signal_aborted (ui m1)) && more_than_one N
              && Nat.ltb 1 (length (returned_texts w n))).
    - right. cbv zeta.
      destruct (settled (generate w (length (issued m1)))) as [text|e].
      + match goal with |- issued (deliver ?w ?c ?h ?P ?fa ?m).2 = _ =>
          destruct (deliver_spec w c h P fa m) as (_ & Hd & _) end.
        cbv zeta in Hd. rewrite Hd. reflexivity.
      + reflexivity.
    - left.
      match goal with |- issued (deliver ?w ?c ?h ?P ?fa ?m).2 = _ =>
        destruct (deliver_spec w c h P fa m) as (_ & Hd & _) end.
      cbv zeta in Hd. exact Hd. }
  destruct Hend as [(_ & Ho & _)|[(_ & Ho & _)|(_ & e & Ho & _)]].
  - subst r. destruct (Hnormal eq_refl) as [H|H]; rewrite H, Hi; auto.
  - subst r. destruct (Hnormal eq_refl) as [H|H]; rewrite H, Hi; auto.
  - subst r. left. exact Hi.
Qed.

Lemma flat_map_singleton {A B} (f : A -> B) (l : list A) :
  flat_map (fun x => [f x]) l = map f l.
Proof. induction l as [|x l IH]; cbn; [reflexivity|now rewrite IH]. Qed.

Lemma pass_excerpt_part (r : jsstring) (j : nat) :
  in_order [firstn 500 r ++ lit "..."] (pass_excerpt r j).
Proof.
  exists (lit "[Pass " ++ show_nat (j + 1) ++ lit "]: "), [].
  split; [|exact I]. unfold pass_excerpt, substring0.
  now rewrite <- !app_assoc, app_nil_r.
Qed.

(** The user prompt of a pass holds the excerpts of the outputs before it,
    in their order. *)
Lemma pass_user_excerpts (i : nat) (q mem : jsstring) (P : list jsstring) :
  in_order (map (fun r => firstn 500 r ++ lit "...") P)
    (pass_user i q mem P).
Proof.
  unfold pass_user, prevCtx.
  destruct P as [|r P]; [exact I|].
  change (Nat.eqb (length (r :: P)) 0) with false. cbv iota.
  apply in_order_app_l, in_order_app_l, in_order_app_l.
  apply in_order_app_r.
  apply in_order_app_l, in_order_app_l, in_order_app_l, in_order_app_l.
  rewrite <- flat_map_singleton. apply in_order_join.
  intros x j. apply pass_excerpt_part.
Qed.

(** C7. The user prompt of every pass call of a run: for pass 0 it is the
    query line, the memory block and the directive, with no block of
    previous passes; for a pass i >= 1 it holds, in ascending order, the
    first 500 characters of the output of each pass before it (the whole
    output when it is shorter), each followed by the marker "...". *)
Theorem pass_prompt (w : world) (c : component) (call : gen_call) (i : nat) :
  In call (startResearch w c).2 ->
  site call = PassCall i ->
  let memSection :=
    buildMemorySection (activeContextIds (cfg c)) (memoryContexts c) in
  (i = 0 ->
   userPrompt call
   = lit "RESEARCH QUERY: " ++ query c ++ memSection ++ nl ++ nl ++
     lit "Execute " ++ passLabel 0 ++ lit ". Be thorough and precise.")
  /\ (1 <= i ->
      in_order
        (map (fun r => firstn 500 r ++ lit "...") (returned_texts w i))
        (userPrompt call)).
Proof.
  intros Hin Hsite mem.
  destruct (run_calls w c) as (n & Hcalls). cbv zeta in Hcalls. fold mem in Hcalls.
  assert (Hcall : call = pass_call w c (resolveNumPasses (depth (cfg c))) mem i).
  { assert (Hp : forall l, In call (map (pass_call w c
                   (resolveNumPasses (depth (cfg c))) mem) l) ->
                 call = pass_call w c (resolveNumPasses (depth (cfg c))) mem i).
    { intros l Hl. apply in_map_iff in Hl as (j & <- & _).
      cbn [site pass_call] in Hsite. now inversion Hsite. }
    destruct Hcalls as [H|H]; rewrite H in Hin.
    - now apply (Hp (seq 0 n)).
    - apply in_app_or in Hin as [Hin|[<-|[]]]; [now apply (Hp (seq 0 n))|].
      discriminate Hsite. }
  subst call. cbn [userPrompt pass_call]. split.
  - intros ->. reflexivity.
  - intros _. apply pass_user_excerpts.
Qed.

(** ** The depth table *)

Lemma assoc_none {A} (key : jsstring) (l : list (jsstring * A)) :
  assoc key l = None <-> ~ In key (map fst l).
Proof.
  induction l as [|[k v] l IH]; cbn; [tauto|].
  destruct (bool_decide (k = key)) eqn:E.
  - apply bool_decide_eq_true in E. split; [discriminate|tauto].
  - apply bool_decide_eq_false in E. rewrite IH. tauto.
Qed.

(** The four tiers resolve as the table says, and a string that is neither
    a tier nor the name of a property of [Object.prototype] resolves to 3. *)
Theorem depth_mapping (d : jsstring) :
  resolveNumPasses (lit "quick") = VNum 1
  /\ resolveNumPasses (lit "standard") = VNum 3
  /\ resolveNumPasses (lit "deep") = VNum 5
  /\ resolveNumPasses (lit "exhaustive") = VNum 8
  /\ (~ known_tier d -> ~ In d (map fst object_prototype) ->
      resolveNumPasses d = VNum 3).
Proof.
  repeat (split; [vm_compute; reflexivity|]).
  intros Hk Hp. apply assoc_none in Hp.
  unfold resolveNumPasses, get_property.
  assert (H : depth_table !! d = None).
  { unfold depth_table. apply not_elem_of_list_to_map. cbn.
    unfold known_tier in Hk. rewrite !elem_of_cons, elem_of_nil. intuition. }
  now rewrite H, Hp.
Qed.




(** ** The guard and the session *)

Lemma trim_start_shape (s : jsstring) :
  (trim_start s = [] /\ forallb is_white s = true)
  \/ (exists c s', trim_start s = c :: s' /\ is_white c = false
                   /\ forallb is_white s = false).
Proof.
  induction s as [|c s IH]; [left; auto|].
  cbn [trim_start forallb]. destruct (is_white c) eqn:E.
  - cbn [andb]. exact IH.
  - right. exists c, s. auto.
Qed.

Lemma forallb_rev {A} (f : A -> bool) (l : list A) :
  forallb f (rev l) = forallb f l.
Proof.
  induction l as [|x l IH]; [reflexivity|].
  cbn [rev forallb]. rewrite forallb_app, IH. cbn. 
  destruct (f x), (forallb f l); reflexivity.
Qed.

(** [trim] leaves nothing exactly of the texts made of white space. *)
Lemma trim_empty (s : jsstring) :
  trim s = [] <-> forallb is_white s = true.
Proof.
  unfold trim. split.
  - intros H. destruct (trim_start_shape s) as [[_ Hw]|(c & s' & E & Hc & _)];
      [exact Hw|exfalso].
    assert (H1 : trim_start (rev (trim_start s)) = []).
    { apply (f_equal (@rev _)) in H. now rewrite rev_involutive in H. }
    destruct (trim_start_shape (rev (trim_start s)))
      as [[_ Hw]|(c' & s'' & E' & _)]; [|congruence].
    rewrite forallb_rev, E in Hw. cbn in Hw. now rewrite Hc in Hw.
  - intros H. destruct (trim_start_shape s) as [[E _]|(c & s' & _ & _ & Hw)];
      [|congruence].
    now rewrite E.
Qed.

(** A step that is no Stop, and whose Start comes from a render that is
    up to date, keeps the exclusion. *)
Lemma step_exclusive (s : session) (e : event) :
  is_stop e = false ->
  match e with Start _ => up_to_date s | _ => true end = true ->
  exclusive_run s -> exclusive_run (step s e).
Proof.
  intros He Hup Hinv. destruct e as [q| |suspends| |k next]; [| | |discriminate|].
  - exact Hinv.
  - exact Hinv.
  - cbn [step]. unfold up_to_date in Hup.
    apply andb_prop in Hup as [Hq Hb].
    apply bool_decide_eq_true in Hq. apply Bool.eqb_prop in Hb.
    rewrite Hq, Hb.
    destruct Hinv as [[Hr Hl]|[Hr Hl]].
    + rewrite Hr, orb_true_r. left; auto.
    + rewrite Hr, orb_false_r.
      destruct (negb (truthy (trim (s_query s)))); [right; auto|].
      destruct suspends; [left|right]; cbn; rewrite ?Hl; auto.
  - cbn [step].
    destruct (s_suspended s !! k) as [a|] eqn:Ek; [|exact Hinv].
    destruct (may_follow a next); [|exact Hinv].
    destruct Hinv as [[Hr Hl]|[Hr Hl]].
    + destruct (s_suspended s) as [|b [|b' l]] eqn:El; try discriminate.
      destruct k as [|k]; [|discriminate].
      destruct next as [a'|]; [left|right]; simpl; auto.
    + rewrite Hl in Ek. discriminate.
Qed.

Lemma steps_exclusive (es : list event) (s : session) :
  forallb (fun e => negb (is_stop e)) es = true ->
  starts_up_to_date s es = true ->
  exclusive_run s -> exclusive_run (steps s es).
Proof.
  revert s; induction es as [|e es IH]; intros s Hes Hup Hinv; [exact Hinv|].
  cbn in Hes. apply andb_prop in Hes as [He Hes].
  apply negb_true_iff in He. cbn [starts_up_to_date] in Hup.
  apply andb_prop in Hup as [Hup Hups]. cbn [steps fold_left].
  apply IH; [exact Hes|exact Hups|]. now apply step_exclusive.
Qed.

(** C10, as the code has it. Invoked from a render in which
    [isResearching] is true, or with a query that is empty or only white
    space, [startResearch] returns at once: the component is unchanged
    and no generation call is issued.  The guard reads the values of the
    render that made the handler: as long as Stop is not pressed and
    every invocation comes from a render that is up to date, at most one
    invocation is in flight. *)
Theorem guard_is_noop :
  (forall (w : world) (c : component),
      isResearching c = true \/ forallb is_white (query c) = true ->
      startResearch w c = (c, []))
  /\ (forall (s : session) (suspends : bool),
         s_seen_isResearching s = true
         \/ forallb is_white (s_seen_query s) = true ->
         step s (Start suspends) = s)
  /\ (forall es : list event,
         forallb (fun e => negb (is_stop e)) es = true ->
         starts_up_to_date mounted es = true ->
         in_flight (steps mounted es) <= 1).
Proof.
  split; [|split].
  - intros w c H. unfold startResearch.
    destruct H as [H|H].
    + now rewrite H, orb_true_r.
    + apply trim_empty in H. now rewrite H.
  - intros s suspends H. cbn [step].
    destruct H as [H|H].
    + now rewrite H, orb_true_r.
    + apply trim_empty in H. now rewrite H.
  - intros es Hes Hup.
    assert (H : exclusive_run (steps mounted es)).
    { apply steps_exclusive; [exact Hes|exact Hup|]. right. auto. }
    unfold in_flight. destruct H as [[_ H]|[_ H]]; rewrite H; cbn; lia.
Qed.

(** C10, as stated, fails. The trace, on the code: the user types a query
    and starts a run; the run delivers its result and is suspended at
    [await apiSaveHistory] (line 310, a fetch that the abort signal does
    not reach); Stop sets [isResearching] to false (line 337); the query
    is still there ([setQuery('')] comes at line 321), so the guard of
    line 231 lets a second invocation begin.  Every handler is invoked
    from a render that is up to date.  Two invocations are in flight. *)
Lemma two_runs_in_flight :
  ~ in_flight
      (steps mounted
         [ Edit (lit "X"); Render; Start true;
           Resume 0 (Some AtPersistence); Render;
           Stop; Render; Start true ]) <= 1.
Proof. vm_compute. lia. Qed.

(** The guard at work: a second invocation from a render that shows the
    first one running is refused. *)
Example second_start_refused :
  let es := [ Edit (lit "X"); Render; Start true; Render; Start true ] in
  forallb (fun e => negb (is_stop e)) es = true
  /\ starts_up_to_date mounted es = true
  /\ in_flight (steps mounted es) = 1.
Proof. vm_compute. auto. Qed.

(** Nor does it take a Stop: [startResearch] invoked twice from the same
    render passes the guard twice, for the second invocation reads the
    [isResearching] that its render captured, not the cell that the first
    one has set. *)
Example two_runs_from_one_render :
  in_flight
    (steps mounted [ Edit (lit "X"); Render; Start true; Start true ]) = 2.
Proof. reflexivity. Qed.

(** ** Whole runs, end to end *)

(** The memory block is part of the user prompt of every generation call
    of a run, the synthesis call included: it follows the query. *)
Theorem memory_in_every_prompt (w : world) (c : component) (call : gen_call) :
  In call (startResearch w c).2 ->
  exists pre post,
    userPrompt call
    = pre ++ query c
      ++ buildMemorySection (activeContextIds (cfg c)) (memoryContexts c)
      ++ post.
Proof.
  intros Hin. destruct (run_calls w c) as (n & Hcalls). cbv zeta in Hcalls.
  set (mem := buildMemorySection _ _) in *.
  assert (Hp : forall l,
             In call (map (pass_call w c (resolveNumPasses (depth (cfg c))) mem) l) ->
             exists pre post, userPrompt call = pre ++ query c ++ mem ++ post).
  { intros l Hl. apply in_map_iff in Hl as (j & <- & _).
    cbn [userPrompt pass_call]. unfold pass_user.
    eexists _, _. reflexivity. }
  destruct Hcalls as [H|H]; rewrite H in Hin.
  - now apply (Hp (seq 0 n)).
  - apply in_app_or in Hin as [Hin|[<-|[]]]; [now apply (Hp (seq 0 n))|].
    cbn [userPrompt synthesis_call]. unfold synthesis_user.
    eexists _, _. reflexivity.
Qed.

(** The quick tier, end to end: one pass, no synthesis; the answer of the
    result is the output of pass 0, scored for one completed pass. *)
Theorem quick_run (w : world) (c : component) (text : jsstring) :
  begins c ->
  depth (cfg c) = lit "quick" ->
  generate w 0 = {| settled := Returned text; stop_pressed := false |} ->
  text <> [] ->
  let memSection :=
    buildMemorySection (activeContextIds (cfg c)) (memoryContexts c) in
  let hasMem := Nat.ltb 0 (size (activeContextIds (cfg c))) in
  (startResearch w c).2 = [pass_call w c (VNum 1) memSection 0]
  /\ results (startResearch w c).1
     = result_item w c text (computeConfidence text 1 0 hasMem) :: results c
  /\ error_events (thoughts (startResearch w c).1) = [].
Proof.
  intros Hb Hd Hgen Htext mem hasMem.
  rewrite (startResearch_begins w c Hb). cbv zeta. fold mem hasMem.
  rewrite research_try_eq, Hd.
  change (resolveNumPasses (lit "quick")) with (VNum 1).
  cbn [iterations ui issued].
  destruct (prelude_facts c (VNum 1) hasMem c) as (Hab0 & Hres0 & Herr0).
  rewrite pass_loop_step. cbn [ui issued length].
  rewrite (signal_aborted_Some _ _ Hab0), Hgen. cbn [settled app]. cbv zeta.
  cbn [pass_loop mret M_ret].
  destruct (loop_step_results w (VNum 1) 0 0 text
              (prelude c (VNum 1) hasMem (entered c))) as [Hr _].
  destruct (loop_step_errors w (VNum 1) 0 0 text
              (prelude c (VNum 1) hasMem (entered c))) as [He _].
  destruct (loop_step_abortRef w (VNum 1) 0 0 text
              (prelude c (VNum 1) hasMem (entered c)) false Hab0) as [Ha _].
  rewrite Hgen in Ha. cbn [stop_pressed orb] in Ha.
  set (c1 := conclude w 0 text _) in *.
  rewrite final_answer_eq. cbn [ui more_than_one Nat.ltb Nat.leb andb].
  rewrite andb_false_r. cbn [List.last app].
  match goal with |- context [deliver ?w ?c ?h ?P ?fa ?m] =>
    destruct (deliver_spec w c h P fa m) as (Hd1 & Hd2 & Hd3 & Hd4) end.
  cbv zeta in *. cbn [ui issued] in *.
  rewrite (signal_aborted_Some _ _ Ha) in Hd4.
  apply truthy_nonempty in Htext. rewrite Htext in Hd4. cbn [negb andb] in Hd4.
  destruct (deliver w c hasMem [text] text _) as [r3 m3].
  cbn [fst snd] in *. subst r3.
  destruct (research_finally_facts (ui m3)) as (Hfr & Hft & _).
  rewrite Hfr, Hft, Hd2, Hd3, Hd4, He, Hr, Hres0, Herr0.
  repeat split.
Qed.

(** ** The statements at concrete runs *)

(** The scenario components pass the guard. *)
Lemma ready_begins (d : jsstring) : begins (Scenario.ready d).
Proof. split; [vm_compute; discriminate|reflexivity]. Qed.

(** C1 at the standard tier with every call answering: three passes, then
    the synthesis call. *)
Lemma synthesis_decision_witness :
  let w := Scenario.answering in
  let c0 := Scenario.ready (lit "standard") in
  let m0 := {| ui := entered c0; issued := [] |} in
  let loop :=
    pass_loop w c0 (VNum 3) [] (iterations (VNum 3)) 0 []
      {| ui := prelude c0 (VNum 3) false (ui m0); issued := issued m0 |} in
  loop = (Normal (returned_texts w 3), loop.2)
  /\ issued (research_try w c0 (VNum 3) [] false m0).2
     = issued loop.2 ++ [synthesis_call c0 [] (returned_texts w 3)].
Proof.
  intros w c0 m0 loop.
  assert (H : loop = (Normal (returned_texts w 3), loop.2))
    by (vm_compute; reflexivity).
  split; [exact H|].
  apply (proj1 (synthesis_decision w c0 3 [] false m0 _ _ H)).
  vm_compute. repeat split; lia.
Defined.

(** C2 with Stop pressed during the first call, before any pass completes. *)
Lemma cancellation_during_generation_witness :
  let w := Scenario.stopped_at_once in
  let c := Scenario.ready (lit "standard") in
  (0 < length (startResearch w c).2 /\ stop_pressed (generate w 0) = true)
  /\ results (startResearch w c).1 = results c
  /\ error_events (thoughts (startResearch w c).1) = []
  /\ isResearching (startResearch w c).1 = false.
Proof.
  intros w c.
  assert (H : 0 < length (startResearch w c).2
              /\ stop_pressed (generate w 0) = true)
    by (vm_compute; split; [lia|reflexivity]).
  split; [exact H|].
  apply (cancellation_during_generation w c (ready_begins _)).
  - intros k e _ He. cbn in He. injection He as <-. reflexivity.
  - exists 0. exact H.
Defined.

(** C3 at the standard tier with pass 1 failing. *)
Lemma pass_failure_witness :
  let w := Scenario.failing_at_1 in
  let c := Scenario.ready (lit "standard") in
  settled (generate w 1) = Threw Scenario.boom
  /\ results (startResearch w c).1 = results c
  /\ error_events (thoughts (startResearch w c).1)
     = [err_message Scenario.boom]
  /\ map site (startResearch w c).2 = [PassCall 0; PassCall 1]
  /\ isResearching (startResearch w c).1 = false.
Proof.
  intros w c. split; [reflexivity|].
  apply (pass_failure w c 3 1 Scenario.boom (ready_begins _)).
  - reflexivity.
  - cbn. lia.
  - intros j Hj. assert (j = 0) as -> by lia.
    split; [reflexivity|]. now exists (lit "## Findings").
  - reflexivity.
  - vm_compute. discriminate.
Defined.

(** C8 with the second and the third of three stored contexts selected;
    the answer of the second has 700 letters, of which the block holds
    the first 600. *)
Lemma memory_block_witness :
  let ids : gset jsstring := {[ lit "b"; lit "c" ]} in
  List.filter (fun c => bool_decide (mc_id c ∈ ids)) three_contexts <> []
  /\ exists body,
       buildMemorySection ids three_contexts
       = (nl ++ nl ++ bar ++ bar ++ bar ++ lit " PRIOR RESEARCH CONTEXTS " ++
          bar ++ bar ++ bar ++ nl)
         ++ body
         ++ (nl ++ bar ++ bar ++ bar ++ lit " END CONTEXTS " ++
             bar ++ bar ++ bar ++ nl ++ nl ++
             lit "Use the above prior research to inform your current analysis.")
       /\ in_order
            [ lit "second question"; long_text 600 ++ lit "...";
              lit "third question"; lit "third answer" ++ lit "..." ]
            body.
Proof.
  intros ids.
  assert (Hsel : List.filter (fun c => bool_decide (mc_id c ∈ ids))
                   three_contexts <> [])
    by (vm_compute; discriminate).
  split; [exact Hsel|].
  exact (proj2 (memory_block ids three_contexts) Hsel).
Defined.

(** C7 at pass 2 of the standard tier, with outputs of 700 letters: the
    excerpts of passes 0 and 1 are their first 500 letters. *)
Lemma pass_prompt_witness :
  let w := verbose in
  let c := Scenario.ready (lit "standard") in
  let call := pass_call w c (VNum 3) [] 2 in
  In call (startResearch w c).2
  /\ site call = PassCall 2
  /\ returned_texts w 2 = [long_text 700; long_text 700]
  /\ in_order
       [ long_text 500 ++ lit "..."; long_text 500 ++ lit "..." ]
       (userPrompt call).
Proof.
  intros w c call.
  assert (Hin : In call (startResearch w c).2)
    by (vm_compute; right; right; left; reflexivity).
  split; [exact Hin|]. split; [reflexivity|]. split; [reflexivity|].
  exact (proj2 (pass_prompt w c call 2 Hin eq_refl) (le_S _ _ (le_n 1))).
Defined.

(** The memory block in the prompt of pass 0 of a run. *)
Lemma memory_in_every_prompt_witness :
  let w := Scenario.answering in
  let c := Scenario.ready (lit "standard") in
  let call := pass_call w c (VNum 3) [] 0 in
  In call (startResearch w c).2
  /\ exists pre post,
       userPrompt call
       = pre ++ query c
         ++ buildMemorySection (activeContextIds (cfg c)) (memoryContexts c)
         ++ post.
Proof.
  intros w c call.
  assert (Hin : In call (startResearch w c).2)
    by (vm_compute; left; reflexivity).
  split; [exact Hin|].
  exact (memory_in_every_prompt w c call Hin).
Defined.

(** The quick tier with an answering service. *)
Lemma quick_run_witness :
  let w := Scenario.answering in
  let c := Scenario.ready (lit "quick") in
  generate w 0 = {| settled := Returned (lit "## Findings");
                    stop_pressed := false |}
  /\ (startResearch w c).2 = [pass_call w c (VNum 1) [] 0]
  /\ results (startResearch w c).1
     = [result_item w c (lit "## Findings")
          (computeConfidence (lit "## Findings") 1 0 false)]
  /\ error_events (thoughts (startResearch w c).1) = [].
Proof.
  intros w c. split; [reflexivity|].
  apply (quick_run w c (lit "## Findings") (ready_begins _)).
  - reflexivity.
  - reflexivity.
  - discriminate.
Defined.

(** The base as a lower bound, at a short answer after three passes. *)
Lemma score_at_least_base_witness :
  (0 <= 3)%Z /\ (0 <= 0)%Z
  /\ (45 <= computeConfidence (lit "## Findings") 3 0 true)%Z.
Proof.
  split; [lia|]. split; [lia|].
  apply (score_at_least_base (lit "## Findings") 3 0 true); lia.
Defined.

(** * The rest of the component *)

(** ** Selecting memory contexts *)

Lemma toggleContext_size (id : jsstring) (s : gset jsstring) :
  size s <= 5 -> size (toggleContext id s) <= 5.
Proof.
  intros H. unfold toggleContext.
  destruct (bool_decide (id ∈ s)) eqn:E.
  - etransitivity; [apply subseteq_size|exact H]. set_solver.
  - apply bool_decide_eq_false in E.
    destruct (Nat.ltb (size s) 5) eqn:El; [|exact H].
    apply Nat.ltb_lt in El.
    rewrite size_union by set_solver. rewrite size_singleton. lia.
Qed.

Lemma selections_size (es : list selection_event) :
  size (selections es) <= 5.
Proof.
  unfold selections.
  assert (H : forall s : gset jsstring, size s <= 5 ->
              size (fold_left select_step es s) <= 5).
  { induction es as [|e es IH]; intros s Hs; [exact Hs|].
    cbn [fold_left]. apply IH. destruct e as [id|]; cbn [select_step].
    - now apply toggleContext_size.
    - rewrite size_empty. lia. }
  apply H. rewrite size_empty. lia.
Qed.

(** The selected contexts are no more than the selection when the stored
    contexts have distinct ids. *)
Lemma selected_length (ids : gset jsstring) (ctxs : list MemoryContext) :
  NoDup (map mc_id ctxs) -> length (selected ids ctxs) <= size ids.
Proof.
  intros Hnd.
  assert (Hsub : forall c, In c (selected ids ctxs) -> mc_id c ∈ ids).
  { intros c Hc. unfold selected in Hc. apply filter_In in Hc as [_ Hc].
    now apply bool_decide_eq_true in Hc. }
  assert (Hnd' : NoDup (map mc_id (selected ids ctxs))).
  { unfold selected. clear Hsub. induction ctxs as [|c l IH]; [constructor|].
    cbn [map] in Hnd. apply NoDup_cons in Hnd as [Hc Hl].
    cbn [List.filter]. destruct (bool_decide (mc_id c ∈ ids)); [|now apply IH].
    cbn [map]. apply NoDup_cons. split; [|now apply IH].
    intros Hin. apply Hc. apply list_elem_of_In in Hin. apply list_elem_of_In.
    apply in_map_iff in Hin as (c' & Hid & Hc').
    apply in_map_iff. exists c'. split; [exact Hid|].
    now apply filter_In in Hc' as [Hc' _]. }
  rewrite <- (length_map mc_id).
  rewrite <- (size_list_to_set (C := gset jsstring)) by exact Hnd'.
  apply subseteq_size. intros x Hx.
  apply elem_of_list_to_set in Hx. apply list_elem_of_In in Hx.
  apply in_map_iff in Hx as (c & <- & Hc). now apply Hsub.
Qed.

(** Whatever the user clicks, at most five contexts are selected; and
    when the stored contexts have distinct ids (they are primary keys),
    the memory block of a run is built from at most five of them. *)
Theorem selection_bounded (es : list selection_event)
    (ctxs : list MemoryContext) :
  size (selections es) <= 5
  /\ (NoDup (map mc_id ctxs) ->
      length (selected (selections es) ctxs) <= 5).
Proof.
  split; [apply selections_size|].
  intros Hnd. etransitivity; [now apply selected_length|].
  apply selections_size.
Qed.

Lemma without_elem (id x : jsstring) (l : list jsstring) :
  x ∈ List.filter (fun y => negb (bool_decide (y = id))) l <-> x ∈ l /\ x <> id.
Proof.
  rewrite !list_elem_of_In, filter_In, negb_true_iff.
  split; intros [H1 H2]; (split; [exact H1|]).
  - now apply bool_decide_eq_false in H2.
  - now apply bool_decide_eq_false.
Qed.

Lemma without_absent (id : jsstring) (l : list jsstring) :
  id ∉ l -> List.filter (fun y => negb (bool_decide (y = id))) l = l.
Proof.
  induction l as [|x l IH]; intros H; [reflexivity|].
  apply not_elem_of_cons in H as [Hx Hl]. cbn [List.filter].
  rewrite bool_decide_eq_false_2 by congruence. cbn [negb].
  now rewrite IH.
Qed.

Lemma without_NoDup (id : jsstring) (l : list jsstring) :
  NoDup l -> NoDup (List.filter (fun y => negb (bool_decide (y = id))) l).
Proof.
  induction l as [|x l IH]; intros H; [constructor|].
  apply NoDup_cons in H as [Hx Hl]. cbn [List.filter].
  destruct (negb (bool_decide (x = id))); [|now apply IH].
  apply NoDup_cons. split; [|now apply IH].
  rewrite without_elem. tauto.
Qed.

Lemma without_shorter (id : jsstring) (l : list jsstring) :
  id ∈ l ->
  length (List.filter (fun y => negb (bool_decide (y = id))) l) < length l.
Proof.
  induction l as [|x l IH]; intros H; [now apply elem_of_nil in H|].
  cbn [List.filter length].
  destruct (bool_decide (x = id)) eqn:E; cbn [negb].
  - pose proof (List.filter_length_le
                  (fun y => negb (bool_decide (y = id))) l). lia.
  - apply bool_decide_eq_false in E.
    apply elem_of_cons in H as [H|H]; [congruence|].
    cbn [length]. specialize (IH H). lia.
Qed.

(** Two clicks on the same context leave the members of the selection as
    they were.  The order of the chips is that of insertion: it is kept
    when the first click selects the context (the second takes it away
    again) or is refused because five are selected; a context that was
    selected comes back as the last one. *)
Theorem toggleContext_twice (id : jsstring) (s : list jsstring) :
  NoDup s ->
  length s <= 5 ->
  let once := toggleContext_ordered id s in
  let twice := toggleContext_ordered id once in
  NoDup twice
  /\ (forall x, x ∈ twice <-> x ∈ s)
  /\ (list_to_set once : gset jsstring) = toggleContext id (list_to_set s)
  /\ (id ∉ s -> twice = s)
  /\ (id ∈ s ->
      twice = List.filter (fun x => negb (bool_decide (x = id))) s ++ [id]).
Proof.
  intros Hnd Hlen once twice.
  assert (Hset : (list_to_set once : gset jsstring)
                 = toggleContext id (list_to_set s)).
  { unfold once, toggleContext_ordered, toggleContext.
    rewrite size_list_to_set by exact Hnd.
    destruct (decide (id ∈ s)) as [Hin|Hin].
    - rewrite !bool_decide_eq_true_2 by (try apply elem_of_list_to_set; exact Hin).
      apply set_eq. intros x.
      rewrite elem_of_list_to_set, without_elem, elem_of_difference,
        elem_of_list_to_set, elem_of_singleton. tauto.
    - rewrite !bool_decide_eq_false_2
        by (try rewrite elem_of_list_to_set; exact Hin).
      destruct (Nat.ltb (length s) 5); [|reflexivity].
      rewrite list_to_set_app_L. cbn. set_solver. }
  split; [|split; [|split; [exact Hset|]]].
  - unfold twice, once, toggleContext_ordered.
    destruct (decide (id ∈ s)) as [Hin|Hin].
    + rewrite (bool_decide_eq_true_2 _ Hin).
      rewrite bool_decide_eq_false_2 by (rewrite without_elem; tauto).
      pose proof (without_shorter id s Hin) as Hs.
      rewrite (proj2 (Nat.ltb_lt _ _)) by lia.
      apply NoDup_app. split; [now apply without_NoDup|].
      split; [|apply NoDup_singleton].
      intros x Hx Hx'. apply list_elem_of_singleton in Hx'. subst x.
      apply without_elem in Hx. tauto.
    + rewrite (bool_decide_eq_false_2 _ Hin).
      destruct (Nat.ltb (length s) 5) eqn:E5.
      * rewrite bool_decide_eq_true_2 by (apply elem_of_app; right; now left).
        apply without_NoDup, NoDup_app. split; [exact Hnd|].
        split; [|apply NoDup_singleton].
        intros x Hx Hx'. apply list_elem_of_singleton in Hx'. congruence.
      * rewrite (bool_decide_eq_false_2 _ Hin), E5. exact Hnd.
  - intros x. unfold twice, once, toggleContext_ordered.
    destruct (decide (id ∈ s)) as [Hin|Hin].
    + rewrite (bool_decide_eq_true_2 _ Hin).
      rewrite bool_decide_eq_false_2 by (rewrite without_elem; tauto).
      pose proof (without_shorter id s Hin) as Hs.
      rewrite (proj2 (Nat.ltb_lt _ _)) by lia.
      rewrite elem_of_app, without_elem, list_elem_of_singleton.
      destruct (decide (x = id)) as [->|Hne]; tauto.
    + rewrite (bool_decide_eq_false_2 _ Hin).
      destruct (Nat.ltb (length s) 5) eqn:E5.
      * rewrite bool_decide_eq_true_2 by (apply elem_of_app; right; now left).
        rewrite without_elem, elem_of_app, list_elem_of_singleton.
        split; [intros [[H|H] Hne]; [exact H|contradiction]|].
        intros H. split; [now left|]. intros ->. contradiction.
      * now rewrite (bool_decide_eq_false_2 _ Hin), E5.
  - split.
    + intros Hin. unfold twice, once, toggleContext_ordered.
      rewrite (bool_decide_eq_false_2 _ Hin).
      destruct (Nat.ltb (length s) 5) eqn:E5.
      * rewrite bool_decide_eq_true_2 by (apply elem_of_app; right; now left).
        rewrite List.filter_app, (without_absent id s Hin). cbn [List.filter].
        rewrite bool_decide_eq_true_2 by reflexivity. cbn [negb].
        apply app_nil_r.
      * now rewrite (bool_decide_eq_false_2 _ Hin), E5.
    + intros Hin. unfold twice, once, toggleContext_ordered.
      rewrite (bool_decide_eq_true_2 _ Hin).
      rewrite bool_decide_eq_false_2 by (rewrite without_elem; tauto).
      pose proof (without_shorter id s Hin) as Hs.
      now rewrite (proj2 (Nat.ltb_lt _ _)) by lia.
Qed.

(** ** Relative times *)

(** For timestamps in the range where doubles are exact: less than a
    minute ago, and any time in the future, reads "just now"; then whole
    minutes from 1 to 59, whole hours from 1 to 23, and whole days from
    1 on, each rounded down. *)
Theorem timeAgo_units (now ts : Z) :
  (0 <= now < 2 ^ 53)%Z ->
  (0 <= ts < 2 ^ 53)%Z ->
  let d := (now - ts)%Z in
  ((d < 60000)%Z -> timeAgo now ts = lit "just now")
  /\ ((60000 <= d < 3600000)%Z ->
      timeAgo now ts = show_Z (d / 60000) ++ lit "m ago"
      /\ (1 <= d / 60000 <= 59)%Z)
  /\ ((3600000 <= d < 86400000)%Z ->
      timeAgo now ts = show_Z (d / 3600000) ++ lit "h ago"
      /\ (1 <= d / 3600000 <= 23)%Z)
  /\ ((86400000 <= d)%Z ->
      timeAgo now ts = show_Z (d / 86400000) ++ lit "d ago"
      /\ (1 <= d / 86400000)%Z).
Proof.
  intros _ _ d. unfold timeAgo. fold d. cbv zeta.
  assert (Hm : (d / 1000 / 60 = d / 60000)%Z)
    by (rewrite Z.div_div by lia; reflexivity).
  assert (Hh : (d / 1000 / 3600 = d / 3600000)%Z)
    by (rewrite Z.div_div by lia; reflexivity).
  assert (Hd : (d / 1000 / 86400 = d / 86400000)%Z)
    by (rewrite Z.div_div by lia; reflexivity).
  rewrite Hm, Hh, Hd.
  split; [|split; [|split]]; intros H.
  - assert (d / 1000 < 60)%Z by (apply Z.div_lt_upper_bound; lia).
    now rewrite (proj2 (Z.ltb_lt _ _)).
  - assert (60 <= d / 1000)%Z by (apply Z.div_le_lower_bound; lia).
    assert (d / 1000 < 3600)%Z by (apply Z.div_lt_upper_bound; lia).
    rewrite (proj2 (Z.ltb_ge _ _)) by assumption.
    rewrite (proj2 (Z.ltb_lt _ _)) by assumption.
    split; [reflexivity|]. split.
    + apply Z.div_le_lower_bound; lia.
    + assert (d / 60000 < 60)%Z by (apply Z.div_lt_upper_bound; lia). lia.
  - assert (3600 <= d / 1000)%Z by (apply Z.div_le_lower_bound; lia).
    assert (d / 1000 < 86400)%Z by (apply Z.div_lt_upper_bound; lia).
    rewrite (proj2 (Z.ltb_ge (d / 1000) 60)) by lia.
    rewrite (proj2 (Z.ltb_ge (d / 1000) 3600)) by assumption.
    rewrite (proj2 (Z.ltb_lt _ _)) by assumption.
    split; [reflexivity|]. split.
    + apply Z.div_le_lower_bound; lia.
    + assert (d / 3600000 < 24)%Z by (apply Z.div_lt_upper_bound; lia). lia.
  - assert (86400 <= d / 1000)%Z by (apply Z.div_le_lower_bound; lia).
    rewrite (proj2 (Z.ltb_ge (d / 1000) 60)) by lia.
    rewrite (proj2 (Z.ltb_ge (d / 1000) 3600)) by lia.
    rewrite (proj2 (Z.ltb_ge (d / 1000) 86400)) by lia.
    split; [reflexivity|]. apply Z.div_le_lower_bound; lia.
Qed.

(** ** The scorer, further *)

(** More completed passes, more document chunks or the memory flag never
    lower the score of an answer. *)
Theorem score_monotone (a : jsstring) (n n' d d' : Z) (m : bool) :
  (n <= n')%Z -> (d <= d')%Z ->
  (computeConfidence a n d m <= computeConfidence a n' d' m)%Z
  /\ (computeConfidence a n d false <= computeConfidence a n d true)%Z.
Proof.
  intros Hn Hd.
  assert (Hq : forall x y : Z, (x <= y)%Z -> (inject_Z x <= inject_Z y)%Q)
    by (intros x y H; now rewrite <- Zle_Qle).
  assert (H1 : (Qmin 18 (inject_Z n * 3.5) <= Qmin 18 (inject_Z n' * 3.5))%Q).
  { apply Q.min_le_compat_l. apply Qmult_le_compat_r; [now apply Hq|lra]. }
  assert (H2 : (Qmin 12 (inject_Z d * 2) <= Qmin 12 (inject_Z d' * 2))%Q).
  { apply Q.min_le_compat_l. apply Qmult_le_compat_r; [now apply Hq|lra]. }
  unfold computeConfidence. split.
  - apply Z.min_le_compat_l, Z.max_le_compat_l. unfold js_round.
    apply Qfloor_resp_le.
    destruct m, (includes (lit "##") a || includes (lit "|") a); cbv zeta; lra.
  - apply Z.min_le_compat_l, Z.max_le_compat_l. unfold js_round.
    apply Qfloor_resp_le.
    destruct (includes (lit "##") a || includes (lit "|") a); cbv zeta; lra.
Qed.

(** A completed pass lifts the score to 49 at least. *)
Lemma score_with_pass (a : jsstring) (n : Z) (m : bool) :
  (1 <= n)%Z -> (49 <= computeConfidence a n 0 m <= 97)%Z.
Proof.
  intros Hn. split; [|unfold computeConfidence; lia].
  unfold computeConfidence.
  apply Z.min_glb; [lia|]. apply Z.max_le_iff. right.
  unfold js_round.
  apply (Z.le_trans _ (Qfloor 49)); [vm_compute; discriminate|].
  apply Qfloor_resp_le.
  assert (H1 : (0 <= Qmin 15 (inject_Z (Z.of_nat (length (split space a))) / 120))%Q).
  { apply Q.min_glb; [lra|]. apply Qle_shift_div_l; [lra|].
    rewrite Qmult_0_l. change 0%Q with (inject_Z 0). rewrite <- Zle_Qle. lia. }
  assert (H2 : (3.5 <= Qmin 18 (inject_Z n * 3.5))%Q).
  { apply Q.min_glb; [lra|].
    assert (1 <= inject_Z n)%Q
      by (change 1%Q with (inject_Z 1); now rewrite <- Zle_Qle).
    nra. }
  assert (H3 : (0 <= Qmin 12 (inject_Z 0 * 2))%Q) by (vm_compute; discriminate).
  assert (H4 : (0 <= Qmin 10 (inject_Z (Z.of_nat
                 (length (match_all evidence_phrases 0 a))) * 1.5))%Q).
  { apply Q.min_glb; [lra|]. apply Qmult_le_0_compat; [|lra].
    change 0%Q with (inject_Z 0). rewrite <- Zle_Qle. lia. }
  destruct m, (includes (lit "##") a || includes (lit "|") a); cbv zeta; lra.
Qed.
(** ** Escaping the answer *)

Lemma replace_unit_app (c : N) (rep s t : jsstring) :
  replace_unit c rep (s ++ t) = replace_unit c rep s ++ replace_unit c rep t.
Proof.
  induction s as [|x s IH]; [reflexivity|].
  cbn [app replace_unit]. now rewrite IH, <- app_assoc.
Qed.

(** The three replacements in a row act on each unit by itself. *)
Lemma md_escape_cons (x : N) (s : jsstring) :
  md_escape (x :: s)
  = (if N.eqb x ampersand then lit "&amp;"
     else if N.eqb x less_than then lit "&lt;"
     else if N.eqb x greater_than then lit "&gt;"
     else [x]) ++ md_escape s.
Proof.
  unfold md_escape. cbn [replace_unit].
  rewrite !replace_unit_app. f_equal.
  destruct (N.eqb x ampersand) eqn:Ea; [reflexivity|].
  cbn [replace_unit app].
  destruct (N.eqb x less_than) eqn:El; [reflexivity|].
  cbn [replace_unit app]. rewrite app_nil_r.
  destruct (N.eqb x greater_than); reflexivity.
Qed.

Lemma md_escape_nil : md_escape [] = [].
Proof. reflexivity. Qed.

Lemma md_escape_no (c : N) (s : jsstring) :
  c = less_than \/ c = greater_than -> ~ In c (md_escape s).
Proof.
  intros Hc. induction s as [|x s IH]; [intros []|].
  rewrite md_escape_cons. intros Hin. apply in_app_or in Hin as [Hin|Hin];
    [|now apply IH].
  destruct (N.eqb x ampersand) eqn:Ea;
    [destruct Hc; subst c; vm_compute in Hin; intuition discriminate|].
  destruct (N.eqb x less_than) eqn:El;
    [destruct Hc; subst c; vm_compute in Hin; intuition discriminate|].
  destruct (N.eqb x greater_than) eqn:Eg;
    [destruct Hc; subst c; vm_compute in Hin; intuition discriminate|].
  destruct Hin as [<-|[]].
  destruct Hc as [->| ->]; [now rewrite N.eqb_refl in El|now rewrite N.eqb_refl in Eg].
Qed.

Lemma md_escape_head (x : N) (s : jsstring) :
  (x = 38%N /\ md_escape (x :: s) = [38; 97; 109; 112; 59]%N ++ md_escape s)
  \/ (x = 60%N /\ md_escape (x :: s) = [38; 108; 116; 59]%N ++ md_escape s)
  \/ (x = 62%N /\ md_escape (x :: s) = [38; 103; 116; 59]%N ++ md_escape s)
  \/ (x <> 38%N /\ md_escape (x :: s) = x :: md_escape s).
Proof.
  rewrite md_escape_cons. unfold ampersand, less_than, greater_than.
  destruct (N.eqb x 38) eqn:Ea; [apply N.eqb_eq in Ea; left; auto|].
  destruct (N.eqb x 60) eqn:El; [apply N.eqb_eq in El; right; left; auto|].
  destruct (N.eqb x 62) eqn:Eg; [apply N.eqb_eq in Eg; right; right; left; auto|].
  apply N.eqb_neq in Ea. right; right; right. auto.
Qed.

Lemma md_escape_injective (s t : jsstring) :
  md_escape s = md_escape t -> s = t.
Proof.
  revert t; induction s as [|x s IH]; intros [|y t] H.
  - reflexivity.
  - exfalso. rewrite md_escape_nil in H.
    destruct (md_escape_head y t) as [[_ E]|[[_ E]|[[_ E]|[_ E]]]];
      rewrite E in H; discriminate.
  - exfalso. rewrite md_escape_nil in H.
    destruct (md_escape_head x s) as [[_ E]|[[_ E]|[[_ E]|[_ E]]]];
      rewrite E in H; discriminate.
  - destruct (md_escape_head x s) as [[Hx E]|[[Hx E]|[[Hx E]|[Hx E]]]];
    destruct (md_escape_head y t) as [[Hy F]|[[Hy F]|[[Hy F]|[Hy F]]]];
    rewrite E, F in H; cbn [app] in H; try discriminate H;
    try (injection H as H; subst; f_equal; now apply IH);
    injection H as H0 H; congruence.
Qed.

(** The escaped text holds no [<] and no [>], so no markup of the answer
    reaches the page as markup; distinct answers stay distinct; and a
    text without [&], [<] and [>] is left as it is. *)
Theorem md_escape_safe (s t : jsstring) :
  ~ In less_than (md_escape s)
  /\ ~ In greater_than (md_escape s)
  /\ (md_escape s = md_escape t -> s = t)
  /\ (~ In ampersand s -> ~ In less_than s -> ~ In greater_than s ->
      md_escape s = s).
Proof.
  split; [apply md_escape_no; auto|].
  split; [apply md_escape_no; auto|].
  split; [apply md_escape_injective|].
  induction s as [|x s IH]; [reflexivity|].
  intros Ha Hl Hg. rewrite md_escape_cons.
  rewrite (proj2 (N.eqb_neq x ampersand)) by (intros ->; apply Ha; now left).
  rewrite (proj2 (N.eqb_neq x less_than)) by (intros ->; apply Hl; now left).
  rewrite (proj2 (N.eqb_neq x greater_than)) by (intros ->; apply Hg; now left).
  cbn [app]. f_equal. apply IH; intros H; [apply Ha|apply Hl|apply Hg]; now right.
Qed.

(** ** The model badge *)

Lemma split_cons_shape (sep : N) (s : jsstring) :
  exists p ps, split sep s = p :: ps.
Proof.
  destruct s as [|c s]; cbn [split]; [now exists [], []|].
  destruct (N.eqb c sep); [now eexists _, _|].
  destruct (split sep s) as [|p ps]; now eexists _, _.
Qed.

(** [s.split(c).join(c)] gives [s] back. *)
Lemma join_split (sep : N) (s : jsstring) :
  join [sep] (split sep s) = s.
Proof.
  induction s as [|c s IH]; [reflexivity|].
  cbn [split]. destruct (split_cons_shape sep s) as (p & ps & E).
  rewrite E in *. destruct (N.eqb c sep) eqn:Ec.
  - apply N.eqb_eq in Ec. subst c.
    change (join [sep] ([] :: p :: ps)) with ([sep] ++ join [sep] (p :: ps)).
    now rewrite IH.
  - destruct ps as [|q ps].
    + cbn [join] in *. now rewrite IH.
    + change (join [sep] ((c :: p) :: q :: ps))
        with (c :: (p ++ [sep] ++ join [sep] (q :: ps))).
      change (join [sep] (p :: q :: ps))
        with (p ++ [sep] ++ join [sep] (q :: ps)) in IH.
      now rewrite IH.
Qed.

Lemma split_pieces_free (sep : N) (s p : jsstring) :
  In p (split sep s) -> ~ In sep p.
Proof.
  revert p; induction s as [|c s IH]; intros p Hp.
  - destruct Hp as [<-|[]]. intros [].
  - cbn [split] in Hp. destruct (N.eqb c sep) eqn:Ec.
    + destruct Hp as [<-|Hp]; [intros []|now apply IH].
    + apply N.eqb_neq in Ec.
      destruct (split sep s) as [|q qs].
      * destruct Hp as [<-|[]]. intros [H|[]]. congruence.
      * destruct Hp as [<-|Hp].
        -- intros [H|H]; [congruence|]. apply (IH q); [now left|exact H].
        -- apply IH. now right.
Qed.

Lemma join_last (sep : N) (l : list jsstring) :
  l <> [] ->
  exists pre, join [sep] l = pre ++ List.last l []
              /\ (pre = [] \/ exists pre', pre = pre' ++ [sep]).
Proof.
  induction l as [|p l IH]; [congruence|]. intros _.
  destruct l as [|q l].
  - exists []. split; [reflexivity|now left].
  - destruct IH as (pre & E & Hsh); [discriminate|].
    change (List.last (p :: q :: l) []) with (List.last (q :: l) []).
    change (join [sep] (p :: q :: l)) with (p ++ [sep] ++ join [sep] (q :: l)).
    rewrite E. exists (p ++ [sep] ++ pre). split.
    + now rewrite <- !app_assoc.
    + right. destruct Hsh as [->|[pre' ->]].
      * exists p. now rewrite app_nil_r.
      * exists (p ++ [sep] ++ pre'). now rewrite <- !app_assoc.
Qed.

Lemma join_firstn (sep : N) (k : nat) (l : list jsstring) :
  1 <= k ->
  exists rest,
    join [sep] l = join [sep] (firstn k l) ++ rest
    /\ (rest = [] \/ exists r, rest = sep :: r).
Proof.
  revert k; induction l as [|p l IH]; intros k Hk.
  - exists []. rewrite firstn_nil. auto.
  - destruct k as [|k]; [lia|].
    cbn [firstn]. destruct l as [|q l].
    + rewrite firstn_nil. exists []. rewrite app_nil_r. auto.
    + change (join [sep] (p :: q :: l)) with (p ++ [sep] ++ join [sep] (q :: l)).
      destruct k as [|k].
      * cbn [firstn join]. eexists. split; [reflexivity|]. right. now eexists.
      * destruct (IH (S k)) as (rest & E & Hrest); [lia|].
        cbn [firstn] in *.
        change (join [sep] (p :: q :: firstn k l))
          with (p ++ [sep] ++ join [sep] (q :: firstn k l)).
        rewrite E. exists rest. split; [now rewrite <- !app_assoc|exact Hrest].
Qed.

(** Between pieces that are free of the separator, [join] puts one
    separator less than there are pieces. *)
Lemma join_count (sep : N) (l : list jsstring) :
  (forall p, In p l -> ~ In sep p) ->
  count_occ N.eq_dec (join [sep] l) sep = length l - 1.
Proof.
  induction l as [|p l IH]; intros Hfree; [reflexivity|].
  assert (Hp : count_occ N.eq_dec p sep = 0)
    by (apply count_occ_not_In, Hfree; now left).
  destruct l as [|q l].
  - cbn [join length]. exact Hp.
  - change (join [sep] (p :: q :: l)) with (p ++ [sep] ++ join [sep] (q :: l)).
    rewrite !count_occ_app, Hp, IH by (intros r Hr; apply Hfree; now right).
    cbn [count_occ length]. destruct (N.eq_dec sep sep); [lia|congruence].
Qed.

(** The badge is a part of the model name: it starts the segment after
    the last slash, it ends where that segment ends or just before a
    dash, and it holds at most three dash-separated parts. *)
Theorem model_badge_part (model : jsstring) :
  exists pre rest,
    model = pre ++ model_badge model ++ rest
    /\ (pre = [] \/ exists pre', pre = pre' ++ [slash])
    /\ ~ In slash (model_badge model)
    /\ ~ In slash rest
    /\ (rest = [] \/ exists r, rest = dash :: r)
    /\ count_occ N.eq_dec (model_badge model) dash <= 2.
Proof.
  unfold model_badge.
  destruct (split_cons_shape slash model) as (p & ps & E).
  destruct (join_last slash (split slash model)) as (pre & Hj & Hpre);
    [now rewrite E|].
  rewrite join_split in Hj.
  set (seg := List.last (split slash model) []) in *.
  assert (Hseg : ~ In slash seg).
  { apply (split_pieces_free slash model). unfold seg. rewrite E.
    destruct (exists_last (l := p :: ps)) as (l' & a & El); [discriminate|].
    rewrite El, last_last. rewrite <- El at 1.
    rewrite <- E, E, El. apply in_or_app. right. now left. }
  destruct (join_firstn dash 3 (split dash seg)) as (rest & Hr & Hrest);
    [lia|].
  rewrite join_split in Hr.
  exists pre, rest. split; [now rewrite <- Hr|]. split; [exact Hpre|].
  split; [intros H; apply Hseg; rewrite Hr; apply in_or_app; auto|].
  split; [intros H; apply Hseg; rewrite Hr; apply in_or_app; auto|].
  split; [exact Hrest|].
  rewrite join_count.
  - pose proof (firstn_le_length 3 (split dash seg)). lia.
  - intros q Hq. apply (split_pieces_free dash seg).
    rewrite <- (firstn_skipn 3 (split dash seg)). apply in_or_app. now left.
Qed.

(** ** What a run keeps and what it appends *)

Lemma stopResearch_query (c : component) :
  query (stopResearch c) = query c.
Proof. unfold stopResearch. destruct (abortRef c); reflexivity. Qed.

Section Frames.

Variable w : world.
Variable c0 : component.
Variable numPasses : jsvalue.
Variable memSection : jsstring.

Lemma loop_step_kept (i k : nat) (text : jsstring) (c : component) :
  (query (conclude w i text (pressed w k (announce numPasses i c))) = query c
   /\ exists l, thoughts (conclude w i text (pressed w k (announce numPasses i c)))
                = thoughts c ++ l)
  /\ (query (pressed w k (announce numPasses i c)) = query c
      /\ exists l, thoughts (pressed w k (announce numPasses i c))
                   = thoughts c ++ l).
Proof.
  unfold conclude, pressed, announce.
  destruct (stop_pressed (generate w k));
    cbn [query thoughts addThought setThoughts setProgress setCurrentPhase];
    rewrite ?stopResearch_query, ?stopResearch_thoughts;
    cbn [query thoughts addThought setThoughts setProgress setCurrentPhase];
    (split; (split; [reflexivity|]));
    rewrite <- ?app_assoc; eexists; reflexivity.
Qed.

(** The loop leaves the query alone and only appends to the log. *)
Lemma pass_loop_kept (todo : nat) :
  forall (i : nat) (P : list jsstring) (m : machine),
    let out := pass_loop w c0 numPasses memSection todo i P m in
    query (ui out.2) = query (ui m)
    /\ exists l, thoughts (ui out.2) = thoughts (ui m) ++ l.
Proof.
  induction todo as [|todo IH]; intros i P m.
  - cbn. split; [reflexivity|]. exists []. now rewrite app_nil_r.
  - cbv zeta. rewrite pass_loop_step.
    destruct (signal_aborted (ui m)).
    { cbn. split; [reflexivity|]. exists []. now rewrite app_nil_r. }
    cbv zeta.
    destruct (loop_step_kept i (length (issued m))
                (match settled (generate w (length (issued m))) with
                 | Returned t => t | Threw _ => [] end) (ui m))
      as [[Hq1 [l1 Hl1]] [Hq2 [l2 Hl2]]].
    destruct (settled (generate w (length (issued m)))) as [text|e].
    + match goal with |- context [pass_loop _ _ _ _ todo ?i' ?P' ?m'] =>
        specialize (IH i' P' m') end.
      cbv zeta in IH. destruct IH as [IHq [l IHl]].
      rewrite IHq, IHl. cbn [ui]. rewrite Hq1, Hl1.
      split; [reflexivity|]. exists (l1 ++ l). now rewrite app_assoc.
    + cbn [snd ui]. rewrite Hq2, Hl2. split; [reflexivity|]. now exists l2.
Qed.

End Frames.

Lemma deliver_more (w : world) (c : component) (hasMem : bool)
    (P : list jsstring) (fa : jsstring) (m : machine) :
  let out := deliver w c hasMem P fa m in
  (exists l, thoughts (ui out.2) = thoughts (ui m) ++ l)
  /\ (negb (signal_aborted (ui m)) && truthy fa = true ->
      query (ui out.2) = []).
Proof.
  unfold deliver, mbind, M_bind, read, update, mret, M_ret. cbn [ui issued].
  destruct (negb (signal_aborted (ui m)) && truthy fa).
  - cbn [ui issued].
    destruct (stop_while_saving w), (memoryEnabled (cfg c));
      cbn [fst snd ui issued thoughts query setQuery setCurrentPhase
           setProgress setHistory setMemoryContexts];
      rewrite ?stopResearch_thoughts;
      cbn [thoughts setActiveResultTab setResults addThought setThoughts
           setProgress];
      (split; [eexists; reflexivity|reflexivity]).
  - cbn. split; [exists []; now rewrite app_nil_r|discriminate].
Qed.

Lemma synthesis_step_query (w : world) (k : nat) (P : list jsstring)
    (c1 : component) :
  query (pressed w k (announce_synthesis P c1)) = query c1.
Proof.
  unfold pressed. destruct (stop_pressed (generate w k));
    [rewrite stopResearch_query|]; reflexivity.
Qed.

Lemma research_catch_query (e : js_error) (c1 : component) :
  query (research_catch e c1) = query c1.
Proof.
  unfold research_catch. destruct (bool_decide _); reflexivity.
Qed.

(** From the end of the loop on. *)
Lemma after_loop (w : world) (c : component) (N : jsvalue) (mem : jsstring)
    (P : list jsstring) (m1 : machine) (b : bool) :
  abortRef (ui m1) = Some b ->
  results (ui m1) = results c ->
  query (ui m1) = query c ->
  error_events (thoughts (ui m1)) = [] ->
  let hasMem := Nat.ltb 0 (size (activeContextIds (cfg c))) in
  let out :=
    match final_answer w c N mem P m1 with
    | (Normal fa, m2) => deliver w c hasMem P fa m2
    | (Thrown e, m2) => (Thrown e, m2)
    end in
  kept_or_delivered w c
    (research_finally
       match out.1 with
       | Normal _ => ui out.2
       | Thrown err => research_catch err (ui out.2)
       end).
Proof.
  intros Hab Hres Hq Herr hasMem. cbv zeta.
  assert (Hfin : forall c1, results c1 = results c -> query c1 = query c ->
                            kept_or_delivered w c (research_finally c1)).
  { intros c1 H1 H2. left. split; assumption. }
  assert (Hdel : forall fa m2 b2,
             abortRef (ui m2) = Some b2 ->
             results (ui m2) = results c -> query (ui m2) = query c ->
             error_events (thoughts (ui m2)) = [] ->
             (truthy fa = true -> 1 <= length P) ->
             let out := deliver w c hasMem P fa m2 in
             kept_or_delivered w c
               (research_finally
                  match out.1 with
                  | Normal _ => ui out.2
                  | Thrown err => research_catch err (ui out.2)
                  end)).
  { intros fa m2 b2 Hab2 Hres2 Hq2 Herr2 Hlen. cbv zeta.
    destruct (deliver_spec w c hasMem P fa m2) as (Hd1 & Hd2 & Hd3 & Hd4).
    destruct (deliver_more w c hasMem P fa m2) as (_ & Hd5).
    cbv zeta in *.
    destruct (deliver w c hasMem P fa m2) as [r3 m3].
    cbn [fst snd] in *. subst r3.
    destruct (negb (signal_aborted (ui m2)) && truthy fa) eqn:Ec.
    - unfold kept_or_delivered. cbv zeta. fold hasMem.
      right. apply andb_prop in Ec as [_ Ht].
      exists fa, (length P). split; [now apply Hlen|].
      split; [now apply truthy_nonempty|].
      split; [change (results (ui m3) = result_item w c fa
                 (computeConfidence fa (Z.of_nat (length P)) 0 hasMem)
                 :: results c); now rewrite Hd4, Hres2|].
      split; [apply score_with_pass; specialize (Hlen Ht); lia|].
      split; [change (query (ui m3) = []); now apply Hd5|].
      change (error_events (thoughts (ui m3)) = []). now rewrite Hd3.
    - subst m3. now apply Hfin. }
  rewrite final_answer_eq.
  destruct (negb (signal_aborted (ui m1)) && more_than_one N
            && Nat.ltb 1 (length P)) eqn:Ec.
  - cbv zeta.
    destruct (synthesis_step_facts w (length (issued m1)) P (ui m1) b Hab)
      as (Hsr & Hse & Hsa).
    pose proof (synthesis_step_query w (length (issued m1)) P (ui m1)) as Hsq.
    destruct (settled (generate w (length (issued m1)))) as [text|e].
    + eapply Hdel; cbn [ui]; eauto; try congruence.
      intros _. apply andb_prop in Ec as [_ Ec].
      apply Nat.ltb_lt in Ec. lia.
    + cbn [fst snd ui]. apply Hfin.
      * destruct (research_catch_facts e
                    (pressed w (length (issued m1))
                       (announce_synthesis P (ui m1)))) as [Hcr _].
        congruence.
      * rewrite research_catch_query. congruence.
  - eapply Hdel; eauto.
    intros Ht. destruct P as [|p P]; [discriminate Ht|cbn; lia].
Qed.

(** ** What a run leaves behind *)

(** A run that began ends with the busy flag off and the phase line
    empty, whatever happened; and it either leaves the results and the
    query untouched, or it delivers exactly one result: in front of the
    others, with a non-empty answer, a confidence between 49 and 97
    computed for the passes that completed (one at least), the query
    cleared, and no ERROR event in the log.  So no run delivers two
    results, none delivers an empty answer, and none both delivers and
    reports an error. *)
Theorem run_outcome (w : world) (c : component) :
  begins c ->
  isResearching (startResearch w c).1 = false
  /\ currentPhase (startResearch w c).1 = []
  /\ kept_or_delivered w c (startResearch w c).1.
Proof.
  intros Hb. rewrite (startResearch_begins w c Hb). cbv zeta.
  split; [reflexivity|]. split; [reflexivity|]. cbn [fst].
  set (N := resolveNumPasses (depth (cfg c))).
  set (mem := buildMemorySection _ _).
  set (hasMem := Nat.ltb 0 _).
  rewrite research_try_eq. cbn [ui issued].
  destruct (prelude_facts c N hasMem c) as (Hab0 & Hres0 & Herr0).
  assert (Hq0 : query (prelude c N hasMem (entered c)) = query c)
    by (unfold prelude; destruct hasMem; reflexivity).
  destruct (pass_loop_spec w c N mem (iterations N) 0 []
              {| ui := prelude c N hasMem (entered c); issued := [] |}
              Hab0 eq_refl eq_refl)
    as (n & _ & Hres & Herr & _ & Hend).
  destruct (pass_loop_kept w c N mem (iterations N) 0 []
              {| ui := prelude c N hasMem (entered c); issued := [] |})
    as (Hq & _).
  cbv zeta in *. cbn [ui issued] in *.
  destruct (pass_loop w c N mem (iterations N) 0 [] _) as [r m1].
  cbn [fst snd] in *.
  rewrite Hres0 in Hres. rewrite Herr0 in Herr. rewrite Hq0 in Hq.
  destruct Hend as [(_ & Ho & Hab' & _)|[(_ & Ho & Hab' & _)|(_ & e & Ho & _)]];
    subst r.
  - now apply (after_loop w c N mem _ m1 false).
  - now apply (after_loop w c N mem _ m1 true).
  - cbn [fst snd]. left. split.
    + destruct (research_catch_facts e (ui m1)) as [Hcr _].
      cbn. congruence.
    + cbn. rewrite research_catch_query. exact Hq.
Qed.

(** ** The number of generation calls *)

Lemma depth_table_values (d : jsstring) (n : nat) :
  depth_table !! d = Some n -> 1 <= n <= 8.
Proof.
  intros H. unfold depth_table in H.
  apply elem_of_list_to_map_2 in H.
  rewrite !elem_of_cons, elem_of_nil in H.
  destruct H as [H|[H|[H|[H|[]]]]]; inversion H; lia.
Qed.

Lemma passes_range (d : jsstring) :
  iterations (resolveNumPasses d) <= 8.
Proof.
  unfold resolveNumPasses, get_property.
  destruct (depth_table !! d) as [n|] eqn:E.
  - apply depth_table_values in E.
    destruct (value_truthy (VNum n)); cbn; lia.
  - destruct (assoc d object_prototype); cbn; lia.
Qed.

Lemma returned_texts_length (w : world) (n : nat) :
  length (returned_texts w n) = n.
Proof. unfold returned_texts. now rewrite length_map, length_seq. Qed.

(** The generation calls of a run, with their number: the calls of the
    first [n] passes, [n] no more than the tier has and every pass but
    the last completed; followed by at most the synthesis call, and by
    that only after two passes or more, all completed. *)
Lemma run_calls_bounded (w : world) (c : component) :
  let numPasses := resolveNumPasses (depth (cfg c)) in
  let memSection :=
    buildMemorySection (activeContextIds (cfg c)) (memoryContexts c) in
  exists n,
    n <= iterations numPasses
    /\ (forall j, S j < n -> completes w j)
    /\ ((startResearch w c).2
        = map (pass_call w c numPasses memSection) (seq 0 n)
        \/ (more_than_one numPasses = true
            /\ 2 <= n
            /\ (forall j, j < n -> completes w j)
            /\ (startResearch w c).2
               = map (pass_call w c numPasses memSection) (seq 0 n)
                 ++ [synthesis_call c memSection (returned_texts w n)])).
Proof.
  intros N mem.
  destruct (negb (truthy (trim (query c))) || isResearching c) eqn:Eg.
  { exists 0. split; [lia|]. split; [intros; lia|].
    left. unfold startResearch. now rewrite Eg. }
  assert (Hb : begins c).
  { apply orb_false_elim in Eg as [Hq Hr]. split; [|exact Hr].
    apply truthy_nonempty. now apply negb_false_iff. }
  rewrite (startResearch_begins w c Hb). cbv zeta.
  rewrite research_try_eq. cbn [ui issued snd]. fold N mem.
  set (hasMem := Nat.ltb 0 _).
  destruct (prelude_facts c N hasMem c) as (Hab0 & _ & _).
  destruct (pass_loop_spec w c N mem (iterations N) 0 []
              {| ui := prelude c N hasMem (entered c); issued := [] |}
              Hab0 eq_refl eq_refl)
    as (n & Hi & _ & _ & Hall & Hend).
  cbv zeta in *. cbn [ui issued app Nat.add] in *.
  destruct (pass_loop w c N mem (iterations N) 0 [] _) as [r m1].
  cbn [fst snd] in *. exists n.
  assert (Hn : n <= iterations N).
  { destruct Hend as [(Hn & _)|[(Hn & _)|(Hn & _)]]; lia. }
  split; [exact Hn|].
  split; [intros j Hj; apply Hall; lia|].
  assert (Hnormal :
    r = Normal (returned_texts w n) ->
    issued
      (match final_answer w c N mem (returned_texts w n) m1 with
       | (Normal fa, m2) => deliver w c hasMem (returned_texts w n) fa m2
       | (Thrown e, m2) => (Thrown e, m2)
       end).2 = issued m1
    \/ (more_than_one N = true /\ 2 <= n /\ signal_aborted (ui m1) = false
        /\ issued
      (match final_answer w c N mem (returned_texts w n) m1 with
       | (Normal fa, m2) => deliver w c hasMem (returned_texts w n) fa m2
       | (Thrown e, m2) => (Thrown e, m2)
       end).2 = issued m1 ++ [synthesis_call c mem (returned_texts w n)])).
  { intros _. rewrite final_answer_eq.
    destruct (negb (signal_aborted (ui m1)) && more_than_one N
              && Nat.ltb 1 (length (returned_texts w n))) eqn:Ec.
    - right. cbv zeta.
      apply andb_prop in Ec as [Ec El]. apply andb_prop in Ec as [Ea Ec].
      split; [exact Ec|]. split.
      { apply Nat.ltb_lt in El. rewrite returned_texts_length in El. lia. }
      split; [now apply negb_true_iff in Ea|].
      destruct (settled (generate w (length (issued m1)))) as [text|e].
      + match goal with |- issued (deliver ?w ?c ?h ?P ?fa ?m).2 = _ =>
          destruct (deliver_spec w c h P fa m) as (_ & Hd & _) end.
        cbv zeta in Hd. rewrite Hd. reflexivity.
      + reflexivity.
    - left.
      match goal with |- issued (deliver ?w ?c ?h ?P ?fa ?m).2 = _ =>
        destruct (deliver_spec w c h P fa m) as (_ & Hd & _) end.
      cbv zeta in Hd. exact Hd. }
  destruct Hend as [(_ & Ho & _ & Hc)|[(Hn1 & Ho & Hab' & _)|(_ & e & Ho & _)]].
  - subst r. destruct (Hnormal eq_refl) as [H|(Hm & H2 & _ & H)];
      rewrite H, Hi; [now left|right].
    split; [exact Hm|]. split; [exact H2|]. split; [|reflexivity].
    intros j Hj. apply Hc. lia.
  - subst r. destruct (Hnormal eq_refl) as [H|(_ & _ & Ha & _)];
      [rewrite H, Hi; now left|].
    rewrite (signal_aborted_Some _ _ Hab') in Ha. discriminate Ha.
  - subst r. left. exact Hi.
Qed.

Lemma pass_sites_NoDup (w : world) (c : component) (N : jsvalue)
    (mem : jsstring) (n : nat) :
  map site (map (pass_call w c N mem) (seq 0 n)) = map PassCall (seq 0 n)
  /\ NoDup (map PassCall (seq 0 n))
  /\ ~ In SynthesisCall (map PassCall (seq 0 n)).
Proof.
  split; [now rewrite map_map|]. split.
  - assert (Hinj : Inj (=) (=) PassCall) by (intros x y H; now inversion H).
    apply (NoDup_fmap_2 PassCall), NoDup_seq.
  - intros H. apply in_map_iff in H as (x & Hx & _). discriminate.
Qed.

(** A run issues at most one call per pass of the tier and, above one
    pass, one synthesis call: nine calls at the very most.  The calls
    come in the order of the passes, the call of pass [k] as the [k]-th,
    each once, and the synthesis call, when there is one, last. *)
Theorem call_budget (w : world) (c : component) :
  let N := resolveNumPasses (depth (cfg c)) in
  let calls := (startResearch w c).2 in
  length calls <= iterations N + (if more_than_one N then 1 else 0)
  /\ length calls <= 9
  /\ NoDup (map site calls)
  /\ (forall k call,
        calls !! k = Some call ->
        site call = PassCall k
        \/ (site call = SynthesisCall /\ S k = length calls)).
Proof.
  intros N calls.
  destruct (run_calls_bounded w c) as (n & Hn & _ & Hc).
  cbv zeta in Hc. fold N calls in Hn, Hc.
  pose proof (passes_range (depth (cfg c))) as H8. fold N in H8.
  set (mem := buildMemorySection _ _) in Hc.
  destruct (pass_sites_NoDup w c N mem n) as (Hs & Hd & Hnot).
  assert (Hk : forall k call,
             map (pass_call w c N mem) (seq 0 n) !! k = Some call ->
             site call = PassCall k).
  { intros k call H.
    change (map (pass_call w c N mem) (seq 0 n))
      with (pass_call w c N mem <$> seq 0 n) in H.
    rewrite list_lookup_fmap in H.
    destruct (seq 0 n !! k) as [j|] eqn:Ej; [|discriminate H].
    apply lookup_seq in Ej as [-> _]. cbn in H. now inversion H. }
  destruct Hc as [Hc|(Hm & _ & _ & Hc)]; rewrite Hc.
  - rewrite length_map, length_seq, Hs.
    split; [lia|]. split; [lia|]. split; [exact Hd|].
    intros k call H. left. now apply Hk.
  - rewrite length_app, length_map, length_seq, Hm, map_app, Hs.
    cbn [length map site synthesis_call].
    split; [lia|]. split; [lia|]. split.
    + apply NoDup_app. split; [exact Hd|].
      split; [|apply NoDup_singleton].
      intros x Hx Hin. apply list_elem_of_singleton in Hin. subst x.
      apply Hnot. now apply list_elem_of_In.
    + intros k call H. apply lookup_app_Some in H as [H|[Hlen H]].
      * left. now apply Hk.
      * rewrite length_map, length_seq in Hlen, H.
        apply list_lookup_singleton_Some in H as [Hk0 <-].
        right. split; [reflexivity|]. lia.
Qed.

(** A further call is only made after a call that completed: once Stop
    is pressed while a call is pending, or a call fails, that call is the
    last one of the run; nothing is retried and nothing is called after
    Stop. *)
Theorem calls_follow_completion (w : world) (c : component) (k : nat) :
  S k < length (startResearch w c).2 ->
  completes w k.
Proof.
  intros Hk.
  destruct (run_calls_bounded w c) as (n & _ & Hall & Hc).
  cbv zeta in Hc.
  destruct Hc as [Hc|(_ & _ & Hfull & Hc)]; rewrite Hc in Hk.
  - rewrite length_map, length_seq in Hk. now apply Hall.
  - rewrite length_app, length_map, length_seq in Hk. cbn [length] in Hk.
    apply Hfull. lia.
Qed.

(** ** Runs whose passes all complete *)

(** When every pass of the tier completes, the loop ends after the last
    one, not aborted, with the outputs of all passes. *)
Lemma full_loop (w : world) (c : component) (N : nat) :
  (forall j, j < N -> completes w j) ->
  let mem := buildMemorySection (activeContextIds (cfg c)) (memoryContexts c) in
  let hasMem := Nat.ltb 0 (size (activeContextIds (cfg c))) in
  let out := pass_loop w c (VNum N) mem N 0 []
               {| ui := prelude c (VNum N) hasMem (entered c); issued := [] |} in
  out.1 = Normal (returned_texts w N)
  /\ issued out.2 = map (pass_call w c (VNum N) mem) (seq 0 N)
  /\ results (ui out.2) = results c
  /\ error_events (thoughts (ui out.2)) = []
  /\ abortRef (ui out.2) = Some false.
Proof.
  intros Hall mem hasMem.
  destruct (prelude_facts c (VNum N) hasMem c) as (Hab0 & Hres0 & Herr0).
  destruct (pass_loop_spec w c (VNum N) mem N 0 []
              {| ui := prelude c (VNum N) hasMem (entered c); issued := [] |}
              Hab0 eq_refl eq_refl)
    as (n & Hi & Hres & Herr & _ & Hend).
  cbv zeta in *. cbn [ui issued app Nat.add] in *.
  destruct (pass_loop w c (VNum N) mem N 0 [] _) as [r m1].
  cbn [fst snd] in *. rewrite Hres0 in Hres. rewrite Herr0 in Herr.
  destruct Hend as [(Hn & Ho & Hab' & _)|[(Hn & _ & _ & Hs & _)|(Hn & e & _ & Hs & _)]].
  - subst n. auto.
  - exfalso. destruct (Hall (n - 1)) as [Hns _]; [lia|]. congruence.
  - exfalso. destruct (Hall (n - 1)) as [_ [t Ht]]; [lia|]. congruence.
Qed.

(** The tiers above quick, end to end: when all [N] passes complete and
    the synthesis call returns a non-empty text, the run has issued the [N]
    pass calls and then the synthesis call over their outputs, and it
    prepends one result whose answer is the synthesis, scored for [N]
    passes; the query is cleared and no ERROR event is logged. *)
Theorem synthesized_run (w : world) (c : component) (N : nat)
    (answer : jsstring) :
  begins c ->
  resolveNumPasses (depth (cfg c)) = VNum N ->
  2 <= N ->
  (forall j, j < N -> completes w j) ->
  generate w N = {| settled := Returned answer; stop_pressed := false |} ->
  answer <> [] ->
  let memSection :=
    buildMemorySection (activeContextIds (cfg c)) (memoryContexts c) in
  let hasMem := Nat.ltb 0 (size (activeContextIds (cfg c))) in
  (startResearch w c).2
  = map (pass_call w c (VNum N) memSection) (seq 0 N)
    ++ [synthesis_call c memSection (returned_texts w N)]
  /\ results (startResearch w c).1
     = result_item w c answer (computeConfidence answer (Z.of_nat N) 0 hasMem)
       :: results c
  /\ query (startResearch w c).1 = []
  /\ error_events (thoughts (startResearch w c).1) = [].
Proof.
  intros Hb HN H2 Hall Hgen Hans mem hasMem.
  rewrite (startResearch_begins w c Hb). cbv zeta. fold mem hasMem.
  rewrite research_try_eq, HN. cbn [iterations ui issued].
  destruct (full_loop w c N Hall) as (Ho & Hi & Hres & Herr & Hab).
  cbv zeta in *. fold mem hasMem in Ho, Hi, Hres, Herr, Hab.
  destruct (pass_loop w c (VNum N) mem N 0 [] _) as [r m1].
  cbn [fst snd] in *. subst r.
  rewrite final_answer_eq.
  rewrite (signal_aborted_Some _ _ Hab), returned_texts_length.
  cbn [more_than_one negb andb].
  rewrite (proj2 (Nat.ltb_lt 1 N)) by lia. cbn [andb]. cbv zeta.
  assert (Hlen : length (issued m1) = N)
    by (now rewrite Hi, length_map, length_seq).
  rewrite Hlen, Hgen. cbn [settled].
  destruct (synthesis_step_facts w N (returned_texts w N) (ui m1) false Hab)
    as (Hsr & Hse & Hsa).
  rewrite Hgen in Hsa. cbn [stop_pressed orb] in Hsa.
  match goal with |- context [deliver ?w ?c ?h ?P ?fa ?m] =>
    destruct (deliver_spec w c h P fa m) as (Hd1 & Hd2 & Hd3 & Hd4);
    destruct (deliver_more w c h P fa m) as (_ & Hd5) end.
  cbv zeta in *. cbn [ui issued] in *.
  rewrite (signal_aborted_Some _ _ Hsa) in Hd4, Hd5.
  apply truthy_nonempty in Hans. rewrite Hans in Hd4, Hd5.
  cbn [negb andb] in Hd4, Hd5. specialize (Hd5 eq_refl).
  rewrite returned_texts_length in Hd4.
  destruct (deliver w c hasMem (returned_texts w N) answer _) as [r3 m3].
  cbn [fst snd] in *. subst r3.
  split; [now rewrite Hd2, Hi|].
  split; [change (results (ui m3) = result_item w c answer
            (computeConfidence answer (Z.of_nat N) 0 hasMem) :: results c);
          now rewrite Hd4, Hsr, Hres|].
  split; [change (query (ui m3) = []); exact Hd5|].
  change (error_events (thoughts (ui m3)) = []).
  now rewrite Hd3, Hse.
Qed.

(** When the synthesis call fails after all [N] passes completed, the
    outputs of the passes are not delivered: no result, one ERROR event
    with the message of the error, and the query stays as typed. *)
Theorem synthesis_failure (w : world) (c : component) (N : nat)
    (e : js_error) :
  begins c ->
  resolveNumPasses (depth (cfg c)) = VNum N ->
  2 <= N ->
  (forall j, j < N -> completes w j) ->
  settled (generate w N) = Threw e ->
  err_name e <> AbortError ->
  map site (startResearch w c).2 = map PassCall (seq 0 N) ++ [SynthesisCall]
  /\ results (startResearch w c).1 = results c
  /\ query (startResearch w c).1 = query c
  /\ error_events (thoughts (startResearch w c).1) = [err_message e]
  /\ isResearching (startResearch w c).1 = false.
Proof.
  intros Hb HN H2 Hall Hgen Hname.
  rewrite (startResearch_begins w c Hb). cbv zeta.
  set (mem := buildMemorySection _ _). set (hasMem := Nat.ltb 0 _).
  rewrite research_try_eq, HN. cbn [iterations ui issued].
  destruct (full_loop w c N Hall) as (Ho & Hi & Hres & Herr & Hab).
  destruct (pass_loop_kept w c (VNum N) mem N 0 []
              {| ui := prelude c (VNum N) hasMem (entered c); issued := [] |})
    as (Hq & _).
  cbv zeta in *. fold mem hasMem in Ho, Hi, Hres, Herr, Hab.
  destruct (pass_loop w c (VNum N) mem N 0 [] _) as [r m1].
  cbn [fst snd ui] in *. subst r.
  assert (Hq0 : query (prelude c (VNum N) hasMem (entered c)) = query c)
    by (unfold prelude; destruct hasMem; reflexivity).
  rewrite final_answer_eq.
  rewrite (signal_aborted_Some _ _ Hab), returned_texts_length.
  cbn [more_than_one negb andb].
  rewrite (proj2 (Nat.ltb_lt 1 N)) by lia. cbn [andb]. cbv zeta.
  assert (Hlen : length (issued m1) = N)
    by (now rewrite Hi, length_map, length_seq).
  rewrite Hlen, Hgen.
  destruct (synthesis_step_facts w N (returned_texts w N) (ui m1) false Hab)
    as (Hsr & Hse & _).
  pose proof (synthesis_step_query w N (returned_texts w N) (ui m1)) as Hsq.
  cbn [fst snd ui issued].
  destruct (research_catch_facts e
              (pressed w N (announce_synthesis (returned_texts w N) (ui m1))))
    as [Hcr Hce].
  split.
  { rewrite Hi, map_app, map_map. reflexivity. }
  split.
  { change (results (research_catch e
              (pressed w N (announce_synthesis (returned_texts w N) (ui m1))))
            = results c). congruence. }
  split.
  { change (query (research_catch e
              (pressed w N (announce_synthesis (returned_texts w N) (ui m1))))
            = query c). rewrite research_catch_query. congruence. }
  split; [|reflexivity].
  change (error_events (thoughts (research_catch e
            (pressed w N (announce_synthesis (returned_texts w N) (ui m1)))))
          = [err_message e]).
  rewrite Hce, Hse, Herr, bool_decide_eq_false_2 by exact Hname. reflexivity.
Qed.

(** ** Failures of the service *)

Lemma api_error_message (body_error : option jsstring) (status : nat) :
  err_message (api_error body_error status) <> []
  /\ err_name (api_error body_error status) <> AbortError
  /\ (forall text, body_error = Some text -> text <> [] ->
      err_message (api_error body_error status) = text)
  /\ (body_error = None \/ body_error = Some [] ->
      err_message (api_error body_error status)
      = lit "API error " ++ show_nat status).
Proof.
  unfold api_error. cbn [err_message err_name].
  split.
  { destruct body_error as [[|x t]|]; cbn; discriminate. }
  split; [vm_compute; discriminate|].
  split.
  - intros text -> Ht. apply truthy_nonempty in Ht. now rewrite Ht.
  - intros [->| ->]; reflexivity.
Qed.

(** A response that is not ok, to the call of any pass, ends the run with
    exactly one ERROR event in the log: the [error] text of the body when
    there is one, [API error <status>] otherwise; the event is never
    empty, and no result is delivered. *)
Theorem http_failure_reported (w : world) (c : component) (N k : nat)
    (body_error : option jsstring) (status : nat) :
  begins c ->
  resolveNumPasses (depth (cfg c)) = VNum N ->
  k < N ->
  (forall j, j < k -> completes w j) ->
  settled (generate w k) = Threw (api_error body_error status) ->
  exists message,
    error_events (thoughts (startResearch w c).1) = [message]
    /\ message <> []
    /\ (forall text, body_error = Some text -> text <> [] -> message = text)
    /\ (body_error = None \/ body_error = Some [] ->
        message = lit "API error " ++ show_nat status)
    /\ results (startResearch w c).1 = results c.
Proof.
  intros Hb HN Hk Hprev Hfail.
  destruct (api_error_message body_error status) as (Hm & Hn & Ht & Hf).
  destruct (pass_failure_general w c N k _ Hb HN Hk Hprev Hfail Hn)
    as (Hr & He & _).
  exists (err_message (api_error body_error status)). auto.
Qed.

(** ** The log of a run *)

(** The log of a run holds nothing of the log before it: it opens with
    the INITIALIZE event that names provider, model and number of passes,
    followed, when a context is selected, by the MEMORY RETRIEVAL event
    with the number of selected ids; the rest of the run appends to
    these. *)
Theorem log_opening (w : world) (c : component) :
  begins c ->
  let N := resolveNumPasses (depth (cfg c)) in
  let k := size (activeContextIds (cfg c)) in
  exists rest,
    thoughts (startResearch w c).1
    = {| th_type := lit "INITIALIZE";
         th_detail := lit "Provider: " ++ provider_name (provider (cfg c)) ++
                      lit " " ++ middot ++ lit " Model: " ++ model (cfg c) ++
                      lit " " ++ middot ++ lit " Passes: " ++ show_value N |}
      :: (if Nat.ltb 0 k
          then [ {| th_type := lit "MEMORY RETRIEVAL";
                    th_detail := lit "Injecting " ++ show_nat k ++
                      lit " prior context(s) for cross-session continuity" |} ]
          else [])
      ++ rest.
Proof.
  intros Hb N k. rewrite (startResearch_begins w c Hb). cbv zeta.
  set (mem := buildMemorySection _ _). fold N k.
  set (hasMem := Nat.ltb 0 k).
  rewrite research_try_eq. cbn [ui issued fst].
  set (c1 := prelude c N hasMem (entered c)).
  assert (Hc1 : thoughts c1
    = {| th_type := lit "INITIALIZE";
         th_detail := lit "Provider: " ++ provider_name (provider (cfg c)) ++
                      lit " " ++ middot ++ lit " Model: " ++ model (cfg c) ++
                      lit " " ++ middot ++ lit " Passes: " ++ show_value N |}
      :: (if hasMem
          then [ {| th_type := lit "MEMORY RETRIEVAL";
                    th_detail := lit "Injecting " ++ show_nat k ++
                      lit " prior context(s) for cross-session continuity" |} ]
          else [])).
  { unfold c1, prelude, entered. destruct hasMem; reflexivity. }
  enough (H : exists rest,
    thoughts (research_finally
      match (match pass_loop w c N mem (iterations N) 0 []
                     {| ui := c1; issued := [] |} with
             | (Normal P, m1) =>
                 match final_answer w c N mem P m1 with
                 | (Normal fa, m2) => deliver w c hasMem P fa m2
                 | (Thrown e, m2) => (Thrown e, m2)
                 end
             | (Thrown e, m1) => (Thrown e, m1)
             end) with
      | (Normal _, m) => ui m
      | (Thrown err, m) => research_catch err (ui m)
      end) = thoughts c1 ++ rest).
  { destruct H as [rest H]. exists rest.
    rewrite Hc1 in H. cbn [app] in H. rewrite <- H.
    destruct (match pass_loop w c N mem (iterations N) 0 []
                      {| ui := c1; issued := [] |} with
              | (Normal P, m1) => _ | (Thrown e, m1) => _ end) as [[?|?] ?];
      reflexivity. }
  assert (Hcatch : forall e c2 l, thoughts c2 = thoughts c1 ++ l ->
            exists rest, thoughts (research_finally (research_catch e c2))
                         = thoughts c1 ++ rest).
  { intros e c2 l H. unfold research_catch.
    destruct (bool_decide (err_name e = AbortError)).
    - exists l. exact H.
    - eexists. cbn [thoughts research_finally addThought setThoughts
                     setCurrentPhase setIsResearching].
      rewrite H, <- app_assoc. reflexivity. }
  destruct (pass_loop_kept w c N mem (iterations N) 0 []
              {| ui := c1; issued := [] |}) as (_ & l1 & Hl1).
  cbv zeta in Hl1. cbn [ui] in Hl1.
  destruct (pass_loop w c N mem (iterations N) 0 [] _) as [[P|e] m1];
    cbn [snd] in Hl1; [|now apply (Hcatch e _ l1)].
  rewrite final_answer_eq.
  assert (Hdel : forall fa m2 l, thoughts (ui m2) = thoughts c1 ++ l ->
            exists rest,
              thoughts (research_finally
                match deliver w c hasMem P fa m2 with
                | (Normal _, m) => ui m
                | (Thrown err, m) => research_catch err (ui m)
                end) = thoughts c1 ++ rest).
  { intros fa m2 l H.
    destruct (deliver_spec w c hasMem P fa m2) as (Hd1 & _).
    destruct (deliver_more w c hasMem P fa m2) as ([l' Hd] & _).
    cbv zeta in *.
    destruct (deliver w c hasMem P fa m2) as [r3 m3].
    cbn [fst snd] in *. subst r3. exists (l ++ l').
    change (thoughts (ui m3) = thoughts c1 ++ l ++ l').
    now rewrite Hd, H, app_assoc. }
  destruct (negb (signal_aborted (ui m1)) && more_than_one N
            && Nat.ltb 1 (length P)); [|now apply (Hdel _ m1 l1)].
  cbv zeta.
  assert (Hs : thoughts (pressed w (length (issued m1))
                           (announce_synthesis P (ui m1)))
               = thoughts c1 ++ l1 ++
                 [ {| th_type := lit "SYNTHESIS";
                      th_detail := lit "Synthesizing " ++
                        show_nat (length P) ++
                        lit " passes into final response..." |} ]).
  { unfold pressed. destruct (stop_pressed _);
      rewrite ?stopResearch_thoughts; unfold announce_synthesis;
      cbn [thoughts addThought setThoughts setProgress setCurrentPhase];
      now rewrite Hl1, <- app_assoc. }
  destruct (settled (generate w (length (issued m1)))) as [text|e].
  - eapply Hdel. cbn [ui]. exact Hs.
  - eapply Hcatch. exact Hs.
Qed.

(** ** The busy flag *)

(** ** The prompt of the synthesis *)



(** ** The labels of the passes *)

Lemma passLabel_distinct (i j : nat) :
  i < j -> j < 8 -> passLabel i <> passLabel j.
Proof.
  intros Hij Hj.
  assert (Hi : i < 8) by lia.
  do 8 (destruct i as [|i]; [do 8 (destruct j as [|j]; [first [lia|vm_compute; discriminate]|]); lia|]).
  lia.
Qed.

(** No tier has more passes than there are labels: the passes of a run
    carry pairwise distinct labels, each one of [PASS_LABELS], and the
    clamp [Math.min(i, PASS_LABELS.length - 1)] never takes effect. *)
Theorem pass_labels_distinct (d : jsstring) (i j : nat) :
  i < j ->
  j < iterations (resolveNumPasses d) ->
  passLabel i <> passLabel j
  /\ nth_error PASS_LABELS i = Some (passLabel i)
  /\ nth_error PASS_LABELS j = Some (passLabel j).
Proof.
  intros Hij Hj. pose proof (passes_range d) as H8.
  split; [apply passLabel_distinct; lia|].
  assert (Hnth : forall k, k < 8 -> nth_error PASS_LABELS k = Some (passLabel k)).
  { intros k Hk.
    do 8 (destruct k as [|k]; [reflexivity|]). lia. }
  split; apply Hnth; lia.
Qed.

(** ** The further statements at concrete inputs *)

(** Two stored contexts, both clicked. *)
Lemma selection_bounded_witness :
  let es := [Toggle (lit "a"); Toggle (lit "b")] in
  NoDup (map mc_id Scenario.two_contexts)
  /\ size (selections es) <= 5
  /\ length (selected (selections es) Scenario.two_contexts) <= 5.
Proof.
  intros es.
  assert (Hnd : NoDup (map mc_id Scenario.two_contexts)).
  { apply NoDup_cons. split; [|apply NoDup_singleton].
    intros H. apply list_elem_of_singleton in H. discriminate H. }
  split; [exact Hnd|].
  destruct (selection_bounded es Scenario.two_contexts) as [H1 H2].
  split; [exact H1|exact (H2 Hnd)].
Defined.

(** The first of two chips clicked twice: it is selected again, behind
    the other. *)
Lemma toggleContext_twice_witness :
  NoDup [lit "a"; lit "b"]
  /\ length [lit "a"; lit "b"] <= 5
  /\ toggleContext_ordered (lit "a")
       (toggleContext_ordered (lit "a") [lit "a"; lit "b"])
     = [lit "b"; lit "a"].
Proof.
  assert (Hnd : NoDup [lit "a"; lit "b"]).
  { apply NoDup_cons. split; [|apply NoDup_singleton].
    intros H. apply list_elem_of_singleton in H. discriminate H. }
  assert (Hlen : length [lit "a"; lit "b"] <= 5) by (cbn; lia).
  split; [exact Hnd|]. split; [exact Hlen|].
  destruct (toggleContext_twice (lit "a") [lit "a"; lit "b"] Hnd Hlen)
    as (_ & _ & _ & _ & H).
  rewrite H by now left. reflexivity.
Defined.

(** A timestamp one minute and a half before now. *)
Lemma timeAgo_units_witness :
  (0 <= 1700000090000 < 2 ^ 53)%Z
  /\ (0 <= 1700000000000 < 2 ^ 53)%Z
  /\ timeAgo 1700000090000 1700000000000 = lit "1m ago".
Proof.
  assert (H1 : (0 <= 1700000090000 < 2 ^ 53)%Z) by lia.
  assert (H2 : (0 <= 1700000000000 < 2 ^ 53)%Z) by lia.
  split; [exact H1|]. split; [exact H2|].
  destruct (timeAgo_units 1700000090000 1700000000000 H1 H2)
    as (_ & Hm & _).
  destruct Hm as [Hm _]; [lia|].
  exact Hm.
Defined.

(** Three passes against one, on the same answer. *)
Lemma score_monotone_witness :
  (1 <= 3)%Z /\ (0 <= 0)%Z
  /\ (computeConfidence (lit "## Findings") 1 0 false
      <= computeConfidence (lit "## Findings") 3 0 false)%Z
  /\ (computeConfidence (lit "## Findings") 1 0 false
      <= computeConfidence (lit "## Findings") 1 0 true)%Z.
Proof.
  split; [lia|]. split; [lia|].
  apply (score_monotone (lit "## Findings") 1 3 0 0 false); lia.
Defined.

(** The standard tier with an answering service. *)
Lemma run_outcome_witness :
  let w := Scenario.answering in
  let c := Scenario.ready (lit "standard") in
  begins c
  /\ isResearching (startResearch w c).1 = false
  /\ currentPhase (startResearch w c).1 = []
  /\ kept_or_delivered w c (startResearch w c).1.
Proof.
  intros w c. split; [apply ready_begins|].
  exact (run_outcome w c (ready_begins _)).
Defined.

Lemma answering_completes (j : nat) : completes Scenario.answering j.
Proof. split; [reflexivity|]. now exists (lit "## Findings"). Qed.

(** The standard tier with an answering service: three passes and the
    synthesis. *)
Lemma synthesized_run_witness :
  let w := Scenario.answering in
  let c := Scenario.ready (lit "standard") in
  begins c
  /\ resolveNumPasses (depth (cfg c)) = VNum 3
  /\ (forall j, j < 3 -> completes w j)
  /\ (startResearch w c).2
     = map (pass_call w c (VNum 3) []) [0; 1; 2]
       ++ [synthesis_call c [] (returned_texts w 3)]
  /\ results (startResearch w c).1
     = [result_item w c (lit "## Findings")
          (computeConfidence (lit "## Findings") 3 0 false)]
  /\ query (startResearch w c).1 = []
  /\ error_events (thoughts (startResearch w c).1) = [].
Proof.
  intros w c. split; [apply ready_begins|].
  split; [reflexivity|].
  split; [intros j _; apply answering_completes|].
  apply (synthesized_run w c 3 (lit "## Findings") (ready_begins _)).
  - reflexivity.
  - lia.
  - intros j _. apply answering_completes.
  - reflexivity.
  - discriminate.
Defined.

Lemma failing_at_completes (k : nat) (e : js_error) (j : nat) :
  j < k -> completes (failing_at k e) j.
Proof.
  intros Hj. unfold completes, failing_at. cbn [generate Scenario.scripted].
  rewrite (proj2 (Nat.eqb_neq j k)) by lia.
  split; [reflexivity|]. now exists (lit "## Findings").
Qed.

(** The standard tier when the synthesis call, the fourth of the run,
    fails. *)
Lemma synthesis_failure_witness :
  let w := failing_at 3 Scenario.boom in
  let c := Scenario.ready (lit "standard") in
  settled (generate w 3) = Threw Scenario.boom
  /\ map site (startResearch w c).2
     = [PassCall 0; PassCall 1; PassCall 2; SynthesisCall]
  /\ results (startResearch w c).1 = results c
  /\ query (startResearch w c).1 = query c
  /\ error_events (thoughts (startResearch w c).1)
     = [err_message Scenario.boom]
  /\ isResearching (startResearch w c).1 = false.
Proof.
  intros w c. split; [reflexivity|].
  apply (synthesis_failure w c 3 Scenario.boom (ready_begins _)).
  - reflexivity.
  - lia.
  - intros j Hj. now apply failing_at_completes.
  - reflexivity.
  - vm_compute. discriminate.
Defined.

(** The standard tier when pass 1 gets a response 503 without an error
    text. *)
Lemma http_failure_reported_witness :
  let w := failing_at 1 (api_error None 503) in
  let c := Scenario.ready (lit "standard") in
  settled (generate w 1) = Threw (api_error None 503)
  /\ error_events (thoughts (startResearch w c).1) = [lit "API error 503"]
  /\ results (startResearch w c).1 = results c.
Proof.
  intros w c. split; [reflexivity|].
  destruct (http_failure_reported w c 3 1 None 503 (ready_begins _))
    as (message & He & _ & _ & Hm & Hr).
  - reflexivity.
  - lia.
  - intros j Hj. now apply failing_at_completes.
  - reflexivity.
  - rewrite He, Hm by now left. split; [reflexivity|exact Hr].
Defined.

(** The log of the quick tier, no context selected. *)
Lemma log_opening_witness :
  let w := Scenario.answering in
  let c := Scenario.ready (lit "quick") in
  begins c
  /\ exists rest,
       thoughts (startResearch w c).1
       = {| th_type := lit "INITIALIZE";
            th_detail := lit "Provider: Anthropic " ++ middot ++
                         lit " Model: claude-sonnet-4-5 " ++ middot ++
                         lit " Passes: 1" |}
         :: rest.
Proof.
  intros w c. split; [apply ready_begins|].
  destruct (log_opening w c (ready_begins _)) as [rest H].
  exists rest. exact H.
Defined.



(** The first and the third pass of the standard tier. *)
Lemma pass_labels_distinct_witness :
  0 < 2
  /\ 2 < iterations (resolveNumPasses (lit "standard"))
  /\ passLabel 0 <> passLabel 2
  /\ nth_error PASS_LABELS 0 = Some (passLabel 0)
  /\ nth_error PASS_LABELS 2 = Some (passLabel 2).
Proof.
  assert (H1 : 0 < 2) by lia.
  assert (H2 : 2 < iterations (resolveNumPasses (lit "standard")))
    by (vm_compute; lia).
  split; [exact H1|]. split; [exact H2|].
  exact (pass_labels_distinct (lit "standard") 0 2 H1 H2).
Defined.

(** The standard tier with an answering service: the fourth call follows
    the third. *)
Lemma calls_follow_completion_witness :
  let w := Scenario.answering in
  let c := Scenario.ready (lit "standard") in
  S 2 < length (startResearch w c).2
  /\ completes w 2.
Proof.
  intros w c.
  assert (H : S 2 < length (startResearch w c).2) by (vm_compute; lia).
  split; [exact H|].
  exact (calls_follow_completion w c 2 H).
Defined.

(** Model names of the provider table and their badges. *)
Example model_badges :
  model_badge (lit "claude-sonnet-4-5") = lit "claude-sonnet-4"
  /\ model_badge (lit "gpt-4o") = lit "gpt-4o"
  /\ model_badge (lit "meta/llama-3.1-405b-instruct") = lit "llama-3.1-405b"
  /\ model_badge (lit "mistralai/mixtral-8x22b-instruct-v0.1")
     = lit "mixtral-8x22b-instruct".
Proof. vm_compute. auto. Qed.

(** Escaping a tag. *)
Example md_escape_tag :
  md_escape (lit "<b>R&D</b>") = lit "&lt;b&gt;R&amp;D&lt;/b&gt;".
Proof. reflexivity. Qed.
